(** * PreFab: the raster transforms, the buffer, the binary codec and the
      polygon extraction of [prefab/geometry.py] and [prefab/device.py]

    A shallow embedding of the array code of the two modules.  A numpy
    array of rank two is a list of rows together with its number of
    columns (so that the shapes [(0, w)] and [(h, 0)] exist), a float is
    an IEEE 754 value ([spec_float], compared and computed with the
    operations of [SpecFloat]), a Python exception is an error value, a
    [dict] is a [gmap], and the objects of [device.py] live in a store
    of references. *)

From Stdlib Require Import ZArith List Lia Bool String Ascii.
From Stdlib Require Import Floats.SpecFloat.
From stdpp Require Import base option list gmap strings sorting.

Open Scope Z_scope.

(** ** Exceptions and results *)

(** The Python exceptions the modelled code can raise.  The last two are
    not exceptions: [NonTermination] marks a loop of the source that
    would not end (a parent chain with a cycle), [NoSuchObject] a
    reference to an object the store does not hold. *)
Inductive exn :=
  | ValueError | KeyError | IndexError | TypeError
  | StructError | BinasciiError | Cv2Error
  | NonTermination | NoSuchObject.

Inductive result (A : Type) :=
  | Ok (a : A)
  | Raise (e : exn).
Arguments Ok {A} a.
Arguments Raise {A} e.

#[global] Instance result_ret : MRet result := λ A a, Ok a.
#[global] Instance result_bind : MBind result := λ A B f x,
  match x with
  | Ok a => f a
  | Raise e => Raise e
  end.

Definition of_option {A} (e : exn) (o : option A) : result A :=
  match o with
  | Some a => Ok a
  | None => Raise e
  end.

(** ** Arrays of rank two *)

(** [np.ndarray] with [ndim == 2]: the rows, and [shape[1]].  The array
    is well formed when every row has [ncols] elements. *)
Record ndarray (A : Type) := mk_ndarray {
  ncols : nat;
  rows : list (list A)
}.
Arguments mk_ndarray {A} ncols rows.
Arguments ncols {A} _.
Arguments rows {A} _.

Definition nrows {A} (a : ndarray A) : nat := length (rows a).

Definition shape {A} (a : ndarray A) : nat * nat := (nrows a, ncols a).

Definition wf_ndarray {A} (a : ndarray A) : Prop :=
  Forall (λ r, length r = ncols a) (rows a).

(** [a[i][j]] for indices in range. *)
Definition get {A} (a : ndarray A) (i j : nat) : option A :=
  rows a !! i ≫= λ r, r !! j.

(** Elementwise application, as [np.where] and the arithmetic of numpy
    do it: the shape is kept. *)
Definition amap {A B} (f : A → B) (a : ndarray A) : ndarray B :=
  mk_ndarray (ncols a) (map (map f) (rows a)).

(** [a.ravel()]: the elements in row-major order. *)
Definition ravel {A} (a : ndarray A) : list A := concat (rows a).

(** ** Floats *)

Abbreviation float := spec_float.

(** The float literals of the source, as binary64 values. *)
Definition f_zero : float := S754_zero false.
Definition f_one : float := S754_finite false 4503599627370496 (-52).
Definition f_half : float := S754_finite false 4503599627370496 (-53).

Definition is_nan (x : float) : bool :=
  match x with
  | S754_nan => true
  | _ => false
  end.

(** [x != 0], the test of [np.nonzero]: both zeros are zero, a NaN is
    not. *)
Definition is_nonzero (x : float) : bool :=
  match x with
  | S754_zero _ => false
  | _ => true
  end.

(** [np.array_equal]: same shape and [==] on every element. *)
Definition array_equal (a b : ndarray float) : bool :=
  bool_decide (shape a = shape b)
  && forallb (λ p, SFeqb (fst p) (snd p)) (combine (ravel a) (ravel b)).

(** A floating-point format: the precision and the exponent of the
    infinities ([float32] is [(24, 128)], [float64] is [(53, 1024)]). *)
Record dtype := mk_dtype { prec : Z; emax : Z }.
Definition float32 : dtype := mk_dtype 24 128.
Definition float64 : dtype := mk_dtype 53 1024.

(** [v.astype(t)] on one element: rounding to nearest even in the
    format [t]. *)
Definition astype (t : dtype) (v : float) : float :=
  match v with
  | S754_finite s m e => binary_round (prec t) (emax t) s m e
  | _ => v
  end.

Definition same_dtype (t u : dtype) : bool :=
  (prec t =? prec u) && (emax t =? emax u).

(** A value of the format [t] as an operand of the format [u], as numpy
    converts the operands of a comparison: itself within one format. *)
Definition convert (t u : dtype) (v : float) : float :=
  if same_dtype t u then v else astype u v.

(** A Python float is a binary64 value.  Next to an array of the format
    [t] numpy takes it in that format: [a < eta] on a [float32] array
    compares with [eta] rounded to [float32]. *)
Definition python_float (t : dtype) (x : float) : float :=
  convert float64 t x.

(** An integer as a binary64 value, and the quotient of two integers as
    Python computes [p / q]. *)
Definition float_of_Z (x : Z) : float := binary_normalize 53 1024 x 0 false.
Definition float_ratio (p q : Z) : float :=
  SFdiv 53 1024 (float_of_Z p) (float_of_Z q).

(** ** The libraries behind the two modules *)

(** A contour of OpenCV is its sequence of integer points; a row of the
    hierarchy is [(next, previous, first_child, parent)]. *)
Definition contour := list (Z * Z).
Definition hierarchy_row := (Z * Z * Z * Z)%type.

(** OpenCV, gdstk, [np.tanh] and numpy's global random generator are
    not code of the repository: the modules are embedded over any
    implementation of them.  They are functions here, as the calls of
    the source use them: each returns a new array or raises, none
    writes to the array it is given, and only the two draws of random
    numbers have a state. *)
Class Backend := {
  rng_state : Type;
  np_tanh : float → float;
  np_random_normal : float → float → rng_state → float * rng_state;
  np_random_normal_array :
    float → float → nat * nat → rng_state → ndarray float * rng_state;
  cv2_GaussianBlur : ndarray float → float → result (ndarray float);
  rotation_matrix : Type;
  cv2_getRotationMatrix2D : float * float → float → Z → rotation_matrix;
  cv2_warpAffine :
    ndarray float → rotation_matrix → nat * nat → result (ndarray float);
  cv2_erode : ndarray float → ndarray Z → result (ndarray float);
  cv2_dilate : ndarray float → ndarray Z → result (ndarray float);
  astype_uint8 : float → Z;
  cv2_findContours :
    ndarray Z → Z → Z → result (list contour * option (list hierarchy_row));
  Polygon : Type;
  gdstk_boolean :
    list (list (float * float)) → list Polygon → string → Z → Z →
    result (list Polygon)
}.

(** * [prefab/geometry.py] *)

Module geometry.

(** One step of numpy's reductions [np.min] and [np.max], from the
    result [m] so far and the next element [x]: a NaN met on the way is
    kept, and of two equal elements (the two zeros) the later one. *)
Definition fmin (m x : float) : float :=
  if is_nan m then m
  else if SFltb m x then m else x.

Definition fmax (m x : float) : float :=
  if is_nan m then m
  else if SFltb x m then m else x.

(** [np.min(a)] and [np.max(a)]: a [ValueError] on an array without
    elements. *)
Definition np_min (a : ndarray float) : result float :=
  match ravel a with
  | [] => Raise ValueError
  | x :: xs => Ok (fold_left fmin xs x)
  end.

Definition np_max (a : ndarray float) : result float :=
  match ravel a with
  | [] => Raise ValueError
  | x :: xs => Ok (fold_left fmax xs x)
  end.

(** [normalize], lines 7-23:
    [(a - np.min(a)) / (np.max(a) - np.min(a))], in the format [t] of
    the array.  The three reductions are evaluated left to right. *)
Definition normalize (t : dtype) (device_array : ndarray float)
  : result (ndarray float) :=
  lo ← np_min device_array ;
  hi ← np_max device_array;
  lo' ← np_min device_array;
  Ok (amap (λ v, SFdiv (prec t) (emax t)
                   (SFsub (prec t) (emax t) v lo)
                   (SFsub (prec t) (emax t) hi lo'))
           device_array).

(** [binarize], lines 26-49, in the format [t] of the result. *)
Definition binarize `{Backend} (t : dtype) (device_array : ndarray float)
    (eta beta : float) : ndarray float :=
  let add := SFadd (prec t) (emax t) in
  let sub := SFsub (prec t) (emax t) in
  let mul := SFmul (prec t) (emax t) in
  let div := SFdiv (prec t) (emax t) in
  amap (λ v, div (add (np_tanh (mul beta eta)) (np_tanh (mul beta (sub v eta))))
                 (add (np_tanh (mul beta eta))
                      (np_tanh (mul beta (sub f_one eta)))))
       device_array.

(** [binarize_hard], lines 52-68:
    [np.where(device_array < eta, 0.0, 1.0)] on an array of the format
    [t].  The comparison is made in the format of the array, with the
    Python float [eta] taken in that format; the result is a [float64]
    array. *)
Definition binarize_hard (t : dtype) (device_array : ndarray float)
    (eta : float) : ndarray float :=
  let eta := python_float t eta in
  amap (λ v, if SFltb v eta then f_zero else f_one) device_array.

(** [ternarize], lines 135-155:
    [np.where(a < eta1, 0.0, np.where(a >= eta2, 1.0, 0.5))] on an
    array of the format [t], the two thresholds taken in that format. *)
Definition ternarize (t : dtype) (device_array : ndarray float)
    (eta1 eta2 : float) : ndarray float :=
  let eta1 := python_float t eta1 in
  let eta2 := python_float t eta2 in
  amap (λ v, if SFltb v eta1 then f_zero
             else if SFleb eta2 v then f_one else f_half)
       device_array.

(** [np.clip(x, lo, hi)] on a scalar. *)
Definition np_clip (x lo hi : float) : float := fmin (fmax x lo) hi.

(** Elementwise combination of two arrays of one shape. *)
Definition azip {A B C} (f : A → B → C) (a : ndarray A) (b : ndarray B)
  : ndarray C :=
  mk_ndarray (ncols a) (zip_with (zip_with f) (rows a) (rows b)).

(** [binarize_monte_carlo], lines 93-132, on an array of the format
    [t].  The two draws advance the global generator.  The threshold is
    a [float64] array, so the elements are compared as [float64]
    values. *)
Definition binarize_monte_carlo `{Backend} (t : dtype)
    (device_array : ndarray float)
    (threshold_noise_std threshold_blur_std : float) (g : rng_state)
  : result (ndarray float) * rng_state :=
  let '(x, g1) :=
    np_random_normal f_half (SFdiv 53 1024 f_half (float_of_Z 2)) g in
  let base_threshold := np_clip x (float_ratio 4 10) (float_ratio 6 10) in
  let '(threshold_noise, g2) :=
    np_random_normal_array f_zero threshold_noise_std (shape device_array) g1 in
  (spatial_threshold ← cv2_GaussianBlur threshold_noise threshold_blur_std;
   let dynamic_threshold :=
     amap (SFadd 53 1024 base_threshold) spatial_threshold in
   Ok (azip (λ v th, if SFltb (convert t float64 v) th then f_zero else f_one)
            device_array dynamic_threshold),
   g2).

(** [np.nonzero(a)]: the indices of the nonzero elements in row-major
    order, as the pair of the row indices and the column indices. *)
Fixpoint nonzero_from (j : nat) (r : list float) : list nat :=
  match r with
  | [] => []
  | v :: r' =>
      if is_nonzero v then j :: nonzero_from (S j) r'
      else nonzero_from (S j) r'
  end.

Fixpoint nonzero_rows_from (i : nat) (rs : list (list float))
  : list (nat * nat) :=
  match rs with
  | [] => []
  | r :: rs' => map (pair i) (nonzero_from 0 r) ++ nonzero_rows_from (S i) rs'
  end.

Definition np_nonzero (a : ndarray float) : list Z * list Z :=
  let ix := nonzero_rows_from 0 (rows a) in
  (map (λ p, Z.of_nat (fst p)) ix, map (λ p, Z.of_nat (snd p)) ix).

(** [.min()] and [.max()] of an index array: a [ValueError] when it is
    empty. *)
Definition int_min (l : list Z) : result Z :=
  match l with
  | [] => Raise ValueError
  | x :: xs => Ok (fold_left Z.min xs x)
  end.

Definition int_max (l : list Z) : result Z :=
  match l with
  | [] => Raise ValueError
  | x :: xs => Ok (fold_left Z.max xs x)
  end.

(** Python's slice [l[lo:hi]]: a negative bound counts from the end,
    and both bounds are clamped to the length. *)
Definition slice_index (n i : Z) : Z :=
  if i <? 0 then Z.max (i + n) 0 else Z.min i n.

Definition py_slice {A} (l : list A) (lo hi : Z) : list A :=
  let n := Z.of_nat (length l) in
  let lo' := slice_index n lo in
  let hi' := slice_index n hi in
  take (Z.to_nat (hi' - lo')) (drop (Z.to_nat lo') l).

(** [a[r0:r1, c0:c1]]. *)
Definition slice2 {A} (a : ndarray A) (r0 r1 c0 c1 : Z) : ndarray A :=
  let n := Z.of_nat (ncols a) in
  mk_ndarray (Z.to_nat (slice_index n c1 - slice_index n c0))
             (map (λ r, py_slice r c0 c1) (py_slice (rows a) r0 r1)).

(** [trim], lines 158-189. *)
Definition trim (device_array : ndarray float) (buffer_thickness : Z)
  : result (ndarray float) :=
  let '(nonzero_rows, nonzero_cols) := np_nonzero device_array in
  rmin ← int_min nonzero_rows;
  let row_min := Z.max (rmin - buffer_thickness) 0 in
  rmax ← int_max nonzero_rows;
  let row_max := Z.min (rmax + buffer_thickness + 1)
                       (Z.of_nat (nrows device_array)) in
  cmin ← int_min nonzero_cols;
  let col_min := Z.max (cmin - buffer_thickness) 0 in
  cmax ← int_max nonzero_cols;
  let col_max := Z.min (cmax + buffer_thickness + 1)
                       (Z.of_nat (ncols device_array)) in
  Ok (slice2 device_array row_min row_max col_min col_max).

(** [blur], lines 192-209. *)
Definition blur `{Backend} (t : dtype) (device_array : ndarray float)
    (sigma : float) : result (ndarray float) :=
  blurred ← cv2_GaussianBlur device_array sigma;
  normalize t blurred.

(** [rotate], lines 212-235. *)
Definition rotate `{Backend} (device_array : ndarray float) (angle : float)
  : result (ndarray float) :=
  let center :=
    (SFdiv 53 1024 (float_of_Z (Z.of_nat (ncols device_array))) (float_of_Z 2),
     SFdiv 53 1024 (float_of_Z (Z.of_nat (nrows device_array))) (float_of_Z 2))
  in
  let rotation_matrix := cv2_getRotationMatrix2D center angle 1 in
  cv2_warpAffine device_array rotation_matrix
                 (ncols device_array, nrows device_array).

(** [np.ones((k, k), dtype=np.uint8)]: a [ValueError] on a negative
    size. *)
Definition np_ones (k : Z) : result (ndarray Z) :=
  if k <? 0 then Raise ValueError
  else Ok (mk_ndarray (Z.to_nat k)
                      (replicate (Z.to_nat k) (replicate (Z.to_nat k) 1))).

(** [erode], lines 238-255, and [dilate], lines 258-275. *)
Definition erode `{Backend} (device_array : ndarray float) (kernel_size : Z)
  : result (ndarray float) :=
  kernel ← np_ones kernel_size;
  cv2_erode device_array kernel.

Definition dilate `{Backend} (device_array : ndarray float) (kernel_size : Z)
  : result (ndarray float) :=
  kernel ← np_ones kernel_size;
  cv2_dilate device_array kernel.

End geometry.

(** * [prefab/device.py] *)

Module device.

(** ** [BufferSpec], lines 24-78 *)

Record BufferSpec := mk_BufferSpec {
  mode : gmap string string;
  thickness : Z
}.

Definition default_mode : gmap string string :=
  <["top" := "constant"]> (<["bottom" := "constant"]>
  (<["left" := "constant"]> (<["right" := "constant"]> ∅))).

(** [BufferSpec()] with both defaults. *)
Definition BufferSpec_default : BufferSpec := mk_BufferSpec default_mode 128.

Definition allowed_modes : list string := ["constant"; "edge"].

(** The validator [check_mode] and the bound [conint(gt=0)]. *)
Definition check_mode (v : gmap string string) : bool :=
  forallb (λ kv, bool_decide (snd kv ∈ allowed_modes)) (map_to_list v).

Definition BufferSpec_validate (bs : BufferSpec) : result BufferSpec :=
  if check_mode (mode bs) then
    if 0 <? thickness bs then Ok bs else Raise ValueError
  else Raise ValueError.

(** [d[k]] on a dict. *)
Definition dict_get {V} (d : gmap string V) (k : string) : result V :=
  of_option KeyError (d !! k).

(** ** [np.pad] *)

(** Padding of one axis with its first and last element ([mode="edge"]):
    an axis without elements cannot be extended. *)
Definition pad_edge_list {A} (before after : nat) (l : list A)
  : result (list A) :=
  match l, last l with
  | x :: _, Some y => Ok (replicate before x ++ l ++ replicate after y)
  | _, _ => if bool_decide (before = 0%nat ∧ after = 0%nat) then Ok l
            else Raise ValueError
  end.

Fixpoint mapM_result {A B} (f : A → result B) (l : list A) : result (list B) :=
  match l with
  | [] => Ok []
  | x :: l' => y ← f x; ys ← mapM_result f l'; Ok (y :: ys)
  end.

(** [np.pad(a, pad_width=((b0, a0), (b1, a1)), mode=m)] for the two
    modes a [BufferSpec] admits; the other modes of numpy are not
    modelled.  A negative width is a [ValueError]; for ["edge"] axis 0
    is extended first, so the corners repeat the corner element. *)
Definition np_pad (a : ndarray float) (pad_width : (Z * Z) * (Z * Z))
    (m : string) : result (ndarray float) :=
  let '((b0, a0), (b1, a1)) := pad_width in
  if (b0 <? 0) || (a0 <? 0) || (b1 <? 0) || (a1 <? 0) then Raise ValueError
  else
    let '(nb0, na0, nb1, na1) :=
      (Z.to_nat b0, Z.to_nat a0, Z.to_nat b1, Z.to_nat a1) in
    if bool_decide (m = "constant") then
      let w := (nb1 + ncols a + na1)%nat in
      Ok (mk_ndarray w
            (replicate nb0 (replicate w f_zero)
             ++ map (λ r, replicate nb1 f_zero ++ r ++ replicate na1 f_zero)
                    (rows a)
             ++ replicate na0 (replicate w f_zero)))
    else if bool_decide (m = "edge") then
      if bool_decide (ncols a = 0%nat ∧ ¬ (nb1 = 0%nat ∧ na1 = 0%nat))
      then Raise ValueError
      else
        rs ← pad_edge_list nb0 na0 (rows a);
        rs' ← mapM_result (pad_edge_list nb1 na1) rs;
        Ok (mk_ndarray (nb1 + ncols a + na1)%nat rs')
    else Raise ValueError.

(** [a.astype(np.float32)] on one element: rounding to nearest even. *)
Definition astype_float32 (v : float) : float :=
  match v with
  | S754_finite s m e => binary_round 24 128 s m e
  | _ => v
  end.

(** ** The binary codec, lines 189-199 *)

(** A byte is an integer below 256, a [float32] element its 32 bits. *)
Definition be32 (x : Z) : list Z :=
  [Z.land (Z.shiftr x 24) 255; Z.land (Z.shiftr x 16) 255;
   Z.land (Z.shiftr x 8) 255; Z.land x 255].

Definition le32 (x : Z) : list Z :=
  [Z.land x 255; Z.land (Z.shiftr x 8) 255;
   Z.land (Z.shiftr x 16) 255; Z.land (Z.shiftr x 24) 255].

(** [struct.pack(">II", h, w)]: an argument outside of [uint32] is a
    [struct.error]. *)
Definition struct_pack_II (h w : Z) : result (list Z) :=
  if (0 <=? h) && (h <? 2 ^ 32) && (0 <=? w) && (w <? 2 ^ 32)
  then Ok (be32 h ++ be32 w)
  else Raise StructError.

(** [struct.unpack(">II", b)]: [b] has to be eight bytes long. *)
Definition struct_unpack_II (b : list Z) : result (Z * Z) :=
  match b with
  | [h3; h2; h1; h0; w3; w2; w1; w0] =>
      Ok (Z.shiftl h3 24 + Z.shiftl h2 16 + Z.shiftl h1 8 + h0,
          Z.shiftl w3 24 + Z.shiftl w2 16 + Z.shiftl w1 8 + w0)
  | _ => Raise StructError
  end.

(** [array.tobytes()] of a [float32] array: the elements in row-major
    order, each in the byte order of the machine (little-endian). *)
Definition tobytes (a : ndarray Z) : list Z := concat (map le32 (ravel a)).

(** [np.frombuffer(b, dtype=np.float32, offset=k)]: the bytes after the
    offset, four by four. *)
Fixpoint words_le (b : list Z) : result (list Z) :=
  match b with
  | [] => Ok []
  | b0 :: b1 :: b2 :: b3 :: b' =>
      ws ← words_le b';
      Ok ((b0 + Z.shiftl b1 8 + Z.shiftl b2 16 + Z.shiftl b3 24) :: ws)
  | _ => Raise ValueError
  end.

Definition np_frombuffer (b : list Z) (offset : nat) : result (list Z) :=
  if bool_decide (length b < offset)%nat then Raise ValueError
  else words_le (drop offset b).

(** [array.shape = (h, w)] on an array of rank one: the number of
    elements has to be [h * w]. *)
Fixpoint chunks {A} (h w : nat) (l : list A) : list (list A) :=
  match h with
  | O => []
  | S h' => take w l :: chunks h' w (drop w l)
  end.

Definition set_shape {A} (l : list A) (hw : Z * Z) : result (ndarray A) :=
  let '(h, w) := hw in
  if (0 <=? h) && (0 <=? w) && (h * w =? Z.of_nat (length l))
  then Ok (mk_ndarray (Z.to_nat w) (chunks (Z.to_nat h) (Z.to_nat w) l))
  else Raise ValueError.

(** Base64 of RFC 4648, as [base64.b64encode] and [base64.b64decode]
    compute it. *)
Definition b64_alphabet : string :=
  "ABCDEFGHIJKLMNOPQRSTUVWXYZabcdefghijklmnopqrstuvwxyz0123456789+/".

Definition table_b2a (i : Z) : ascii :=
  match String.get (Z.to_nat i) b64_alphabet with
  | Some c => c
  | None => "="%char
  end.

Fixpoint index_from (c : ascii) (s : string) (i : Z) : Z :=
  match s with
  | EmptyString => 255
  | String c' s' => if Ascii.eqb c c' then i else index_from c s' (i + 1)
  end.

(** The value of a character of the alphabet, and 255 for the others. *)
Definition table_a2b (c : ascii) : Z := index_from c b64_alphabet 0.

(** [base64.b64encode(b).decode("utf-8")]: three bytes give four
    characters, and the last group is padded with ['=']. *)
Fixpoint b64encode (b : list Z) : string :=
  match b with
  | [] => EmptyString
  | [x] =>
      String (table_b2a (Z.shiftr x 2))
        (String (table_b2a (Z.shiftl (Z.land x 3) 4)) "==")
  | [x; y] =>
      String (table_b2a (Z.shiftr x 2))
        (String (table_b2a (Z.lor (Z.shiftl (Z.land x 3) 4) (Z.shiftr y 4)))
           (String (table_b2a (Z.shiftl (Z.land y 15) 2)) "="))
  | x :: y :: z :: b' =>
      String (table_b2a (Z.shiftr x 2))
        (String (table_b2a (Z.lor (Z.shiftl (Z.land x 3) 4) (Z.shiftr y 4)))
           (String (table_b2a (Z.lor (Z.shiftl (Z.land y 15) 2) (Z.shiftr z 6)))
              (String (table_b2a (Z.land z 63)) (b64encode b'))))
  end.

(** [base64.b64decode(s)], the loop of [binascii.a2b_base64] without
    [strict_mode]: a character outside of the alphabet is skipped, a
    complete padding ends the input, and an incomplete last group is a
    [binascii.Error].  The state is the position in the group of four,
    the bits left over, the count of pad characters and the output.
    The text is taken to be ASCII, as [b64encode] writes it. *)
Fixpoint a2b_loop (s : string) (quad_pos leftchar pads : Z) (out : list Z)
  : result (list Z) :=
  match s with
  | EmptyString => if quad_pos =? 0 then Ok out else Raise BinasciiError
  | String ch s' =>
      if Ascii.eqb ch "="%char then
        if (2 <=? quad_pos) && (4 <=? quad_pos + (pads + 1)) then Ok out
        else a2b_loop s' quad_pos leftchar
                      (if 2 <=? quad_pos then pads + 1 else pads) out
      else
        let this_ch := table_a2b ch in
        if 64 <=? this_ch then a2b_loop s' quad_pos leftchar pads out
        else if quad_pos =? 0 then a2b_loop s' 1 this_ch 0 out
        else if quad_pos =? 1 then
          a2b_loop s' 2 (Z.land this_ch 15) 0
            (out ++ [Z.land (Z.lor (Z.shiftl leftchar 2) (Z.shiftr this_ch 4)) 255])
        else if quad_pos =? 2 then
          a2b_loop s' 3 (Z.land this_ch 3) 0
            (out ++ [Z.land (Z.lor (Z.shiftl leftchar 4) (Z.shiftr this_ch 2)) 255])
        else
          a2b_loop s' 0 0 0
            (out ++ [Z.land (Z.lor (Z.shiftl leftchar 6) this_ch) 255])
  end.

Definition b64decode (s : string) : result (list Z) := a2b_loop s 0 0 0 [].

(** [len(array[0])]: the first row has to exist. *)
Definition len_first_row {A} (a : ndarray A) : result Z :=
  match rows a with
  | [] => Raise IndexError
  | _ :: _ => Ok (Z.of_nat (ncols a))
  end.

(** [_encode_array], lines 189-193. *)
Definition _encode_array (array : ndarray Z) : result string :=
  w ← len_first_row array;
  array_shape ← struct_pack_II (Z.of_nat (nrows array)) w;
  let serialized_array := array_shape ++ tobytes array in
  Ok (b64encode serialized_array).

(** [_decode_array], lines 195-199. *)
Definition _decode_array (encoded_array : string) : result (ndarray Z) :=
  serialized_array ← b64decode encoded_array;
  array ← np_frombuffer serialized_array 8;
  hw ← struct_unpack_II (take 8 serialized_array);
  set_shape array hw.

(** ** The store of objects *)

Abbreviation loc := nat.

(** A [Device] object: its two fields.  [device_dtype] is the [dtype]
    numpy keeps in the array object; [buffer_spec] refers to a shared
    [BufferSpec] object. *)
Record Device := mk_Device {
  device_array : ndarray float;
  device_dtype : dtype;
  buffer_spec : loc
}.

Section Store.
Context `{Backend}.

Record store := mk_store {
  specs : gmap loc BufferSpec;
  devices : gmap loc Device;
  rng : rng_state
}.

(** A method: it reads and writes the store and returns or raises. *)
Definition M (A : Type) : Type := store → result A * store.

Definition M_ret {A} (a : A) : M A := λ σ, (Ok a, σ).

Definition M_bind {A B} (x : M A) (f : A → M B) : M B := λ σ,
  match x σ with
  | (Ok a, σ') => f a σ'
  | (Raise e, σ') => (Raise e, σ')
  end.

Definition lift {A} (r : result A) : M A := λ σ, (r, σ).

Definition get_device (l : loc) : M Device := λ σ,
  (of_option NoSuchObject (devices σ !! l), σ).

Definition get_spec (l : loc) : M BufferSpec := λ σ,
  (of_option NoSuchObject (specs σ !! l), σ).

(** [self.device_array = a] *)
Definition set_device_array (l : loc) (a : ndarray float) (t : dtype)
  : M unit := λ σ,
  match devices σ !! l with
  | Some d =>
      (Ok tt,
       mk_store (specs σ)
                (<[l := mk_Device a t (buffer_spec d)]> (devices σ))
                (rng σ))
  | None => (Raise NoSuchObject, σ)
  end.

(** A new object takes a reference that is not in use. *)
Definition new_device (d : Device) : M loc := λ σ,
  let l := fresh (dom (devices σ)) in
  (Ok l, mk_store (specs σ) (<[l := d]> (devices σ)) (rng σ)).

Definition new_spec (bs : BufferSpec) : M loc := λ σ,
  let l := fresh (dom (specs σ)) in
  (Ok l, mk_store (<[l := bs]> (specs σ)) (devices σ) (rng σ)).

#[local] Instance M_mret : MRet M := @M_ret.
#[local] Instance M_mbind : MBind M := λ A B f x, M_bind x f.

(** ** [Device], lines 81-170 *)

(** [_initial_processing], lines 136-161: four paddings, each assigned
    to [self.device_array], then the cast to [float32]. *)
Definition _initial_processing (self : loc) : M unit :=
  d ← get_device self;
  bs ← get_spec (buffer_spec d);
  let buffer_thickness := thickness bs in
  let buffer_mode := mode bs in
  m ← lift (dict_get buffer_mode "top");
  a ← lift (np_pad (device_array d) ((buffer_thickness, 0), (0, 0)) m);
  _ ← set_device_array self a (device_dtype d);
  d ← get_device self;
  m ← lift (dict_get buffer_mode "bottom");
  a ← lift (np_pad (device_array d) ((0, buffer_thickness), (0, 0)) m);
  _ ← set_device_array self a (device_dtype d);
  d ← get_device self;
  m ← lift (dict_get buffer_mode "left");
  a ← lift (np_pad (device_array d) ((0, 0), (buffer_thickness, 0)) m);
  _ ← set_device_array self a (device_dtype d);
  d ← get_device self;
  m ← lift (dict_get buffer_mode "right");
  a ← lift (np_pad (device_array d) ((0, 0), (0, buffer_thickness)) m);
  _ ← set_device_array self a (device_dtype d);
  d ← get_device self;
  set_device_array self (amap astype_float32 (device_array d)) float32.

(** [Device.__init__], lines 92-134.  The rank of the array is two by
    its type, so [check_device_array] accepts it.
    [buffer_spec or BufferSpec()] makes a new object when none is
    given. *)
Definition Device_init (device_array : ndarray float) (t : dtype)
    (buffer_spec : option loc) : M loc :=
  bs ← match buffer_spec with
       | Some l => mret l
       | None => new_spec BufferSpec_default
       end;
  self ← new_device (mk_Device device_array t bs);
  _ ← _initial_processing self;
  mret self.

(** [to_ndarray], lines 384-411. *)
Definition to_ndarray (self : loc) : M (ndarray float) :=
  d ← get_device self;
  let device_array := device_array d in
  bs ← get_spec (buffer_spec d);
  let buffer_thickness := thickness bs in
  let buffer_mode := mode bs in
  m ← lift (dict_get buffer_mode "top");
  let crop_top := if bool_decide (m = "edge") then buffer_thickness else 0 in
  m ← lift (dict_get buffer_mode "bottom");
  let crop_bottom := if bool_decide (m = "edge") then buffer_thickness else 0 in
  m ← lift (dict_get buffer_mode "left");
  let crop_left := if bool_decide (m = "edge") then buffer_thickness else 0 in
  m ← lift (dict_get buffer_mode "right");
  let crop_right := if bool_decide (m = "edge") then buffer_thickness else 0 in
  mret (geometry.slice2 device_array
          crop_top (Z.of_nat (nrows device_array) - crop_bottom)
          crop_left (Z.of_nat (ncols device_array) - crop_right)).

(** ** [is_binary], lines 172-187 *)

(** The order of [np.sort] on the floats of one format: ascending, and
    the NaN last. *)
Definition sort_le (x y : float) : Prop :=
  is_nan y || (negb (is_nan x) && SFleb x y).

#[global] Instance sort_le_dec : RelDecision sort_le.
Proof. intros x y. unfold sort_le. apply _. Defined.

(** [np.sort]: numpy does not say in which order it leaves equal
    elements, the two zeros; they are left in the order of the input. *)
Definition np_sort (l : list float) : list float := merge_sort sort_le l.

(** The mask of [np.unique] on the sorted elements: an element is kept
    when it differs from the one before it, and of the NaN at the end
    the first one is kept. *)
Definition starts_run (prev y : float) : bool :=
  if is_nan y then negb (is_nan prev) else negb (SFeqb y prev).

Fixpoint unique_from (prev : float) (l : list float) : list float :=
  match l with
  | [] => []
  | y :: l' =>
      if starts_run prev y then y :: unique_from y l' else unique_from y l'
  end.

(** [np.unique(a)] *)
Definition np_unique (a : ndarray float) : list float :=
  match np_sort (ravel a) with
  | [] => []
  | x :: l => x :: unique_from x l
  end.

(** [np.array_equal(u, v)] on two arrays of rank one. *)
Definition values_equal (u v : list float) : bool :=
  bool_decide (length u = length v)
  && forallb (λ p, SFeqb p.1 p.2) (zip u v).

(** The integer [n] in the format [t].  The comparison of numpy between
    the array and the integers 0 and 1 is exact; it is made here in the
    format of the array, where equal values have one representation. *)
Definition float_in (t : dtype) (n : Z) : float :=
  binary_normalize (prec t) (emax t) n 0 false.

Definition array_is_binary (t : dtype) (a : ndarray float) : bool :=
  let unique_values := np_unique a in
  values_equal unique_values [float_in t 0; float_in t 1]
  || values_equal unique_values [float_in t 1; float_in t 0]
  || values_equal unique_values [float_in t 0]
  || values_equal unique_values [float_in t 1].

Definition is_binary (self : loc) : M bool :=
  d ← get_device self;
  mret (array_is_binary (device_dtype d) (device_array d)).

(** ** The transforms, lines 764-973 *)

(** [self.model_copy(update={"device_array": a})]: a new object with
    the new array and the fields of [self] otherwise (a shallow copy:
    the same [BufferSpec] object). *)
Definition model_copy (self : loc) (a : ndarray float) (t : dtype) : M loc :=
  d ← get_device self;
  new_device (mk_Device a t (buffer_spec d)).

Definition normalize (self : loc) : M loc :=
  d ← get_device self;
  normalized_device_array ←
    lift (geometry.normalize (device_dtype d) (device_array d));
  model_copy self normalized_device_array (device_dtype d).

(** The arithmetic of [geometry.binarize] is taken in the format of the
    array. *)
Definition binarize (self : loc) (eta beta : float) : M loc :=
  d ← get_device self;
  let binarized_device_array :=
    geometry.binarize (device_dtype d) (device_array d) eta beta in
  model_copy self binarized_device_array (device_dtype d).

Definition binarize_hard (self : loc) (eta : float) : M loc :=
  d ← get_device self;
  let binarized_device_array :=
    geometry.binarize_hard (device_dtype d) (device_array d) eta in
  model_copy self binarized_device_array float64.

Definition binarize_monte_carlo (self : loc)
    (threshold_noise_std threshold_blur_std : float) : M loc :=
  d ← get_device self;
  binarized_device_array ←
    (λ σ, let '(r, g) :=
            geometry.binarize_monte_carlo (device_dtype d)
              (device_array d) threshold_noise_std threshold_blur_std (rng σ)
          in (r, mk_store (specs σ) (devices σ) g));
  model_copy self binarized_device_array float64.

Definition ternarize (self : loc) (eta1 eta2 : float) : M loc :=
  d ← get_device self;
  let ternarized_device_array :=
    geometry.ternarize (device_dtype d) (device_array d) eta1 eta2 in
  model_copy self ternarized_device_array float64.

Definition trim (self : loc) : M loc :=
  d ← get_device self;
  bs ← get_spec (buffer_spec d);
  trimmed_device_array ←
    lift (geometry.trim (device_array d) (thickness bs));
  model_copy self trimmed_device_array (device_dtype d).

Definition blur (self : loc) (sigma : float) : M loc :=
  d ← get_device self;
  blurred_device_array ←
    lift (geometry.blur (device_dtype d) (device_array d) sigma);
  model_copy self blurred_device_array (device_dtype d).

Definition rotate (self : loc) (angle : float) : M loc :=
  d ← get_device self;
  rotated_device_array ← lift (geometry.rotate (device_array d) angle);
  model_copy self rotated_device_array (device_dtype d).

Definition erode (self : loc) (kernel_size : Z) : M loc :=
  d ← get_device self;
  eroded_device_array ← lift (geometry.erode (device_array d) kernel_size);
  model_copy self eroded_device_array (device_dtype d).

Definition dilate (self : loc) (kernel_size : Z) : M loc :=
  d ← get_device self;
  dilated_device_array ← lift (geometry.dilate (device_array d) kernel_size);
  model_copy self dilated_device_array (device_dtype d).

(** The ten transform methods with their arguments. *)
Inductive transform :=
  | Normalize
  | Binarize (eta beta : float)
  | BinarizeHard (eta : float)
  | BinarizeMonteCarlo (threshold_noise_std threshold_blur_std : float)
  | Ternarize (eta1 eta2 : float)
  | Trim
  | Blur (sigma : float)
  | Rotate (angle : float)
  | Erode (kernel_size : Z)
  | Dilate (kernel_size : Z).

Definition call (t : transform) (self : loc) : M loc :=
  match t with
  | Normalize => normalize self
  | Binarize eta beta => binarize self eta beta
  | BinarizeHard eta => binarize_hard self eta
  | BinarizeMonteCarlo n b => binarize_monte_carlo self n b
  | Ternarize eta1 eta2 => ternarize self eta1 eta2
  | Trim => trim self
  | Blur sigma => blur self sigma
  | Rotate angle => rotate self angle
  | Erode k => erode self k
  | Dilate k => dilate self k
  end.

(** ** The property [shape], lines 88-90 *)

Definition Device_shape (self : loc) : M (nat * nat) :=
  d ← get_device self;
  mret (shape (device_array d)).

(** ** Polygon extraction, lines 506-557 *)

(** A [gdstk.Cell]: its name and the polygons added to it. *)
Record Cell := mk_Cell {
  cell_name : string;
  cell_polygons : list Polygon
}.

Definition approx_mode_mapping : gmap Z Z :=
  <[1 := 1]> (<[2 := 2]> (<[3 := 3]> (<[4 := 4]> ∅))).

Definition RETR_TREE : Z := 3.

(** [l[i]] of numpy for an integer index: a negative index counts from
    the end. *)
Definition np_index {A} (l : list A) (i : Z) : result A :=
  let n := Z.of_nat (length l) in
  if (0 <=? i) && (i <? n) then of_option IndexError (l !! Z.to_nat i)
  else if (- n <=? i) && (i <? 0) then
    of_option IndexError (l !! Z.to_nat (n + i))
  else Raise IndexError.

(** [hierarchy[0][idx][3]]: [hierarchy] is [None] when OpenCV found no
    contour. *)
Definition parent_of (hierarchy : option (list hierarchy_row)) (idx : Z)
  : result Z :=
  match hierarchy with
  | None => Raise TypeError
  | Some h => row ← np_index h idx; Ok (snd row)
  end.

(** The [while] loop of lines 527-531.  A chain of parents that has not
    ended after [fuel] steps has met one contour twice and never ends:
    [contour_level] runs it with one step more than there are rows. *)
Fixpoint level_loop (fuel : nat) (hierarchy : option (list hierarchy_row))
    (level current_idx : Z) : result Z :=
  p ← parent_of hierarchy current_idx;
  if p =? -1 then Ok level
  else match fuel with
       | O => Raise NonTermination
       | S fuel' => level_loop fuel' hierarchy (level + 1) p
       end.

Definition contour_level (hierarchy : option (list hierarchy_row)) (idx : Z)
  : result Z :=
  level_loop (S (length (default [] hierarchy))) hierarchy 0 idx.

(** [contour / 1000] and the list of tuples made from it. *)
Definition scale_contour (c : contour) : list (float * float) :=
  map (λ p, (float_ratio (fst p) 1000, float_ratio (snd p) 1000)) c.

(** The first loop, lines 526-538, from the contour at index [idx] on:
    the level of every contour is computed, and a contour with more
    than two points is appended to the list of its level. *)
Fixpoint collect_polygons (hierarchy : option (list hierarchy_row))
    (idx : Z) (contours : list contour)
    (hierarchy_polygons : gmap Z (list (list (float * float))))
  : result (gmap Z (list (list (float * float)))) :=
  match contours with
  | [] => Ok hierarchy_polygons
  | contour :: contours' =>
      level ← contour_level hierarchy idx;
      let hierarchy_polygons :=
        if bool_decide (2 < length contour)%nat then
          let points := scale_contour contour in
          let hierarchy_polygons :=
            match hierarchy_polygons !! level with
            | None => <[level := []]> hierarchy_polygons
            | Some _ => hierarchy_polygons
            end in
          <[level := default [] (hierarchy_polygons !! level) ++ [points]]>
            hierarchy_polygons
        else hierarchy_polygons in
      collect_polygons hierarchy (idx + 1) contours' hierarchy_polygons
  end.

(** [sorted(d.keys())] *)
Definition sorted_keys {V} (d : gmap Z V) : list Z :=
  merge_sort Z.le (map fst (map_to_list d)).

(** The second loop, lines 542-553. *)
Fixpoint combine_levels (gds_layer : Z * Z)
    (hierarchy_polygons : gmap Z (list (list (float * float))))
    (levels : list Z) (processed_polygons : list Polygon)
  : result (list Polygon) :=
  match levels with
  | [] => Ok processed_polygons
  | level :: levels' =>
      let operation := if level `mod` 2 =? 0 then "or" else "xor" in
      polygons_to_process ← of_option KeyError (hierarchy_polygons !! level);
      processed_polygons ←
        match polygons_to_process with
        | [] => Ok processed_polygons
        | _ :: _ =>
            gdstk_boolean polygons_to_process processed_polygons operation
                          (fst gds_layer) (snd gds_layer)
        end;
      combine_levels gds_layer hierarchy_polygons levels' processed_polygons
  end.

(** Lines 525-557 on the contours and the hierarchy OpenCV returned. *)
Definition polygons_of_contours (contours : list contour)
    (hierarchy : option (list hierarchy_row)) (gds_layer : Z * Z)
  : result (list Polygon) :=
  hierarchy_polygons ← collect_polygons hierarchy 0 contours ∅;
  combine_levels gds_layer hierarchy_polygons
                 (sorted_keys hierarchy_polygons) [].

(** [np.flipud(a).astype(np.uint8)] *)
Definition flipud {A} (a : ndarray A) : ndarray A :=
  mk_ndarray (ncols a) (reverse (rows a)).

(** [_device_to_gdstk], lines 506-557. *)
Definition _device_to_gdstk (self : loc) (cell_name : string)
    (gds_layer : Z * Z) (contour_approx_mode : Z) : M Cell :=
  a ← to_ndarray self;
  let image := amap astype_uint8 (flipud a) in
  method ← lift (of_option KeyError (approx_mode_mapping !! contour_approx_mode));
  '(contours, hierarchy) ← lift (cv2_findContours image RETR_TREE method);
  processed_polygons ← lift (polygons_of_contours contours hierarchy gds_layer);
  mret (mk_Cell cell_name processed_polygons).

(** [to_gdstk], lines 469-504. *)
Definition to_gdstk (self : loc) (cell_name : string) (gds_layer : Z * Z)
    (contour_approx_mode : Z) : M Cell :=
  _device_to_gdstk self cell_name gds_layer contour_approx_mode.

End Store.

End device.

Import device.

(** * Specifications *)

(** ** [trim] *)

(** The element at [(i, j)] exists and is not zero. *)
Definition nonzero_at (R : ndarray float) (i j : nat) : Prop :=
  ∃ v, get R i j = Some v ∧ is_nonzero v = true.

(** The rows [r0..r1] and the columns [c0..c1] are the bounding box of
    the nonzero elements: every nonzero element lies inside, and each
    of the four bounds is met by one. *)
Definition bounding_box (R : ndarray float) (r0 r1 c0 c1 : Z) : Prop :=
  (∀ i j, nonzero_at R i j →
     r0 ≤ Z.of_nat i ≤ r1 ∧ c0 ≤ Z.of_nat j ≤ c1) ∧
  (∃ i j, nonzero_at R i j ∧ Z.of_nat i = r0) ∧
  (∃ i j, nonzero_at R i j ∧ Z.of_nat i = r1) ∧
  (∃ i j, nonzero_at R i j ∧ Z.of_nat j = c0) ∧
  (∃ i j, nonzero_at R i j ∧ Z.of_nat j = c1).

(** [W] is the subarray of [R] with the rows [lo_r..hi_r-1] and the
    columns [lo_c..hi_c-1]. *)
Definition is_window (R : ndarray float) (lo_r hi_r lo_c hi_c : Z)
    (W : ndarray float) : Prop :=
  0 ≤ lo_r ≤ hi_r ∧ hi_r ≤ Z.of_nat (nrows R) ∧
  0 ≤ lo_c ≤ hi_c ∧ hi_c ≤ Z.of_nat (ncols R) ∧
  wf_ndarray W ∧
  shape W = (Z.to_nat (hi_r - lo_r), Z.to_nat (hi_c - lo_c)) ∧
  ∀ i j, (Z.of_nat i < hi_r - lo_r) → (Z.of_nat j < hi_c - lo_c) →
    get W i j = get R (Z.to_nat lo_r + i) (Z.to_nat lo_c + j).

(** Every element of the array is zero. *)
Definition all_zero (R : ndarray float) : bool :=
  forallb (λ r, forallb (λ v, negb (is_nonzero v)) r) (rows R).

(** ** The buffer *)

(** What [to_ndarray] keeps of the padding of a side with the mode [m]. *)
Definition kept_padding (bs : BufferSpec) (m : string) : nat :=
  if bool_decide (m = "constant") then Z.to_nat (thickness bs) else 0%nat.

(** ** The transforms *)

Section TransformSpec.
Context `{Backend}.

(** The array function behind each transform method, on the array of
    the device [d], the [BufferSpec] [bs] of [d] and the state [g] of
    the random generator. *)
Definition array_of (tr : transform) (d : Device) (bs : BufferSpec)
    (g : rng_state) : result (ndarray float) :=
  match tr with
  | Normalize => geometry.normalize (device_dtype d) (device_array d)
  | Binarize eta beta =>
      Ok (geometry.binarize (device_dtype d) (device_array d) eta beta)
  | BinarizeHard eta =>
      Ok (geometry.binarize_hard (device_dtype d) (device_array d) eta)
  | BinarizeMonteCarlo n b =>
      (geometry.binarize_monte_carlo (device_dtype d) (device_array d) n b g).1
  | Ternarize eta1 eta2 =>
      Ok (geometry.ternarize (device_dtype d) (device_array d) eta1 eta2)
  | Trim => geometry.trim (device_array d) (thickness bs)
  | Blur sigma => geometry.blur (device_dtype d) (device_array d) sigma
  | Rotate angle => geometry.rotate (device_array d) angle
  | Erode k => geometry.erode (device_array d) k
  | Dilate k => geometry.dilate (device_array d) k
  end.

End TransformSpec.

(** ** Polygon extraction *)

(** The contours of at least three points, each with its depth. *)
Definition kept_contours (cs : list (contour * Z)) : list (contour * Z) :=
  filter (λ cl, (3 ≤ length cl.1)%nat) cs.

(** The polygons of the depth [d]: the kept contours of that depth, in
    the order of OpenCV, scaled. *)
Definition polygons_at_depth (cs : list (contour * Z)) (d : Z)
  : list (list (float * float)) :=
  (λ cl, scale_contour cl.1) <$> filter (λ cl, cl.2 = d) (kept_contours cs).

(** Union at an even depth, symmetric difference at an odd depth. *)
Definition operation_at_depth (d : Z) : string :=
  if Z.even d then "or" else "xor".

Section PolygonSpec.
Context `{Backend}.

(** The depths in the given order, each combined with the result so
    far. *)
Fixpoint combine_by_depth (gds_layer : Z * Z) (cs : list (contour * Z))
    (depths : list Z) (acc : list Polygon) : result (list Polygon) :=
  match depths with
  | [] => Ok acc
  | d :: depths' =>
      acc' ← gdstk_boolean (polygons_at_depth cs d) acc (operation_at_depth d)
                           gds_layer.1 gds_layer.2;
      combine_by_depth gds_layer cs depths' acc'
  end.

End PolygonSpec.

(** ** The codec *)

(** A byte, and the 32 bits of a [float32] element. *)
Definition is_byte (x : Z) : Prop := 0 ≤ x < 256.
Definition is_word32 (x : Z) : Prop := 0 ≤ x < 2 ^ 32.

(** The four sextets of a group of three bytes. *)
Definition sextet1 (x : Z) : Z := Z.shiftr x 2.
Definition sextet2 (x y : Z) : Z := Z.lor (Z.shiftl (Z.land x 3) 4) (Z.shiftr y 4).
Definition sextet3 (y z : Z) : Z := Z.lor (Z.shiftl (Z.land y 15) 2) (Z.shiftr z 6).
Definition sextet4 (z : Z) : Z := Z.land z 63.

(** ** [is_binary] *)

(** Two values [np.unique] does not tell apart: two NaN, or two values
    that are [==]. *)
Definition same_value (x y : float) : Prop :=
  (is_nan x = true ∧ is_nan y = true) ∨ SFeqb x y = true.

(** [v] is a zero of either sign, or [one]. *)
Definition zero_or (one v : float) : Prop :=
  (∃ s, v = S754_zero s) ∨ v = one.

(** [v == 0 or v == 1] in the format [t]. *)
Definition zero_or_one (t : dtype) (v : float) : Prop :=
  SFeqb v (float_in t 0) = true ∨ SFeqb v (float_in t 1) = true.

(** [a] is an array of the format [t]: every element is a value of
    that format, in its one representation. *)
Definition has_dtype (t : dtype) (a : ndarray float) : Prop :=
  Forall (λ v, valid_binary (prec t) (emax t) v = true) (ravel a).

(** ** The content of the buffer *)

(** What [np.pad] writes next to an element [x], and next to a row [r]
    of an array [w] columns wide: zeros in the mode ["constant"], the
    element or the row itself in the mode ["edge"]. *)
Definition fill_value (m : string) (x : option float) : float :=
  if bool_decide (m = "constant") then f_zero else default f_zero x.

Definition fill_row (m : string) (w : nat) (r : option (list float))
  : list float :=
  if bool_decide (m = "constant") then replicate w f_zero else default [] r.

(** [a] with [kt], [kb], [kl] and [kr] rows and columns of zeros added
    at the top, the bottom, the left and the right. *)
Definition zero_padded (kt kb kl kr : nat) (a : ndarray float)
  : ndarray float :=
  let w := (kl + ncols a + kr)%nat in
  mk_ndarray w
    (replicate kt (replicate w f_zero)
     ++ map (λ r, replicate kl f_zero ++ r ++ replicate kr f_zero) (rows a)
     ++ replicate kb (replicate w f_zero)).

(** ** The depth of a contour *)

(** The depth of a row of the hierarchy: 0 for a row without parent,
    and one more than the depth of the row of its parent otherwise. *)
Inductive depth (h : list hierarchy_row) : hierarchy_row → Z → Prop :=
  | depth_top row : row.2 = -1 → depth h row 0
  | depth_child row row' l :
      row.2 ≠ -1 → np_index h row.2 = Ok row' → depth h row' l →
      depth h row (l + 1).

(** The contour at the index [idx] has the nesting depth [lvl] in the
    hierarchy OpenCV returned. *)
Definition has_depth (hierarchy : option (list hierarchy_row)) (idx lvl : Z)
  : Prop :=
  ∃ h row, hierarchy = Some h ∧ np_index h idx = Ok row ∧ depth h row lvl.

(** * Sample inputs *)

(** The raster [[2.0]] and the threshold [1.5]. *)
Definition raster_two : ndarray float := mk_ndarray 1 [[float_of_Z 2]].
Definition eta_three_halves : float := float_ratio 3 2.

(** The [float32] raster [[0.25, 0.5, 0.75, 2.0]]. *)
Definition quarters32 : ndarray float :=
  amap (astype float32)
    (mk_ndarray 4 [[float_ratio 1 4; f_half; float_ratio 3 4; float_of_Z 2]]).

(** The [float32] raster [[0.7]]: its element is the [float32] value
    next to [0.7], which is [11744051 / 2^24], below [0.7]. *)
Definition seven_tenths32 : ndarray float :=
  mk_ndarray 1 [[astype float32 (float_ratio 7 10)]].

(** A raster of ten rows and ten columns whose only nonzero element is
    the one at [(5, 5)]. *)
Definition single_pixel : ndarray float :=
  mk_ndarray 10
    (replicate 5 (replicate 10 f_zero)
     ++ [replicate 5 f_zero ++ [f_one] ++ replicate 4 f_zero]
     ++ replicate 4 (replicate 10 f_zero)).

(** [np.zeros((h, w))] *)
Definition zeros (h w : nat) : ndarray float :=
  mk_ndarray w (replicate h (replicate w f_zero)).

(** The raster of two rows and two columns filled with [0.5]. *)
Definition flat_half : ndarray float :=
  mk_ndarray 2 [[f_half; f_half]; [f_half; f_half]].

(** A raster without rows, of three columns. *)
Definition empty_raster : ndarray float := mk_ndarray 3 [].

(** A [float32] raster of [2^32] rows and one column. *)
Definition huge_raster : ndarray Z :=
  mk_ndarray 1 (replicate (Z.to_nat (2 ^ 32)) [0]).

(** The bits of the [float32] raster [[0.0, 1.0], [-0.5, nan]]. *)
Definition sample_bits : ndarray Z :=
  mk_ndarray 2 [[0; 1065353216]; [3204448256; 2143289344]].

(** A stand-in for the libraries, to run the embedding on concrete
    inputs: the kernels of OpenCV return their input, no contour is
    found, and the boolean operation of gdstk lists the polygons it was
    given, each with the operation that added it. *)
Definition traced_polygon : Type := (list (float * float) * string)%type.

Definition stub_backend : Backend := {|
  rng_state := unit;
  np_tanh := λ x, x;
  np_random_normal := λ loc _ g, (loc, g);
  np_random_normal_array := λ loc _ sh g,
    (mk_ndarray sh.2 (replicate sh.1 (replicate sh.2 loc)), g);
  cv2_GaussianBlur := λ a _, Ok a;
  rotation_matrix := unit;
  cv2_getRotationMatrix2D := λ _ _ _, tt;
  cv2_warpAffine := λ a _ _, Ok a;
  cv2_erode := λ a _, Ok a;
  cv2_dilate := λ a _, Ok a;
  astype_uint8 := λ v, if is_nonzero v then 1 else 0;
  cv2_findContours := λ _ _ _, Ok ([], None);
  Polygon := traced_polygon;
  gdstk_boolean := λ ps qs op _ _, Ok (map (λ p, (p, op)) ps ++ qs)
|}.

(** A [BufferSpec] with the mode ["edge"] on the four sides and the
    thickness 1, and a store that holds it. *)
Definition edge_mode : gmap string string :=
  <["top" := "edge"]> (<["bottom" := "edge"]>
  (<["left" := "edge"]> (<["right" := "edge"]> ∅))).
Definition edge_spec : BufferSpec := mk_BufferSpec edge_mode 1.
Definition edge_store : @store stub_backend :=
  @mk_store stub_backend (<[0%nat := edge_spec]> ∅) ∅ tt.

(** A store without objects. *)
Definition empty_store : @store stub_backend :=
  @mk_store stub_backend ∅ ∅ tt.

(** A store with the device of a raster of zeros, padded by a constant
    buffer of thickness 1. *)
Definition zero_store : @store stub_backend :=
  @mk_store stub_backend
    (<[0%nat := mk_BufferSpec default_mode 1]> ∅)
    (<[0%nat := mk_Device (zeros 3 3) float32 0%nat]> ∅) tt.

(** Four contours: two squares side by side, a square hole in the
    second one, and a segment of two points in the hole.  The depths
    are 0, 0, 1 and 2. *)
Definition forest_contours : list contour :=
  [[(0, 0); (0, 9); (9, 9); (9, 0)];
   [(10, 0); (10, 9); (19, 9); (19, 0)];
   [(13, 3); (16, 3); (16, 6); (13, 6)];
   [(14, 4); (15, 5)]].

Definition forest_hierarchy : option (list hierarchy_row) :=
  Some [(1, -1, -1, -1); (-1, 0, 2, -1); (-1, -1, 3, 1); (-1, -1, -1, 2)].

(** A [BufferSpec] that names the top side only, and a store that holds
    it. *)
Definition top_only_spec : BufferSpec :=
  mk_BufferSpec (<["top" := "edge"]> ∅) 1.
Definition top_only_store : @store stub_backend :=
  @mk_store stub_backend (<[0%nat := top_only_spec]> ∅) ∅ tt.

(** The encoded form of the [float32] raster [[1.0]], and the bits of
    that raster. *)
Definition one_text : string := "AAAAAQAAAAEAAIA/".
Definition one_bits : ndarray Z := mk_ndarray 1 [[1065353216]].

(** A raster of zeros and ones. *)
Definition checker : ndarray float :=
  mk_ndarray 2 [[f_zero; f_one]; [f_one; f_zero]].

(** * The order of the floats *)

Section FloatOrder.

Lemma compare_cont_Eq (m1 m2 : positive) :
  Pos.compare_cont Eq m1 m2 = Pos.compare m1 m2.
Proof. reflexivity. Qed.

Ltac order_cases :=
  repeat match goal with
    | H : context [Z.compare ?a ?b] |- _ =>
        destruct (Z.compare_spec a b); simpl in H
    | H : context [Pos.compare ?a ?b] |- _ =>
        destruct (Pos.compare_spec a b); simpl in H
    | |- context [Z.compare ?a ?b] => destruct (Z.compare_spec a b); simpl
    | |- context [Pos.compare ?a ?b] => destruct (Pos.compare_spec a b); simpl
    end;
  try discriminate; try reflexivity; try lia.

Ltac by_float_cases x :=
  destruct x as [[] | [] | | [] ? ?]; simpl in *;
  rewrite ?compare_cont_Eq in *; try discriminate; try reflexivity.

(** Exchanging the operands of a comparison reverses its result. *)
Lemma SFcompare_swap (a b : float) (c : comparison) :
  SFcompare a b = Some c → SFcompare b a = Some (CompOpp c).
Proof.
  intros Hab. by_float_cases a; by_float_cases b;
    injection Hab as <-; try reflexivity; f_equal; order_cases.
Qed.

(** [a <= b] excludes [b < a]. *)
Lemma SFleb_not_gt (a b : float) : SFleb a b = true → SFltb b a = false.
Proof.
  unfold SFleb, SFltb. destruct (SFcompare a b) as [c|] eqn:Hc; [|done].
  rewrite (SFcompare_swap _ _ _ Hc). by destruct c.
Qed.

(** [a < b <= c] excludes [c < a]. *)
Lemma SFltb_leb_not_gt (a b c : float) :
  SFltb a b = true → SFleb b c = true → SFltb c a = false.
Proof.
  unfold SFltb, SFleb. intros Hab Hbc.
  by_float_cases a; by_float_cases b; by_float_cases c; order_cases.
Qed.

(** [a < b <= c] excludes [c <= a]. *)
Lemma SFltb_leb_not_ge (a b c : float) :
  SFltb a b = true → SFleb b c = true → SFleb c a = false.
Proof.
  unfold SFltb, SFleb. intros Hab Hbc.
  by_float_cases a; by_float_cases b; by_float_cases c; order_cases.
Qed.

End FloatOrder.

(** * Arrays: elementwise application *)

Lemma get_amap {A B} (f : A → B) (a : ndarray A) (i j : nat) :
  get (amap f a) i j = f <$> get a i j.
Proof.
  unfold get, amap. simpl. rewrite list_lookup_fmap.
  destruct (rows a !! i) as [r|]; simpl; [|done].
  by rewrite list_lookup_fmap.
Qed.

Lemma shape_amap {A B} (f : A → B) (a : ndarray A) :
  shape (amap f a) = shape a.
Proof. unfold shape, nrows, amap. simpl. by rewrite length_map. Qed.

Lemma amap_amap {A B C} (f : A → B) (g : B → C) (a : ndarray A) :
  amap g (amap f a) = amap (g ∘ f) a.
Proof.
  unfold amap. simpl. f_equal. rewrite map_map.
  apply map_ext. intros r. by rewrite map_map.
Qed.

Lemma amap_ext {A B} (f g : A → B) (a : ndarray A) :
  (∀ x, f x = g x) → amap f a = amap g a.
Proof.
  intros Hfg. unfold amap. f_equal.
  apply map_ext. intros r. by apply map_ext.
Qed.

(** * Thresholds: [binarize_hard] and [ternarize] *)

(** C4, as stated, fails: on the raster [[2.0]] with the threshold 1.5
    the first pass gives [[1.0]] and the second pass gives [[0.0]],
    because [1.0 < 1.5]. *)
Lemma binarize_hard_twice_differs :
  geometry.binarize_hard float64
    (geometry.binarize_hard float64 raster_two eta_three_halves)
    eta_three_halves
    ≠ geometry.binarize_hard float64 raster_two eta_three_halves
  ∧ array_equal
      (geometry.binarize_hard float64
         (geometry.binarize_hard float64 raster_two eta_three_halves)
         eta_three_halves)
      (geometry.binarize_hard float64 raster_two eta_three_halves) = false.
Proof. split; [intros Heq; vm_compute in Heq; discriminate | reflexivity]. Qed.

(** C4, amended: for every raster, of any format [t], and every
    threshold [eta] with [0 < eta <= 1], [binarize_hard] is idempotent:
    [binarize_hard(binarize_hard(R, eta), eta) == binarize_hard(R, eta)].
    The first pass returns a [float64] array, which the second pass
    compares with [eta] itself. *)
Theorem binarize_hard_idempotent (t : dtype) (R : ndarray float)
    (eta : float) :
  SFltb f_zero eta = true →
  SFleb eta f_one = true →
  geometry.binarize_hard float64 (geometry.binarize_hard t R eta) eta
    = geometry.binarize_hard t R eta.
Proof.
  intros Hpos Hone. apply SFleb_not_gt in Hone.
  unfold geometry.binarize_hard. rewrite amap_amap.
  apply amap_ext. intros v. simpl.
  change (python_float float64 eta) with eta.
  destruct (SFltb v (python_float t eta)); by rewrite ?Hpos, ?Hone.
Qed.

Lemma binarize_hard_idempotent_witness :
  SFltb f_zero f_half = true ∧ SFleb f_half f_one = true ∧
  geometry.binarize_hard float64
    (geometry.binarize_hard float32 quarters32 f_half) f_half
    = geometry.binarize_hard float32 quarters32 f_half.
Proof.
  split; [reflexivity|]. split; [reflexivity|].
  apply binarize_hard_idempotent; reflexivity.
Defined.

(** C5, as stated, fails on a [float32] raster: numpy compares an
    element with the threshold rounded to the format of the raster.
    With [eta1 = 0.7] the element [11744051 / 2^24] of the [float32]
    raster [[0.7]] is below [eta1], which is
    [6305039478318694 / 2^53], and it is not mapped to [0]: it is not
    below [eta1] rounded to [float32], which is the element itself. *)
Lemma ternarize_rounds_threshold :
  has_dtype float32 seven_tenths32 ∧
  get seven_tenths32 0 0 = Some (S754_finite false 11744051 (-24)) ∧
  float_ratio 7 10 = S754_finite false 6305039478318694 (-53) ∧
  11744051 * 2 ^ (-24 - -53) < 6305039478318694 ∧
  SFltb (float_ratio 7 10) (float_ratio 9 10) = true ∧
  python_float float32 (float_ratio 7 10) = S754_finite false 11744051 (-24) ∧
  get (geometry.ternarize float32 seven_tenths32
         (float_ratio 7 10) (float_ratio 9 10)) 0 0 = Some f_half.
Proof.
  split; [unfold has_dtype, ravel; simpl; repeat constructor|].
  repeat split; vm_compute; reflexivity.
Qed.

(** C5, amended: for every raster, an array of any format [t], and all
    thresholds [eta1] and [eta2] that are in order when taken in the
    format of the raster ([eta1' <= eta2'], where [eta'] is [eta]
    rounded to that format, and [eta] itself on a [float64] raster),
    [ternarize] keeps the shape and maps each element [v] to [0] if
    [v < eta1'], to [1] if [v >= eta2'] and to [0.5] otherwise; so
    every element of the output is one of [0], [0.5], [1]. *)
Theorem ternarize_three_levels (t : dtype) (R : ndarray float)
    (eta1 eta2 : float) :
  has_dtype t R →
  SFleb (python_float t eta1) (python_float t eta2) = true →
  shape (geometry.ternarize t R eta1 eta2) = shape R ∧
  (∀ i j, get R i j = None →
     get (geometry.ternarize t R eta1 eta2) i j = None) ∧
  ∀ i j v, get R i j = Some v →
    ∃ o, get (geometry.ternarize t R eta1 eta2) i j = Some o ∧
      (SFltb v (python_float t eta1) = true → o = f_zero) ∧
      (SFleb (python_float t eta2) v = true → o = f_one) ∧
      (SFltb v (python_float t eta1) = false →
       SFleb (python_float t eta2) v = false → o = f_half) ∧
      (o = f_zero ∨ o = f_half ∨ o = f_one).
Proof.
  intros _ Hle. unfold geometry.ternarize. split; [apply shape_amap|].
  split.
  - intros i j Hget. by rewrite get_amap, Hget.
  - intros i j v Hget. rewrite get_amap, Hget. simpl. eexists. split; [done|].
    destruct (SFltb v (python_float t eta1)) eqn:H1.
    + repeat split; try done; [|by left].
      intros H2. by rewrite (SFltb_leb_not_ge _ _ _ H1 Hle) in H2.
    + destruct (SFleb (python_float t eta2) v) eqn:H2;
        repeat split; try done; auto.
Qed.

Lemma ternarize_three_levels_witness :
  has_dtype float32 quarters32 ∧
  SFleb (python_float float32 (float_ratio 1 3))
        (python_float float32 (float_ratio 2 3)) = true ∧
  shape (geometry.ternarize float32 quarters32 (float_ratio 1 3)
           (float_ratio 2 3)) = shape quarters32 ∧
  geometry.ternarize float32 quarters32 (float_ratio 1 3) (float_ratio 2 3)
    = mk_ndarray 4 [[f_zero; f_half; f_one; f_one]].
Proof.
  assert (Hd : has_dtype float32 quarters32).
  { unfold has_dtype, ravel. simpl. repeat constructor. }
  split; [exact Hd|].
  split; [reflexivity|]. split; [|vm_compute; reflexivity].
  apply (ternarize_three_levels float32 quarters32 (float_ratio 1 3)
           (float_ratio 2 3) Hd).
  reflexivity.
Defined.

(** * [trim]: the bounding box of the nonzero elements *)

Section Trim.

Lemma elem_of_nonzero_from (r : list float) : ∀ (j x : nat),
  x ∈ geometry.nonzero_from j r ↔
  ∃ k v, x = (j + k)%nat ∧ r !! k = Some v ∧ is_nonzero v = true.
Proof.
  induction r as [|v r IH]; intros j x; simpl.
  - split; [by intros ?%elem_of_nil | by intros (k & w & _ & ? & _)].
  - destruct (is_nonzero v) eqn:Hv.
    + rewrite elem_of_cons, IH. split.
      * intros [-> | (k & w & -> & Hk & Hw)].
        -- exists 0%nat, v. split; [lia | done].
        -- exists (S k), w. split; [lia | done].
      * intros (k & w & -> & Hk & Hw). destruct k as [|k]; simpl in Hk.
        -- left. lia.
        -- right. exists k, w. split; [lia | done].
    + rewrite IH. split.
      * intros (k & w & -> & Hk & Hw). exists (S k), w. split; [lia | done].
      * intros (k & w & -> & Hk & Hw). destruct k as [|k]; simpl in Hk.
        -- congruence.
        -- exists k, w. split; [lia | done].
Qed.

Lemma elem_of_nonzero_rows_from (rs : list (list float)) : ∀ (i : nat) p,
  p ∈ geometry.nonzero_rows_from i rs ↔
  ∃ k r v, p.1 = (i + k)%nat ∧ rs !! k = Some r ∧
           r !! p.2 = Some v ∧ is_nonzero v = true.
Proof.
  induction rs as [|r rs IH]; intros i [pi pj]; simpl.
  - split; [by intros ?%elem_of_nil | by intros (k & ? & ? & _ & ? & _)].
  - rewrite elem_of_app, IH, list_elem_of_fmap. split.
    + intros [(j & [= -> ->] & Hj) | (k & r' & v & Hi & Hk & Hv)].
      * apply elem_of_nonzero_from in Hj as (k & v & -> & Hk & Hv).
        exists 0%nat, r, v. simpl. split; [lia | done].
      * exists (S k), r', v. simpl in *. split; [lia | done].
    + intros (k & r' & v & Hi & Hk & Hj & Hv). simpl in *.
      destruct k as [|k]; simpl in Hk.
      * left. injection Hk as <-. exists pj. split; [f_equal; lia|].
        apply elem_of_nonzero_from. exists pj, v. done.
      * right. exists k, r', v. simpl. split; [lia | done].
Qed.

(** The indices [np.nonzero] returns are those of the nonzero
    elements. *)
Lemma elem_of_nonzero (R : ndarray float) (i j : nat) :
  (i, j) ∈ geometry.nonzero_rows_from 0 (rows R) ↔ nonzero_at R i j.
Proof.
  rewrite elem_of_nonzero_rows_from. unfold nonzero_at, get. simpl. split.
  - intros (k & r & v & -> & Hk & Hj & Hv). exists v. by rewrite Hk.
  - intros (v & Hget & Hv).
    destruct (rows R !! i) as [r|] eqn:Hr; simpl in Hget; [|done].
    by exists i, r, v.
Qed.

Lemma fold_min_spec (xs : list Z) : ∀ x,
  (fold_left Z.min xs x = x ∨ fold_left Z.min xs x ∈ xs) ∧
  fold_left Z.min xs x ≤ x ∧ ∀ y, y ∈ xs → fold_left Z.min xs x ≤ y.
Proof.
  induction xs as [|y xs IH]; intros x; simpl.
  - split; [by left|]. split; [lia|]. by intros ? ?%elem_of_nil.
  - destruct (IH (Z.min x y)) as (Hin & Hle & Hall). split; [|split].
    + destruct Hin as [Heq | Hin]; [|right; by right].
      rewrite Heq. destruct (Z.min_spec x y) as [[_ ->] | [_ ->]];
        [by left | right; by left].
    + lia.
    + intros z [-> | Hz]%elem_of_cons; [lia | by apply Hall].
Qed.

Lemma fold_max_spec (xs : list Z) : ∀ x,
  (fold_left Z.max xs x = x ∨ fold_left Z.max xs x ∈ xs) ∧
  x ≤ fold_left Z.max xs x ∧ ∀ y, y ∈ xs → y ≤ fold_left Z.max xs x.
Proof.
  induction xs as [|y xs IH]; intros x; simpl.
  - split; [by left|]. split; [lia|]. by intros ? ?%elem_of_nil.
  - destruct (IH (Z.max x y)) as (Hin & Hle & Hall). split; [|split].
    + destruct Hin as [Heq | Hin]; [|right; by right].
      rewrite Heq. destruct (Z.max_spec x y) as [[_ ->] | [_ ->]];
        [right; by left | by left].
    + lia.
    + intros z [-> | Hz]%elem_of_cons; [lia | by apply Hall].
Qed.

Lemma int_min_spec (l : list Z) :
  l ≠ [] →
  ∃ m, geometry.int_min l = Ok m ∧ m ∈ l ∧ ∀ x, x ∈ l → m ≤ x.
Proof.
  destruct l as [|x xs]; [done|]. intros _. simpl.
  destruct (fold_min_spec xs x) as (Hin & Hle & Hall).
  eexists. split; [done|]. split.
  - destruct Hin as [-> | Hin]; [by left | by right].
  - intros y [-> | Hy]%elem_of_cons; [done | by apply Hall].
Qed.

Lemma int_max_spec (l : list Z) :
  l ≠ [] →
  ∃ m, geometry.int_max l = Ok m ∧ m ∈ l ∧ ∀ x, x ∈ l → x ≤ m.
Proof.
  destruct l as [|x xs]; [done|]. intros _. simpl.
  destruct (fold_max_spec xs x) as (Hin & Hle & Hall).
  eexists. split; [done|]. split.
  - destruct Hin as [-> | Hin]; [by left | by right].
  - intros y [-> | Hy]%elem_of_cons; [done | by apply Hall].
Qed.

Lemma slice_index_id (n i : Z) : 0 ≤ i ≤ n → geometry.slice_index n i = i.
Proof.
  intros Hi. unfold geometry.slice_index.
  destruct (Z.ltb_spec i 0); lia.
Qed.

Lemma py_slice_in_range {A} (l : list A) (lo hi : Z) :
  0 ≤ lo ≤ hi → hi ≤ Z.of_nat (length l) →
  geometry.py_slice l lo hi = take (Z.to_nat (hi - lo)) (drop (Z.to_nat lo) l).
Proof.
  intros Hlo Hhi. unfold geometry.py_slice.
  by rewrite !slice_index_id by lia.
Qed.

Lemma length_py_slice {A} (l : list A) (lo hi : Z) :
  0 ≤ lo ≤ hi → hi ≤ Z.of_nat (length l) →
  length (geometry.py_slice l lo hi) = Z.to_nat (hi - lo).
Proof.
  intros Hlo Hhi. rewrite py_slice_in_range by done.
  rewrite length_take, length_drop. lia.
Qed.

Lemma lookup_py_slice {A} (l : list A) (lo hi : Z) (i : nat) :
  0 ≤ lo ≤ hi → hi ≤ Z.of_nat (length l) → Z.of_nat i < hi - lo →
  geometry.py_slice l lo hi !! i = l !! (Z.to_nat lo + i)%nat.
Proof.
  intros Hlo Hhi Hi. rewrite py_slice_in_range by done.
  rewrite lookup_take_lt by lia. apply lookup_drop.
Qed.

(** A slice within the bounds of a well-formed array is the window it
    names. *)
Lemma slice2_window (R : ndarray float) (lo_r hi_r lo_c hi_c : Z) :
  wf_ndarray R →
  0 ≤ lo_r ≤ hi_r → hi_r ≤ Z.of_nat (nrows R) →
  0 ≤ lo_c ≤ hi_c → hi_c ≤ Z.of_nat (ncols R) →
  is_window R lo_r hi_r lo_c hi_c (geometry.slice2 R lo_r hi_r lo_c hi_c).
Proof.
  intros Hwf Hr Hr' Hc Hc'. unfold is_window.
  do 4 (split; [lia|]).
  assert (Hrows : ∀ r, r ∈ geometry.py_slice (rows R) lo_r hi_r →
                       length r = ncols R).
  { intros r Hin. rewrite py_slice_in_range in Hin by done.
    apply elem_of_take in Hin as (k & Hk & _).
    rewrite lookup_drop in Hk.
    by apply (Forall_lookup_1 _ _ _ _ Hwf Hk). }
  split; [|split].
  - unfold wf_ndarray, geometry.slice2. simpl.
    apply Forall_forall. intros r' (r & -> & Hin)%list_elem_of_fmap.
    rewrite !slice_index_id by lia.
    rewrite length_py_slice; [done | done | rewrite (Hrows r Hin); lia].
  - unfold shape, nrows, geometry.slice2. simpl.
    rewrite length_map, length_py_slice by done.
    by rewrite !slice_index_id by lia.
  - intros i j Hi Hj. unfold get, geometry.slice2. simpl.
    rewrite list_lookup_fmap, lookup_py_slice by done.
    destruct (rows R !! (Z.to_nat lo_r + i)%nat) as [r|] eqn:Hrow; simpl; [|done].
    apply lookup_py_slice; [done | | done].
    rewrite (Forall_lookup_1 _ _ _ _ Hwf Hrow). lia.
Qed.

(** A nonzero element lies inside the array. *)
Lemma nonzero_at_bounds (R : ndarray float) (i j : nat) :
  wf_ndarray R → nonzero_at R i j →
  (i < nrows R)%nat ∧ (j < ncols R)%nat.
Proof.
  intros Hwf (v & Hget & _). unfold get in Hget.
  destruct (rows R !! i) as [r|] eqn:Hr; simpl in Hget; [|done].
  split; [by eapply lookup_lt_Some|].
  rewrite <- (Forall_lookup_1 _ _ _ _ Hwf Hr). by eapply lookup_lt_Some.
Qed.

(** [trim] on an array with a nonzero element: the bounds it computes
    are the bounding box, and its result is the slice around it. *)
Lemma trim_Ok (R : ndarray float) (t : Z) :
  (∃ i j, nonzero_at R i j) →
  ∃ r0 r1 c0 c1, bounding_box R r0 r1 c0 c1 ∧
    geometry.trim R t =
      Ok (geometry.slice2 R
            (Z.max (r0 - t) 0) (Z.min (r1 + t + 1) (Z.of_nat (nrows R)))
            (Z.max (c0 - t) 0) (Z.min (c1 + t + 1) (Z.of_nat (ncols R)))).
Proof.
  intros (i0 & j0 & Hnz). unfold geometry.trim, geometry.np_nonzero.
  set (ix := geometry.nonzero_rows_from 0 (rows R)).
  assert (Hix : (i0, j0) ∈ ix) by by apply elem_of_nonzero.
  assert (Hne : ∀ f : nat * nat → Z, map f ix ≠ []).
  { intros f Hnil. destruct ix; [by apply elem_of_nil in Hix | done]. }
  destruct (int_min_spec _ (Hne (λ p, Z.of_nat p.1))) as (r0 & -> & Hr0 & Hr0').
  destruct (int_max_spec _ (Hne (λ p, Z.of_nat p.1))) as (r1 & -> & Hr1 & Hr1').
  destruct (int_min_spec _ (Hne (λ p, Z.of_nat p.2))) as (c0 & -> & Hc0 & Hc0').
  destruct (int_max_spec _ (Hne (λ p, Z.of_nat p.2))) as (c1 & -> & Hc1 & Hc1').
  exists r0, r1, c0, c1. split; [|done].
  unfold bounding_box. split; [|split; [|split; [|split]]].
  - intros i j Hij%elem_of_nonzero. fold ix in Hij.
    pose proof (Hr0' _ (list_elem_of_fmap_2 (λ p, Z.of_nat p.1) _ _ Hij)).
    pose proof (Hr1' _ (list_elem_of_fmap_2 (λ p, Z.of_nat p.1) _ _ Hij)).
    pose proof (Hc0' _ (list_elem_of_fmap_2 (λ p, Z.of_nat p.2) _ _ Hij)).
    pose proof (Hc1' _ (list_elem_of_fmap_2 (λ p, Z.of_nat p.2) _ _ Hij)).
    simpl in *. lia.
  - apply list_elem_of_fmap in Hr0 as ([i j] & -> & Hij).
    exists i, j. split; [by apply elem_of_nonzero | done].
  - apply list_elem_of_fmap in Hr1 as ([i j] & -> & Hij).
    exists i, j. split; [by apply elem_of_nonzero | done].
  - apply list_elem_of_fmap in Hc0 as ([i j] & -> & Hij).
    exists i, j. split; [by apply elem_of_nonzero | done].
  - apply list_elem_of_fmap in Hc1 as ([i j] & -> & Hij).
    exists i, j. split; [by apply elem_of_nonzero | done].
Qed.

End Trim.

(** C6: on a raster with a nonzero element, and for a buffer thickness
    that is not negative, [trim] returns the subarray that covers the
    bounding box of the nonzero elements, widened by the thickness on
    each side and clamped to the array.  When the only nonzero element
    is the one at [(5, 5)] and the thickness is 2, this is the window of
    the rows 3..7 and the columns 3..7, clipped to the array. *)
Theorem trim_bounding_box (R : ndarray float) (t : Z) :
  wf_ndarray R →
  0 ≤ t →
  (∃ i j, nonzero_at R i j) →
  ∃ r0 r1 c0 c1 W,
    bounding_box R r0 r1 c0 c1 ∧
    geometry.trim R t = Ok W ∧
    is_window R (Z.max (r0 - t) 0) (Z.min (r1 + t + 1) (Z.of_nat (nrows R)))
                (Z.max (c0 - t) 0) (Z.min (c1 + t + 1) (Z.of_nat (ncols R)))
              W ∧
    ((∀ i j, nonzero_at R i j ↔ i = 5%nat ∧ j = 5%nat) → t = 2 →
     is_window R 3 (Z.min 8 (Z.of_nat (nrows R)))
                 3 (Z.min 8 (Z.of_nat (ncols R))) W).
Proof.
  intros Hwf Ht Hnz.
  destruct (trim_Ok R t Hnz) as (r0 & r1 & c0 & c1 & Hbox & Htrim).
  exists r0, r1, c0, c1. eexists. split; [done|]. split; [done|].
  destruct Hbox as (Hin & (i0 & j0 & H0 & <-) & (i1 & j1 & H1 & <-)
                    & (i2 & j2 & H2 & <-) & (i3 & j3 & H3 & <-)).
  pose proof (Hin _ _ H0) as [? _]. pose proof (Hin _ _ H2) as [_ ?].
  pose proof (nonzero_at_bounds _ _ _ Hwf H1) as [? _].
  pose proof (nonzero_at_bounds _ _ _ Hwf H3) as [_ ?].
  assert (Hw : is_window R
            (Z.max (Z.of_nat i0 - t) 0)
            (Z.min (Z.of_nat i1 + t + 1) (Z.of_nat (nrows R)))
            (Z.max (Z.of_nat j2 - t) 0)
            (Z.min (Z.of_nat j3 + t + 1) (Z.of_nat (ncols R)))
            (geometry.slice2 R
               (Z.max (Z.of_nat i0 - t) 0)
               (Z.min (Z.of_nat i1 + t + 1) (Z.of_nat (nrows R)))
               (Z.max (Z.of_nat j2 - t) 0)
               (Z.min (Z.of_nat j3 + t + 1) (Z.of_nat (ncols R)))))
    by (apply slice2_window; [done | lia..]).
  split; [done|].
  intros Hone ->.
  apply Hone in H0 as [-> _]. apply Hone in H1 as [-> _].
  apply Hone in H2 as [_ ->]. apply Hone in H3 as [_ ->].
  exact Hw.
Qed.

Lemma trim_bounding_box_witness :
  wf_ndarray single_pixel ∧ 0 ≤ 2 ∧ (∃ i j, nonzero_at single_pixel i j) ∧
  ∃ W, geometry.trim single_pixel 2 = Ok W ∧ shape W = (5%nat, 5%nat).
Proof.
  assert (Hwf : wf_ndarray single_pixel)
    by (unfold wf_ndarray; simpl; repeat constructor).
  assert (Hnz : ∃ i j, nonzero_at single_pixel i j)
    by (exists 5%nat, 5%nat, f_one; split; reflexivity).
  split; [exact Hwf|]. split; [lia|]. split; [exact Hnz|].
  destruct (trim_bounding_box single_pixel 2 Hwf ltac:(lia) Hnz)
    as (r0 & r1 & c0 & c1 & W & _ & Htrim & _ & Hwin).
  exists W. split; [exact Htrim|].
  destruct Hwin as (_ & _ & _ & _ & _ & Hshape & _); [|reflexivity|exact Hshape].
  intros i j. rewrite <- elem_of_nonzero.
  change (geometry.nonzero_rows_from 0 (rows single_pixel))
    with [(5%nat, 5%nat)].
  rewrite list_elem_of_singleton. split; [by intros [= -> ->] | by intros [-> ->]].
Defined.

(** C7: on a raster without a nonzero element [trim] raises (the
    [ValueError] of the minimum of an empty index array) and returns no
    value. *)
Theorem trim_all_zero_raises (R : ndarray float) (t : Z) :
  all_zero R = true →
  geometry.trim R t = Raise ValueError.
Proof.
  intros Hz. unfold geometry.trim, geometry.np_nonzero.
  destruct (geometry.nonzero_rows_from 0 (rows R)) as [|[i j] ix] eqn:Hix;
    [done|].
  assert (Hin : (i, j) ∈ geometry.nonzero_rows_from 0 (rows R))
    by (rewrite Hix; by left).
  apply elem_of_nonzero in Hin as (v & Hget & Hv). unfold get in Hget.
  destruct (rows R !! i) as [r|] eqn:Hr; simpl in Hget; [|done].
  unfold all_zero in Hz. rewrite forallb_forall in Hz.
  apply list_elem_of_lookup_2, list_elem_of_In, Hz in Hr.
  rewrite forallb_forall in Hr.
  apply list_elem_of_lookup_2, list_elem_of_In, Hr in Hget.
  by rewrite Hv in Hget.
Qed.

Lemma trim_all_zero_raises_witness :
  all_zero (zeros 3 4) = true ∧ geometry.trim (zeros 3 4) 2 = Raise ValueError.
Proof.
  split; [reflexivity|]. apply trim_all_zero_raises. reflexivity.
Defined.

(** * [normalize] on a flat raster *)

Lemma amap_ext_ravel {A B} (f g : A → B) (a : ndarray A) :
  Forall (λ x, f x = g x) (ravel a) → amap f a = amap g a.
Proof.
  destruct a as [w rs]. unfold amap, ravel. simpl. intros Hall. f_equal.
  induction rs as [|r rs IH]; simpl in *; [done|].
  apply Forall_app in Hall as [Hr Hrs]. f_equal; [|by apply IH].
  apply map_ext_in. intros x Hx%list_elem_of_In.
  by apply (proj1 (Forall_forall _ _) Hr).
Qed.

Lemma fmin_diag (c : float) : geometry.fmin c c = c.
Proof. unfold geometry.fmin. by repeat case_match. Qed.

Lemma fmax_diag (c : float) : geometry.fmax c c = c.
Proof. unfold geometry.fmax. by repeat case_match. Qed.

Lemma fold_fmin_flat (c : float) (xs : list float) :
  Forall (λ v, v = c) xs → fold_left geometry.fmin xs c = c.
Proof.
  induction 1 as [|x xs -> _ IH]; simpl; [done|]. by rewrite fmin_diag.
Qed.

Lemma fold_fmax_flat (c : float) (xs : list float) :
  Forall (λ v, v = c) xs → fold_left geometry.fmax xs c = c.
Proof.
  induction 1 as [|x xs -> _ IH]; simpl; [done|]. by rewrite fmax_diag.
Qed.

(** In every format [(c - c) / (c - c)] is not a number: the difference
    is a zero, or already a NaN when [c] is infinite or a NaN. *)
Lemma zero_over_zero (p e : Z) (c : float) :
  SFdiv p e (SFsub p e c c) (SFsub p e c c) = S754_nan.
Proof.
  destruct c as [[] | [] | | s m x]; try reflexivity.
  unfold SFsub. rewrite Z.sub_diag. reflexivity.
Qed.

(** C8 fails on the code: [normalize] has no guard for a flat raster.
    On every raster with an element whose elements are all the same
    value [c], in every format, it raises nothing and returns the array
    of the quotients [0 / 0]: a NaN at every position. *)
Theorem normalize_flat_is_nan (t : dtype) (R : ndarray float) (c : float) :
  ravel R ≠ [] →
  Forall (λ v, v = c) (ravel R) →
  geometry.normalize t R = Ok (amap (λ _, S754_nan) R).
Proof.
  intros Hne Hflat. unfold geometry.normalize, geometry.np_min, geometry.np_max.
  destruct (ravel R) as [|x xs] eqn:Hrav; [done|].
  apply Forall_cons in Hflat as [-> Hxs].
  rewrite fold_fmin_flat, fold_fmax_flat by done. simpl. f_equal.
  apply amap_ext_ravel. rewrite Hrav.
  apply Forall_cons. split; [apply zero_over_zero|].
  eapply Forall_impl; [exact Hxs|]. intros v ->. apply zero_over_zero.
Qed.

Lemma normalize_flat_is_nan_witness :
  ravel flat_half ≠ [] ∧ Forall (λ v, v = f_half) (ravel flat_half) ∧
  geometry.normalize float32 flat_half
    = Ok (mk_ndarray 2 [[S754_nan; S754_nan]; [S754_nan; S754_nan]]).
Proof.
  split; [discriminate|]. split; [repeat constructor|].
  apply (normalize_flat_is_nan float32 flat_half f_half);
    [discriminate | repeat constructor].
Defined.

(** * [np.pad] *)

Lemma mapM_result_Ok {A B} (f : A → result B) (P : B → Prop) (l : list A) :
  Forall (λ x, ∃ y, f x = Ok y ∧ P y) l →
  ∃ ys, mapM_result f l = Ok ys ∧ Forall P ys ∧ length ys = length l.
Proof.
  induction 1 as [|x l (y & Hy & HP) _ (ys & Hys & HPs & Hlen)]; simpl.
  - by exists [].
  - rewrite Hy. simpl. rewrite Hys. simpl. exists (y :: ys).
    split; [done|]. split; [by constructor | simpl; by rewrite Hlen].
Qed.

Lemma pad_edge_list_nonempty {A} (b a : nat) (l : list A) :
  l ≠ [] →
  ∃ x y, pad_edge_list b a l = Ok (replicate b x ++ l ++ replicate a y)
         ∧ x ∈ l ∧ y ∈ l.
Proof.
  intros Hne. unfold pad_edge_list. destruct l as [|x l]; [done|].
  destruct (last (x :: l)) as [y|] eqn:Hlast.
  - exists x, y. split; [done|]. split; [by left|].
    apply last_Some in Hlast as [l' ->]. apply elem_of_app. right. by left.
  - by apply last_None in Hlast.
Qed.

Lemma np_pad_shape (a : ndarray float) (b0 a0 b1 a1 : Z) (m : string) :
  wf_ndarray a →
  0 ≤ b0 → 0 ≤ a0 → 0 ≤ b1 → 0 ≤ a1 →
  m = "constant" ∨ (m = "edge" ∧ (0 < nrows a)%nat ∧ (0 < ncols a)%nat) →
  ∃ a', np_pad a ((b0, a0), (b1, a1)) m = Ok a' ∧ wf_ndarray a' ∧
        nrows a' = (Z.to_nat b0 + nrows a + Z.to_nat a0)%nat ∧
        ncols a' = (Z.to_nat b1 + ncols a + Z.to_nat a1)%nat.
Proof.
  intros Hwf Hb0 Ha0 Hb1 Ha1 Hm. unfold np_pad.
  replace ((b0 <? 0) || (a0 <? 0) || (b1 <? 0) || (a1 <? 0)) with false
    by (symmetry; rewrite !orb_false_iff, !Z.ltb_ge; lia).
  destruct Hm as [-> | (-> & Hr & Hc)].
  - rewrite bool_decide_eq_true_2 by done. eexists. split; [done|].
    unfold wf_ndarray, nrows. simpl. split; [|split; [|done]].
    + rewrite !Forall_app. split; [|split].
      * apply Forall_replicate. apply length_replicate.
      * apply Forall_forall. intros r' (r & -> & Hin)%list_elem_of_fmap.
        rewrite !length_app, !length_replicate.
        rewrite (proj1 (Forall_forall _ _) Hwf r Hin). lia.
      * apply Forall_replicate. apply length_replicate.
    + rewrite !length_app, !length_replicate, length_map. lia.
  - rewrite bool_decide_eq_false_2 by done.
    rewrite bool_decide_eq_true_2 by done.
    rewrite bool_decide_eq_false_2 by lia.
    destruct (pad_edge_list_nonempty (Z.to_nat b0) (Z.to_nat a0) (rows a))
      as (x & y & -> & Hx & Hy).
    { unfold nrows in Hr. destruct (rows a); [simpl in Hr; lia | done]. }
    simpl.
    set (rs := replicate (Z.to_nat b0) x ++ rows a ++ replicate (Z.to_nat a0) y).
    assert (Hrs : Forall (λ r, length r = ncols a) rs).
    { unfold rs. rewrite !Forall_app. split; [|split; [done|]].
      - apply Forall_replicate. by apply (proj1 (Forall_forall _ _) Hwf).
      - apply Forall_replicate. by apply (proj1 (Forall_forall _ _) Hwf). }
    destruct (mapM_result_Ok (pad_edge_list (Z.to_nat b1) (Z.to_nat a1))
                (λ r, length r = (Z.to_nat b1 + ncols a + Z.to_nat a1)%nat) rs)
      as (rs' & -> & Hrs' & Hlen).
    { eapply Forall_impl; [exact Hrs|]. intros r Hlr. simpl in Hlr.
      destruct (pad_edge_list_nonempty (Z.to_nat b1) (Z.to_nat a1) r)
        as (u & v & -> & _ & _).
      { intros ->. simpl in Hlr. lia. }
      eexists. split; [done|].
      rewrite !length_app, !length_replicate. simpl in Hlr. lia. }
    simpl. eexists. split; [done|]. unfold wf_ndarray, nrows. simpl.
    split; [done|]. split; [|done].
    rewrite Hlen. unfold rs. rewrite !length_app, !length_replicate. lia.
Qed.

Lemma check_mode_lookup (m : gmap string string) (k v : string) :
  check_mode m = true → m !! k = Some v → v = "constant" ∨ v = "edge".
Proof.
  unfold check_mode. rewrite forallb_forall. intros Hall Hk.
  apply elem_of_map_to_list, list_elem_of_In, Hall in Hk. simpl in Hk.
  apply bool_decide_eq_true in Hk. unfold allowed_modes in Hk.
  apply elem_of_cons in Hk as [-> | Hk]; [by left|].
  apply list_elem_of_singleton in Hk as ->. by right.
Qed.

(** * The buffer: padding at construction, cropping in [to_ndarray] *)

(** One step of a method: the binds and the accesses to the store. *)
Ltac mstep :=
  unfold mbind, mret, M_mbind, M_mret, M_bind, M_ret, lift, get_device,
    get_spec, set_device_array, new_device, dict_get; simpl;
  rewrite ?lookup_insert_eq; simpl.

Section Buffer.
Context `{Backend}.

#[local] Arguments np_pad : simpl never.
#[local] Arguments geometry.slice2 : simpl never.
#[local] Arguments amap : simpl never.

Lemma initial_processing_Ok (σ : store) (self l : loc) (R : ndarray float)
    (t : dtype) (bs : BufferSpec) (mt mb ml mr : string) :
  devices σ !! self = Some (mk_Device R t l) →
  specs σ !! l = Some bs →
  BufferSpec_validate bs = Ok bs →
  mode bs !! "top" = Some mt → mode bs !! "bottom" = Some mb →
  mode bs !! "left" = Some ml → mode bs !! "right" = Some mr →
  wf_ndarray R → (0 < nrows R)%nat → (0 < ncols R)%nat →
  ∃ A, _initial_processing self σ =
         (Ok tt, mk_store (specs σ)
                          (<[self := mk_Device A float32 l]> (devices σ))
                          (rng σ)) ∧
       wf_ndarray A ∧
       nrows A = (Z.to_nat (thickness bs) + nrows R + Z.to_nat (thickness bs))%nat ∧
       ncols A = (Z.to_nat (thickness bs) + ncols R + Z.to_nat (thickness bs))%nat.
Proof.
  intros Hself Hl Hvalid Ht Hb Hle Hri Hwf Hr Hc.
  unfold BufferSpec_validate in Hvalid.
  destruct (check_mode (mode bs)) eqn:Hcheck; [|done].
  destruct (Z.ltb_spec 0 (thickness bs)) as [Hth|]; [clear Hvalid|done].
  pose proof (check_mode_lookup _ _ _ Hcheck Ht) as Hmt.
  pose proof (check_mode_lookup _ _ _ Hcheck Hb) as Hmb.
  pose proof (check_mode_lookup _ _ _ Hcheck Hle) as Hml.
  pose proof (check_mode_lookup _ _ _ Hcheck Hri) as Hmr.
  unfold _initial_processing.
  repeat (mstep; rewrite ?Hself, ?Hl, ?Ht, ?Hb, ?Hle, ?Hri; simpl).
  destruct (np_pad_shape R (thickness bs) 0 0 0 mt) as (A1 & -> & Hwf1 & Hr1 & Hc1);
    [done | lia.. | |].
  { destruct Hmt as [-> | ->]; [by left | right; done]. }
  repeat (mstep; rewrite ?Hself, ?Hl, ?Ht, ?Hb, ?Hle, ?Hri; simpl).
  destruct (np_pad_shape A1 0 (thickness bs) 0 0 mb) as (A2 & -> & Hwf2 & Hr2 & Hc2);
    [done | lia.. | |].
  { destruct Hmb as [-> | ->]; [by left | right; split; [done | lia]]. }
  repeat (mstep; rewrite ?Hself, ?Hl, ?Ht, ?Hb, ?Hle, ?Hri; simpl).
  destruct (np_pad_shape A2 0 0 (thickness bs) 0 ml) as (A3 & -> & Hwf3 & Hr3 & Hc3);
    [done | lia.. | |].
  { destruct Hml as [-> | ->]; [by left | right; split; [done | lia]]. }
  repeat (mstep; rewrite ?Hself, ?Hl, ?Ht, ?Hb, ?Hle, ?Hri; simpl).
  destruct (np_pad_shape A3 0 0 0 (thickness bs) mr) as (A4 & -> & Hwf4 & Hr4 & Hc4);
    [done | lia.. | |].
  { destruct Hmr as [-> | ->]; [by left | right; split; [done | lia]]. }
  repeat (mstep; rewrite ?Hself, ?Hl, ?Ht, ?Hb, ?Hle, ?Hri; simpl).
  rewrite !insert_insert_eq.
  eexists. split; [done|].
  split; [|split].
  - unfold wf_ndarray, amap. simpl. apply Forall_forall.
    intros r' (r & -> & Hin)%list_elem_of_fmap. rewrite length_map.
    by apply (proj1 (Forall_forall _ _) Hwf4).
  - unfold nrows, amap in *. simpl. rewrite length_map. lia.
  - unfold amap. simpl. lia.
Qed.

(** C2, amended: for every raster with at least one row and one column
    and every valid [BufferSpec] with a mode on each of the four sides,
    constructing a [Device] and calling [to_ndarray] returns an array
    whose shape is that of the raster plus the thickness on every side
    of mode ["constant"], and no more: with ["edge"] on the four sides
    it is the shape of the raster. *)
Theorem buffer_round_trip_shape (σ : store) (R : ndarray float) (t : dtype)
    (l : loc) (bs : BufferSpec) (mt mb ml mr : string) :
  specs σ !! l = Some bs →
  BufferSpec_validate bs = Ok bs →
  mode bs !! "top" = Some mt → mode bs !! "bottom" = Some mb →
  mode bs !! "left" = Some ml → mode bs !! "right" = Some mr →
  wf_ndarray R → (0 < nrows R)%nat → (0 < ncols R)%nat →
  ∃ d σ' out,
    Device_init R t (Some l) σ = (Ok d, σ') ∧
    to_ndarray d σ' = (Ok out, σ') ∧
    shape out = ((kept_padding bs mt + nrows R + kept_padding bs mb)%nat,
                 (kept_padding bs ml + ncols R + kept_padding bs mr)%nat) ∧
    (mt = "edge" → mb = "edge" → ml = "edge" → mr = "edge" →
     shape out = shape R).
Proof.
  intros Hl Hvalid Ht Hb Hle Hri Hwf Hr Hc.
  unfold Device_init. mstep.
  set (d := fresh (dom (devices σ))).
  set (σ1 := mk_store (specs σ) (<[d := mk_Device R t l]> (devices σ)) (rng σ)).
  destruct (initial_processing_Ok σ1 d l R t bs mt mb ml mr)
    as (A & -> & HwfA & HrA & HcA); try done.
  { apply lookup_insert_eq. }
  unfold BufferSpec_validate in Hvalid.
  destruct (check_mode (mode bs)) eqn:Hcheck; [|done].
  destruct (Z.ltb_spec 0 (thickness bs)) as [Hth|]; [clear Hvalid|done].
  pose proof (check_mode_lookup _ _ _ Hcheck Ht) as Hmt.
  pose proof (check_mode_lookup _ _ _ Hcheck Hb) as Hmb.
  pose proof (check_mode_lookup _ _ _ Hcheck Hle) as Hml.
  pose proof (check_mode_lookup _ _ _ Hcheck Hri) as Hmr.
  eexists d, _, _. split; [done|].
  unfold to_ndarray.
  repeat (mstep; rewrite ?Hl, ?Ht, ?Hb, ?Hle, ?Hri; simpl).
  split; [done|].
  match goal with
  | |- context [geometry.slice2 ?a ?r0 ?r1 ?c0 ?c1] =>
      destruct (slice2_window a r0 r1 c0 c1) as (_ & _ & _ & _ & _ & -> & _)
  end; try done.
  1-4: unfold nrows in *; repeat case_bool_decide; simpl; lia.
  unfold kept_padding, shape.
  split.
  - destruct Hmt as [-> | ->], Hmb as [-> | ->], Hml as [-> | ->],
      Hmr as [-> | ->]; repeat case_bool_decide; try done; f_equal; lia.
  - intros -> -> -> ->. repeat case_bool_decide; try done. f_equal; lia.
Qed.

End Buffer.

(** C2, as stated, fails on a raster without rows: [np.pad] cannot
    extend an empty axis in the mode ["edge"], so the construction
    raises a [ValueError] and there is no array to compare. *)
Lemma buffer_round_trip_fails_on_empty_raster :
  BufferSpec_validate edge_spec = Ok edge_spec ∧
  (Device_init empty_raster float64 (Some 0%nat) edge_store).1
    = Raise ValueError ∧
  ¬ ∃ d σ' out σ'',
      Device_init empty_raster float64 (Some 0%nat) edge_store = (Ok d, σ') ∧
      to_ndarray d σ' = (Ok out, σ'') ∧ shape out = shape empty_raster.
Proof.
  assert (Hr : (Device_init empty_raster float64 (Some 0%nat) edge_store).1
               = Raise ValueError) by (vm_compute; reflexivity).
  split; [vm_compute; reflexivity|]. split; [exact Hr|].
  intros (d & σ' & out & σ'' & Hinit & _). rewrite Hinit in Hr. discriminate.
Qed.

Lemma buffer_round_trip_shape_witness :
  ∃ d σ' out,
    Device_init (zeros 2 3) float64 (Some 0%nat) edge_store = (Ok d, σ') ∧
    to_ndarray d σ' = (Ok out, σ') ∧ shape out = (2%nat, 3%nat).
Proof.
  assert (Hwf : wf_ndarray (zeros 2 3)).
  { unfold wf_ndarray. simpl. repeat constructor. }
  destruct (buffer_round_trip_shape edge_store (zeros 2 3) float64 0%nat
              edge_spec "edge" "edge" "edge" "edge")
    as (d & σ' & out & Hinit & Hto & _ & Hshape);
    [reflexivity | vm_compute; reflexivity | reflexivity | reflexivity
    | reflexivity | reflexivity | exact Hwf | unfold nrows; simpl; lia | simpl; lia |].
  exists d, σ', out. split; [exact Hinit|]. split; [exact Hto|].
  by apply Hshape.
Defined.

(** * The transforms leave the receiver alone *)

Section Frame.
Context `{Backend}.

#[local] Arguments geometry.normalize : simpl never.
#[local] Arguments geometry.trim : simpl never.
#[local] Arguments geometry.blur : simpl never.
#[local] Arguments geometry.rotate : simpl never.
#[local] Arguments geometry.erode : simpl never.
#[local] Arguments geometry.dilate : simpl never.
#[local] Arguments geometry.binarize : simpl never.
#[local] Arguments geometry.binarize_hard : simpl never.
#[local] Arguments geometry.ternarize : simpl never.
#[local] Arguments geometry.binarize_monte_carlo : simpl never.

Lemma fresh_device (σ : store) :
  devices σ !! fresh (dom (devices σ)) = None.
Proof. apply not_elem_of_dom, is_fresh. Qed.

(** C3, amended: for every [Device] [d] and every transform method,
    the call leaves [d] and every other object as it was (the same
    array, the same [BufferSpec]); when the array function of the method
    returns an array, the call returns a new [Device] that holds this
    array and refers to the same [BufferSpec] as [d]; when it raises, the
    call raises the same exception and creates nothing. *)
Theorem transform_frame (tr : transform) (self : loc) (σ : store)
    (d : Device) (bs : BufferSpec) :
  devices σ !! self = Some d →
  specs σ !! buffer_spec d = Some bs →
  ∃ r σ', call tr self σ = (r, σ') ∧
    specs σ' = specs σ ∧
    devices σ' !! self = Some d ∧
    (∀ l d0, devices σ !! l = Some d0 → devices σ' !! l = Some d0) ∧
    match array_of tr d bs (rng σ) with
    | Ok a =>
        ∃ new d', r = Ok new ∧ devices σ !! new = None ∧ new ≠ self ∧
          devices σ' !! new = Some d' ∧
          device_array d' = a ∧ buffer_spec d' = buffer_spec d
    | Raise e => r = Raise e ∧ devices σ' = devices σ
    end.
Proof.
  intros Hself Hspec.
  pose proof (fresh_device σ) as Hfresh.
  assert (Hne : fresh (dom (devices σ)) ≠ self) by congruence.
  assert (Hold : ∀ (x : Device) l d0, devices σ !! l = Some d0 →
            <[fresh (dom (devices σ)) := x]> (devices σ) !! l = Some d0).
  { intros x l d0 Hl. rewrite lookup_insert_ne; [done | congruence]. }
  destruct tr; unfold call, normalize, binarize, binarize_hard,
    binarize_monte_carlo, ternarize, trim, blur, rotate, erode, dilate,
    model_copy, array_of;
    repeat (mstep; rewrite ?Hself, ?Hspec; simpl);
    try match goal with
      | |- context [geometry.binarize_monte_carlo ?a ?n ?b ?g] =>
          destruct (geometry.binarize_monte_carlo a n b g) as [[?|?] ?] eqn:?
      | |- context [match ?x with Ok _ => _ | Raise _ => _ end] =>
          destruct x eqn:?
      end;
    repeat (mstep; rewrite ?Hself, ?Hspec; simpl);
    eexists _, _; (split; [reflexivity|]); simpl;
    try (split; [done|]; split; [by auto|]; split; [by auto|];
         eexists _, _; split; [reflexivity|]; split; [done|]; split; [done|];
         rewrite lookup_insert_eq; done);
    try done.
Qed.

End Frame.

(** C3, as stated, fails for [trim]: on the device made from a raster
    of zeros the method returns no [Device], it raises the [ValueError]
    of [geometry.trim]. *)
Lemma trim_returns_no_device :
  match Device_init (zeros 1 1) float64 None empty_store with
  | (Ok d, σ) => (call Trim d σ).1 = Raise ValueError
  | _ => False
  end.
Proof. vm_compute. reflexivity. Qed.

Lemma transform_frame_witness :
  ∃ r σ', call (BinarizeHard f_half) 0%nat zero_store = (r, σ') ∧
    specs σ' = specs zero_store ∧
    devices σ' !! 0%nat = Some (mk_Device (zeros 3 3) float32 0%nat).
Proof.
  destruct (transform_frame (BinarizeHard f_half) 0%nat zero_store
              (mk_Device (zeros 3 3) float32 0%nat)
              (mk_BufferSpec default_mode 1))
    as (r & σ' & Hcall & Hspecs & Hself & _); [reflexivity | reflexivity |].
  exists r, σ'. split; [exact Hcall|]. split; [exact Hspecs | exact Hself].
Defined.

(** * The level of a contour is its depth in the hierarchy *)

Section Levels.

Lemma np_index_elem_of {A} (l : list A) (i : Z) (x : A) :
  np_index l i = Ok x → x ∈ l.
Proof.
  unfold np_index.
  destruct ((0 <=? i) && (i <? Z.of_nat (length l)));
    [|destruct ((- Z.of_nat (length l) <=? i) && (i <? 0)); [|done]];
    (destruct (l !! _) eqn:Hl; simpl; [|done]);
    intros [= <-]; by eapply list_elem_of_lookup_2.
Qed.

Lemma depth_nonneg (h : list hierarchy_row) (row : hierarchy_row) (l : Z) :
  depth h row l → 0 ≤ l.
Proof. induction 1; lia. Qed.

Lemma depth_functional (h : list hierarchy_row) (row : hierarchy_row) (l : Z) :
  depth h row l → ∀ l', depth h row l' → l' = l.
Proof.
  induction 1 as [row Htop | row row' l Hp Hrow' _ IH]; intros l' Hl'.
  - destruct Hl' as [|? ? ? Hp]; [done | congruence].
  - destruct Hl' as [? Htop | ? row'' l'' _ Hrow'' Hl'']; [congruence|].
    rewrite Hrow' in Hrow''. injection Hrow'' as <-.
    by rewrite (IH l'' Hl'').
Qed.

(** The rows on the way from a row to the top are as many as its depth
    and one, and no two of them are the same. *)
Lemma depth_path (h : list hierarchy_row) (row : hierarchy_row) (l : Z) :
  depth h row l → row ∈ h →
  ∃ ps : list hierarchy_row,
    Z.of_nat (length ps) = l + 1 ∧ NoDup ps ∧
    ∀ x, x ∈ ps → x ∈ h ∧ ∃ l', l' ≤ l ∧ depth h x l'.
Proof.
  induction 1 as [row Htop | row row' l Hp Hrow' Hd IH]; intros Hin.
  - exists [row]. split; [done|]. split; [apply NoDup_singleton|].
    intros x ->%list_elem_of_singleton. split; [done|].
    exists 0. split; [lia | by constructor].
  - destruct IH as (ps & Hlen & Hnd & Hps);
      [by eapply np_index_elem_of|].
    exists (row :: ps). split; [simpl; lia|]. split.
    + constructor; [|done]. intros Hrow.
      destruct (Hps row Hrow) as (_ & l' & Hle & Hl').
      assert (Hl : depth h row (l + 1)) by by econstructor.
      pose proof (depth_functional h row _ Hl _ Hl'). lia.
    + intros x [-> | Hx]%elem_of_cons.
      * split; [done|]. exists (l + 1). split; [lia | by econstructor].
      * destruct (Hps x Hx) as (Hxh & l' & Hle & Hl').
        split; [done|]. exists l'. split; [lia | done].
Qed.

Lemma depth_bound (h : list hierarchy_row) (row : hierarchy_row) (l : Z) :
  depth h row l → row ∈ h → l + 1 ≤ Z.of_nat (length h).
Proof.
  intros Hd Hin. destruct (depth_path h row l Hd Hin) as (ps & Hlen & Hnd & Hps).
  assert (Hsub : ps ⊆+ h).
  { apply NoDup_submseteq; [done|]. intros x Hx. by apply Hps. }
  apply submseteq_length in Hsub. lia.
Qed.

(** The loop, with fuel for every step on the way. *)
Lemma level_loop_depth (h : list hierarchy_row) (row : hierarchy_row) (l : Z) :
  depth h row l → ∀ (fuel : nat) (level idx : Z),
  np_index h idx = Ok row → l ≤ Z.of_nat fuel →
  level_loop fuel (Some h) level idx = Ok (level + l).
Proof.
  induction 1 as [row Htop | row row' l Hp Hrow' Hd IH];
    intros fuel level idx Hidx Hfuel.
  - destruct fuel; simpl; rewrite Hidx; simpl; rewrite Htop; simpl;
      f_equal; lia.
  - pose proof (depth_nonneg _ _ _ Hd).
    destruct fuel as [|fuel]; [simpl in Hfuel; lia|].
    simpl. rewrite Hidx. simpl.
    destruct (Z.eqb_spec row.2 (-1)) as [|_]; [done|].
    rewrite (IH fuel (level + 1) row.2 Hrow') by lia. f_equal. lia.
Qed.

Lemma level_loop_Ok (h : list hierarchy_row) (fuel : nat) :
  ∀ (level idx l : Z),
  level_loop fuel (Some h) level idx = Ok l →
  ∃ row, np_index h idx = Ok row ∧ depth h row (l - level).
Proof.
  induction fuel as [|fuel IH]; intros level idx l; simpl;
    (destruct (np_index h idx) as [row|] eqn:Hidx; simpl; [|done]);
    destruct (Z.eqb_spec row.2 (-1)) as [Htop | Hp]; try done.
  - intros [= <-]. exists row. split; [done|].
    replace (level - level) with 0 by lia. by constructor.
  - intros [= <-]. exists row. split; [done|].
    replace (level - level) with 0 by lia. by constructor.
  - intros Hl. destruct (IH _ _ _ Hl) as (row' & Hrow' & Hd).
    exists row. split; [done|].
    replace (l - level) with (l - (level + 1) + 1) by lia.
    by econstructor.
Qed.

(** A row with a depth: the loop returns that depth. *)
Lemma contour_level_of_depth (h : list hierarchy_row) (idx : Z)
    (row : hierarchy_row) (l : Z) :
  np_index h idx = Ok row → depth h row l →
  contour_level (Some h) idx = Ok l.
Proof.
  intros Hrow Hd. unfold contour_level. change (default [] (Some h)) with h.
  rewrite (level_loop_depth h row l Hd _ 0 idx Hrow); [f_equal; lia|].
  pose proof (depth_bound h row l Hd (np_index_elem_of _ _ _ Hrow)). lia.
Qed.

(** X12: the level the polygon extraction gives a contour is the depth
    of its row in the hierarchy, the number of its ancestors: the loop
    returns it whenever the row has a depth, and returns nothing else. *)
Theorem contour_level_depth (h : list hierarchy_row) (idx l : Z) :
  contour_level (Some h) idx = Ok l
  ↔ ∃ row, np_index h idx = Ok row ∧ depth h row l.
Proof.
  unfold contour_level. change (default [] (Some h)) with h. split.
  - intros Hl. destruct (level_loop_Ok h _ _ _ _ Hl) as (row & Hrow & Hd).
    exists row. split; [done|]. by replace l with (l - 0) by lia.
  - intros (row & Hrow & Hd).
    rewrite (level_loop_depth h row l Hd _ 0 idx Hrow); [f_equal; lia|].
    pose proof (depth_bound h row l Hd (np_index_elem_of _ _ _ Hrow)). lia.
Qed.

End Levels.

(** * Polygon extraction *)

Section Polygons.
Context `{Backend}.

Lemma polygons_at_depth_cons (c : contour) (lvl : Z) (cs : list (contour * Z))
    (d : Z) :
  polygons_at_depth ((c, lvl) :: cs) d =
    (if bool_decide ((2 < length c)%nat ∧ lvl = d) then [scale_contour c] else [])
    ++ polygons_at_depth cs d.
Proof.
  unfold polygons_at_depth, kept_contours. rewrite filter_cons. simpl.
  destruct (decide (3 ≤ length c)%nat) as [Hc|Hc].
  - rewrite filter_cons. simpl. destruct (decide (lvl = d)) as [->|Hd].
    + by rewrite bool_decide_eq_true_2 by (split; [lia | done]).
    + by rewrite bool_decide_eq_false_2 by (intros [_ ?]; done).
  - by rewrite bool_decide_eq_false_2 by (intros [? _]; lia).
Qed.

(** The first loop builds the dictionary of the polygons by depth. *)
Lemma collect_polygons_spec (h : option (list hierarchy_row)) :
  ∀ (contours : list contour) (idx : nat) (levels : list Z)
    (m : gmap Z (list (list (float * float)))),
  Forall2 (λ i lvl, contour_level h (Z.of_nat i) = Ok lvl)
          (seq idx (length contours)) levels →
  ∃ m', collect_polygons h (Z.of_nat idx) contours m = Ok m' ∧
    ∀ d, m' !! d =
      match polygons_at_depth (zip contours levels) d with
      | [] => m !! d
      | ps => Some (default [] (m !! d) ++ ps)
      end.
Proof.
  induction contours as [|c cs IH]; intros idx levels m Hlv; simpl in *.
  - apply Forall2_nil_inv_l in Hlv as ->. by exists m.
  - apply Forall2_cons_inv_l in Hlv as (lvl & levels' & Hlvl & Hlv & ->).
    rewrite Hlvl. simpl.
    replace (Z.of_nat idx + 1) with (Z.of_nat (S idx)) by lia.
    set (m1 := if bool_decide (2 < length c)%nat then _ else m).
    destruct (IH (S idx) levels' m1 Hlv) as (m' & -> & Hm').
    exists m'. split; [done|]. intros d. rewrite Hm'.
    rewrite polygons_at_depth_cons.
    assert (Hm1 : m1 !! d =
              if bool_decide ((2 < length c)%nat ∧ lvl = d)
              then Some (default [] (m !! d) ++ [scale_contour c])
              else m !! d).
    { unfold m1. case_bool_decide as Hc.
      - destruct (decide (lvl = d)) as [->|Hd].
        + rewrite bool_decide_eq_true_2 by done. rewrite lookup_insert_eq.
          destruct (m !! d) eqn:Hmd; simpl; [by rewrite Hmd|].
          by rewrite lookup_insert_eq.
        + rewrite bool_decide_eq_false_2 by (intros [_ ?]; done).
          rewrite lookup_insert_ne by done.
          destruct (m !! lvl); [done|]. by rewrite lookup_insert_ne.
      - by rewrite bool_decide_eq_false_2 by (intros [? _]; done). }
    rewrite Hm1. case_bool_decide; simpl.
    + destruct (polygons_at_depth (zip cs levels') d); simpl; [done|].
      by rewrite <- app_assoc.
    + done.
Qed.

Lemma StronglySorted_le_lt (l : list Z) :
  StronglySorted Z.le l → NoDup l → StronglySorted Z.lt l.
Proof.
  induction 1 as [|x l Hl IH Hx]; intros Hnd; [constructor|].
  apply NoDup_cons in Hnd as [Hnx Hnd]. constructor; [by apply IH|].
  apply Forall_forall. intros y Hy.
  pose proof (proj1 (Forall_forall _ _) Hx y Hy).
  assert (x ≠ y) by (intros ->; done). lia.
Qed.

(** [sorted(d.keys())] lists the keys of the dictionary in increasing
    order. *)
Lemma sorted_keys_spec {V} (m : gmap Z V) :
  StronglySorted Z.lt (sorted_keys m) ∧
  ∀ d, d ∈ sorted_keys m ↔ is_Some (m !! d).
Proof.
  unfold sorted_keys. split.
  - apply StronglySorted_le_lt.
    + apply StronglySorted_merge_sort; [intros ???; lia | intros ??; lia].
    + rewrite merge_sort_Permutation. apply NoDup_fst_map_to_list.
  - intros d. rewrite merge_sort_Permutation, list_elem_of_fmap. split.
    + intros ([k v] & -> & Hkv%elem_of_map_to_list). by exists v.
    + intros [v Hv]. exists (d, v). split; [done|].
      by apply elem_of_map_to_list.
Qed.

(** The second loop, on keys of the dictionary the first loop built. *)
Lemma combine_levels_spec (gl : Z * Z) (cs : list (contour * Z))
    (m : gmap Z (list (list (float * float)))) :
  (∀ d, m !! d = match polygons_at_depth cs d with
                | [] => None
                | ps => Some ps
                end) →
  ∀ (levels : list Z) (acc : list Polygon),
    Forall (λ d, is_Some (m !! d)) levels →
    combine_levels gl m levels acc = combine_by_depth gl cs levels acc.
Proof.
  intros Hm levels. induction levels as [|d levels IH]; intros acc Hall;
    simpl; [done|].
  apply Forall_cons in Hall as [[ps Hd] Hall]. rewrite Hd. simpl.
  rewrite Hm in Hd. destruct (polygons_at_depth cs d) as [|p ps'] eqn:Hps;
    [done|]. injection Hd as <-.
  unfold operation_at_depth. rewrite Zeven_mod.
  destruct (gdstk_boolean _ _ _ _ _); simpl; [by apply IH | done].
Qed.

(** C10: for contours that have each a nesting depth in the hierarchy
    OpenCV returned (the number of its ancestors; [levels] lists these
    depths), the polygons of the result are those of the contours of
    three points or more, grouped by nesting depth; the depths are
    taken in increasing order, each once, and the group of a depth is
    combined with the result so far by ["or"] when the depth is even
    and by ["xor"] when it is odd. *)
Theorem polygons_by_depth (contours : list contour)
    (hierarchy : option (list hierarchy_row)) (gds_layer : Z * Z)
    (levels : list Z) :
  Forall2 (λ i lvl, has_depth hierarchy (Z.of_nat i) lvl)
          (seq 0 (length contours)) levels →
  ∃ depths,
    StronglySorted Z.lt depths ∧
    (∀ d, d ∈ depths ↔ ∃ c, (c, d) ∈ kept_contours (zip contours levels)) ∧
    polygons_of_contours contours hierarchy gds_layer =
      combine_by_depth gds_layer (zip contours levels) depths [].
Proof.
  intros Hdepth.
  assert (Hlv : Forall2 (λ i lvl, contour_level hierarchy (Z.of_nat i) = Ok lvl)
                        (seq 0 (length contours)) levels).
  { eapply Forall2_impl; [exact Hdepth|].
    intros i lvl (h & row & -> & Hrow & Hd).
    by eapply contour_level_of_depth. }
  unfold polygons_of_contours.
  destruct (collect_polygons_spec hierarchy contours 0 levels ∅ Hlv)
    as (m & Hm & Hlook).
  change (Z.of_nat 0) with 0 in Hm. rewrite Hm. simpl.
  assert (Hlook' : ∀ d, m !! d =
            match polygons_at_depth (zip contours levels) d with
            | [] => None
            | ps => Some ps
            end).
  { intros d. rewrite Hlook, lookup_empty. by destruct (polygons_at_depth _ d). }
  destruct (sorted_keys_spec m) as [Hsorted Hkeys].
  exists (sorted_keys m). split; [done|]. split.
  - intros d. rewrite Hkeys, Hlook'. unfold polygons_at_depth. split.
    + intros Hsome.
      destruct (filter (λ cl, cl.2 = d) (kept_contours (zip contours levels)))
        as [|[c d'] l] eqn:Hf; [by destruct Hsome|].
      assert (Hin : (c, d') ∈ filter (λ cl : contour * Z, cl.2 = d)
                       (kept_contours (zip contours levels)))
        by (rewrite Hf; by left).
      apply list_elem_of_filter in Hin as [Hd Hin]. simpl in Hd. subst d'.
      by exists c.
    + intros [c Hc].
      assert (Hin : (c, d) ∈ filter (λ cl : contour * Z, cl.2 = d)
                       (kept_contours (zip contours levels)))
        by by apply list_elem_of_filter.
      destruct (filter _ _); [by apply elem_of_nil in Hin | done].
  - apply combine_levels_spec; [done|].
    apply Forall_forall. intros d Hd. by apply Hkeys.
Qed.

(** C9: when OpenCV finds no contour in the raster of the device, the
    polygon extraction raises nothing and returns a cell without
    polygons; the hierarchy, which is [None] then, is never read. *)
Theorem to_gdstk_no_contours (σ : store) (self : loc) (name : string)
    (gds_layer : Z * Z) (contour_approx_mode method : Z)
    (a : ndarray float) (hierarchy : option (list hierarchy_row)) :
  to_ndarray self σ = (Ok a, σ) →
  approx_mode_mapping !! contour_approx_mode = Some method →
  cv2_findContours (amap astype_uint8 (flipud a)) RETR_TREE method
    = Ok ([], hierarchy) →
  to_gdstk self name gds_layer contour_approx_mode σ = (Ok (mk_Cell name []), σ).
Proof.
  intros Hto Hmode Hfind. unfold to_gdstk, _device_to_gdstk.
  unfold mbind at 1, M_mbind, M_bind. rewrite Hto.
  unfold mbind at 1, M_bind, lift. rewrite Hmode. simpl.
  unfold mbind at 1, M_bind. rewrite Hfind. simpl.
  unfold mbind at 1, M_bind, polygons_of_contours. simpl.
  unfold sorted_keys. by rewrite map_to_list_empty.
Qed.

End Polygons.

Lemma to_gdstk_no_contours_witness :
  to_gdstk 0%nat "prefab_device" (1, 0) 2 zero_store
    = (Ok (mk_Cell "prefab_device" []), zero_store).
Proof.
  apply (to_gdstk_no_contours zero_store 0%nat "prefab_device" (1, 0) 2 2
           (zeros 3 3) None);
    [vm_compute; reflexivity | reflexivity | reflexivity].
Defined.

Lemma polygons_by_depth_witness :
  (∃ depths,
     StronglySorted Z.lt depths ∧
     (∀ d, d ∈ depths ↔
        ∃ c, (c, d) ∈ kept_contours (zip forest_contours [0; 0; 1; 2])) ∧
     polygons_of_contours (H := stub_backend) forest_contours forest_hierarchy
                          (1, 0)
       = combine_by_depth (1, 0) (zip forest_contours [0; 0; 1; 2]) depths [])
  ∧ polygons_of_contours (H := stub_backend) forest_contours forest_hierarchy
                         (1, 0)
    = Ok [(scale_contour [(13, 3); (16, 3); (16, 6); (13, 6)], "xor");
          (scale_contour [(0, 0); (0, 9); (9, 9); (9, 0)], "or");
          (scale_contour [(10, 0); (10, 9); (19, 9); (19, 0)], "or")].
Proof.
  split; [|vm_compute; reflexivity].
  apply polygons_by_depth.
  constructor; [|constructor; [|constructor; [|constructor; [|constructor]]]];
    eexists _, _; (split; [reflexivity|]); (split; [reflexivity|]).
  - by apply depth_top.
  - by apply depth_top.
  - apply (depth_child _ _ (-1, 0, 2, -1) 0); [done | reflexivity |].
    by apply depth_top.
  - apply (depth_child _ _ (-1, -1, 3, 1) 1); [done | reflexivity |].
    apply (depth_child _ _ (-1, 0, 2, -1) 0); [done | reflexivity |].
    by apply depth_top.
Defined.

(** * The codec *)

Section Codec.

#[local] Arguments table_b2a : simpl never.
#[local] Arguments table_a2b : simpl never.
#[local] Arguments Z.shiftl : simpl never.
#[local] Arguments Z.shiftr : simpl never.
#[local] Arguments Z.land : simpl never.
#[local] Arguments Z.lor : simpl never.
#[local] Arguments Z.pow : simpl never.

(** A property of one or two bytes is checked on all of them. *)
Lemma forall_below (n : Z) (f : Z → bool) :
  forallb f (seqZ 0 n) = true → ∀ x, 0 ≤ x < n → f x = true.
Proof.
  rewrite forallb_forall. intros Hall x Hx.
  apply Hall, list_elem_of_In, elem_of_seqZ. lia.
Qed.

Lemma forall_bytes2 (f : Z → Z → bool) :
  forallb (λ x, forallb (f x) (seqZ 0 256)) (seqZ 0 256) = true →
  ∀ x y, is_byte x → is_byte y → f x y = true.
Proof.
  intros Hall x y Hx Hy.
  apply (forall_below 256 (f x)); [|done].
  by apply (forall_below 256 (λ x, forallb (f x) (seqZ 0 256))).
Qed.

(** The alphabet: a value below 64 is written as a character that is
    not the pad and that reads back as the value. *)
Lemma table_round_trip (i : Z) :
  0 ≤ i < 64 →
  Ascii.eqb (table_b2a i) "="%char = false ∧ table_a2b (table_b2a i) = i.
Proof.
  intros Hi.
  pose proof (forall_below 64
    (λ i, negb (Ascii.eqb (table_b2a i) "="%char)
          && (table_a2b (table_b2a i) =? i))) as Hall.
  specialize (Hall ltac:(vm_compute; reflexivity) i Hi). simpl in Hall.
  apply andb_true_iff in Hall as [H1 H2].
  split; [by apply negb_true_iff | by apply Z.eqb_eq].
Qed.

(** One step of the decoder on a character of the alphabet. *)
Lemma a2b_loop_char (i : Z) (s : string) (q lc p : Z) (out : list Z) :
  0 ≤ i < 64 →
  a2b_loop (String (table_b2a i) s) q lc p out =
    if q =? 0 then a2b_loop s 1 i 0 out
    else if q =? 1 then
      a2b_loop s 2 (Z.land i 15) 0
        (out ++ [Z.land (Z.lor (Z.shiftl lc 2) (Z.shiftr i 4)) 255])
    else if q =? 2 then
      a2b_loop s 3 (Z.land i 3) 0
        (out ++ [Z.land (Z.lor (Z.shiftl lc 4) (Z.shiftr i 2)) 255])
    else
      a2b_loop s 0 0 0 (out ++ [Z.land (Z.lor (Z.shiftl lc 6) i) 255]).
Proof.
  intros Hi. destruct (table_round_trip i Hi) as [Hpad Hval]. simpl.
  rewrite Hpad, Hval.
  destruct (Z.leb_spec 64 i); [lia | done].
Qed.

Lemma sextets_round_trip (x y : Z) :
  is_byte x → is_byte y →
  (0 ≤ sextet1 x < 64 ∧ 0 ≤ sextet2 x y < 64 ∧ 0 ≤ sextet3 x y < 64 ∧
   0 ≤ sextet4 x < 64 ∧ 0 ≤ Z.shiftl (Z.land x 3) 4 < 64 ∧
   0 ≤ Z.shiftl (Z.land x 15) 2 < 64) ∧
  Z.land (Z.lor (Z.shiftl (sextet1 x) 2) (Z.shiftr (sextet2 x y) 4)) 255 = x ∧
  Z.land (sextet2 x y) 15 = Z.shiftr y 4 ∧
  Z.land (Z.lor (Z.shiftl (Z.shiftr x 4) 4) (Z.shiftr (sextet3 x y) 2)) 255 = x ∧
  Z.land (Z.lor (Z.shiftl (Z.land (sextet3 x y) 3) 6) (sextet4 y)) 255 = y ∧
  Z.land (Z.lor (Z.shiftl (sextet1 x) 2)
                (Z.shiftr (Z.shiftl (Z.land x 3) 4) 4)) 255 = x ∧
  Z.land (Z.lor (Z.shiftl (Z.shiftr x 4) 4)
                (Z.shiftr (Z.shiftl (Z.land x 15) 2) 2)) 255 = x.
Proof.
  intros Hx Hy.
  pose proof (forall_bytes2 (λ x y,
    ((0 <=? sextet1 x) && (sextet1 x <? 64) &&
     (0 <=? sextet2 x y) && (sextet2 x y <? 64) &&
     (0 <=? sextet3 x y) && (sextet3 x y <? 64) &&
     (0 <=? sextet4 x) && (sextet4 x <? 64) &&
     (0 <=? Z.shiftl (Z.land x 3) 4) && (Z.shiftl (Z.land x 3) 4 <? 64) &&
     (0 <=? Z.shiftl (Z.land x 15) 2) && (Z.shiftl (Z.land x 15) 2 <? 64)) &&
    (Z.land (Z.lor (Z.shiftl (sextet1 x) 2) (Z.shiftr (sextet2 x y) 4)) 255 =? x) &&
    (Z.land (sextet2 x y) 15 =? Z.shiftr y 4) &&
    (Z.land (Z.lor (Z.shiftl (Z.shiftr x 4) 4)
                   (Z.shiftr (sextet3 x y) 2)) 255 =? x) &&
    (Z.land (Z.lor (Z.shiftl (Z.land (sextet3 x y) 3) 6) (sextet4 y)) 255 =? y) &&
    (Z.land (Z.lor (Z.shiftl (sextet1 x) 2)
                   (Z.shiftr (Z.shiftl (Z.land x 3) 4) 4)) 255 =? x) &&
    (Z.land (Z.lor (Z.shiftl (Z.shiftr x 4) 4)
                   (Z.shiftr (Z.shiftl (Z.land x 15) 2) 2)) 255 =? x))
    ltac:(vm_compute; reflexivity) x y Hx Hy) as Hall.
  simpl in Hall.
  repeat (apply andb_true_iff in Hall as [Hall ?]).
  repeat match goal with
    | H : (_ <=? _) = true |- _ => apply Z.leb_le in H
    | H : (_ <? _) = true |- _ => apply Z.ltb_lt in H
    | H : (_ =? _) = true |- _ => apply Z.eqb_eq in H
    end.
  repeat split; assumption.
Qed.

Lemma b64encode_eq3 (x y z : Z) (b : list Z) :
  b64encode (x :: y :: z :: b) =
    String (table_b2a (sextet1 x)) (String (table_b2a (sextet2 x y))
      (String (table_b2a (sextet3 y z)) (String (table_b2a (sextet4 z))
         (b64encode b)))).
Proof. reflexivity. Qed.

(** Decoding what the encoder wrote gives the bytes back, after any
    output already produced. *)
Lemma a2b_loop_b64encode (n : nat) : ∀ (b out : list Z),
  (length b ≤ n)%nat → Forall is_byte b →
  a2b_loop (b64encode b) 0 0 0 out = Ok (out ++ b).
Proof.
  induction n as [|n IH]; intros b out Hlen Hb.
  - destruct b; [simpl; by rewrite app_nil_r | simpl in Hlen; lia].
  - destruct b as [|x [|y [|z b]]].
    + simpl. by rewrite app_nil_r.
    + apply Forall_cons in Hb as [Hx _].
      destruct (sextets_round_trip x x Hx Hx)
        as ((H1 & _ & _ & _ & H2 & _) & _ & _ & _ & _ & Hb1 & _).
      change (b64encode [x]) with
        (String (table_b2a (sextet1 x))
           (String (table_b2a (Z.shiftl (Z.land x 3) 4)) "==")).
      rewrite !a2b_loop_char by done. simpl. by rewrite Hb1.
    + apply Forall_cons in Hb as [Hx Hb]. apply Forall_cons in Hb as [Hy _].
      destruct (sextets_round_trip x y Hx Hy)
        as ((H1 & H2 & _) & Hb1 & HA & _).
      destruct (sextets_round_trip y y Hy Hy)
        as ((_ & _ & _ & _ & _ & H3) & _ & _ & _ & _ & _ & Hb2).
      change (b64encode [x; y]) with
        (String (table_b2a (sextet1 x)) (String (table_b2a (sextet2 x y))
           (String (table_b2a (Z.shiftl (Z.land y 15) 2)) "="))).
      rewrite !a2b_loop_char by done. simpl.
      rewrite Hb1, HA, Hb2. by rewrite <- app_assoc.
    + apply Forall_cons in Hb as [Hx Hb]. apply Forall_cons in Hb as [Hy Hb].
      apply Forall_cons in Hb as [Hz Hb].
      destruct (sextets_round_trip x y Hx Hy)
        as ((H1 & H2 & _) & Hb1 & HA & _).
      destruct (sextets_round_trip y z Hy Hz)
        as ((_ & _ & H3 & _) & _ & _ & Hb2 & Hb3 & _).
      destruct (sextets_round_trip z z Hz Hz) as ((_ & _ & _ & H4 & _) & _).
      rewrite b64encode_eq3, !a2b_loop_char by done. simpl.
      rewrite Hb1, HA, Hb2, Hb3.
      rewrite IH by (simpl in Hlen; first [lia | done]).
      by rewrite <- !app_assoc.
Qed.

Lemma b64decode_b64encode (b : list Z) :
  Forall is_byte b → b64decode (b64encode b) = Ok b.
Proof.
  intros Hb. unfold b64decode.
  by rewrite (a2b_loop_b64encode (length b)).
Qed.

#[local] Arguments b64encode : simpl never.

Lemma land_255 (x : Z) : Z.land x 255 = x `mod` 256.
Proof. change 255 with (Z.ones 8). by rewrite Z.land_ones. Qed.

Lemma land_255_byte (x : Z) : is_byte (Z.land x 255).
Proof.
  rewrite land_255. unfold is_byte.
  pose proof (Z.mod_pos_bound x 256). lia.
Qed.

Lemma be32_bytes (x : Z) : Forall is_byte (be32 x).
Proof. unfold be32. repeat constructor; apply land_255_byte. Qed.

Lemma le32_bytes (x : Z) : Forall is_byte (le32 x).
Proof. unfold le32. repeat constructor; apply land_255_byte. Qed.

(** The four bytes of a 32-bit word give the word back. *)
Lemma word32_bytes (x : Z) :
  is_word32 x →
  Z.shiftl (Z.land (Z.shiftr x 24) 255) 24
  + Z.shiftl (Z.land (Z.shiftr x 16) 255) 16
  + Z.shiftl (Z.land (Z.shiftr x 8) 255) 8 + Z.land x 255 = x.
Proof.
  unfold is_word32. intros Hx.
  rewrite !land_255, !Z.shiftl_mul_pow2, !Z.shiftr_div_pow2 by lia.
  change (2 ^ 32) with 4294967296 in Hx.
  change (2 ^ 24) with 16777216. change (2 ^ 16) with 65536.
  change (2 ^ 8) with 256.
  Z.div_mod_to_equations. lia.
Qed.

Lemma struct_unpack_pack (h w : Z) :
  is_word32 h → is_word32 w →
  struct_pack_II h w = Ok (be32 h ++ be32 w) ∧
  struct_unpack_II (be32 h ++ be32 w) = Ok (h, w).
Proof.
  intros Hh Hw. split.
  - unfold struct_pack_II, is_word32 in *.
    destruct (Z.leb_spec 0 h), (Z.ltb_spec h (2 ^ 32)), (Z.leb_spec 0 w),
      (Z.ltb_spec w (2 ^ 32)); simpl; first [done | lia].
  - unfold struct_unpack_II, be32. simpl.
    by rewrite (word32_bytes h Hh), (word32_bytes w Hw).
Qed.

Lemma words_le_tobytes (xs : list Z) :
  Forall is_word32 xs → words_le (concat (map le32 xs)) = Ok xs.
Proof.
  induction 1 as [|x xs Hx _ IH]; simpl; [done|].
  rewrite IH. simpl. do 2 f_equal.
  pose proof (word32_bytes x Hx). lia.
Qed.

Lemma chunks_concat {A} (w : nat) (rs : list (list A)) :
  Forall (λ r, length r = w) rs → chunks (length rs) w (concat rs) = rs.
Proof.
  induction 1 as [|r rs Hr _ IH]; simpl; [done|].
  rewrite take_app_length', drop_app_length' by done. by rewrite IH.
Qed.

Lemma length_concat_wf {A} (a : ndarray A) :
  wf_ndarray a → length (ravel a) = (nrows a * ncols a)%nat.
Proof.
  unfold wf_ndarray, ravel, nrows.
  induction 1 as [|r rs Hr _ IH]; simpl; [done|].
  rewrite length_app, IH, Hr. lia.
Qed.

#[local] Arguments b64decode : simpl never.
#[local] Arguments be32 : simpl never.
#[local] Arguments struct_unpack_II : simpl never.
#[local] Arguments words_le : simpl never.

Lemma bind_Ok {A B} (a : A) (f : A → result B) : Ok a ≫= f = f a.
Proof. reflexivity. Qed.

Lemma tobytes_bytes (a : ndarray Z) : Forall is_byte (tobytes a).
Proof.
  unfold tobytes. apply Forall_concat, Forall_forall.
  intros b (x & -> & _)%list_elem_of_fmap. apply le32_bytes.
Qed.

(** C1, amended: for every [float32] raster with at least one row
    whose height and width are below [2^32], the encoding succeeds, it
    is the base64 text of the eight bytes of the big-endian height and
    width followed by the elements in row-major order, and decoding it
    returns the raster, bit for bit. *)
Theorem codec_round_trip (R : ndarray Z) :
  wf_ndarray R →
  (0 < nrows R)%nat →
  Forall is_word32 (ravel R) →
  Z.of_nat (nrows R) < 2 ^ 32 →
  Z.of_nat (ncols R) < 2 ^ 32 →
  ∃ s, _encode_array R = Ok s ∧
    b64decode s = Ok (be32 (Z.of_nat (nrows R)) ++ be32 (Z.of_nat (ncols R))
                      ++ tobytes R) ∧
    _decode_array s = Ok R.
Proof.
  intros Hwf Hne Hbits Hh Hw.
  assert (Hhw : is_word32 (Z.of_nat (nrows R)) ∧ is_word32 (Z.of_nat (ncols R)))
    by (unfold is_word32; lia).
  destruct Hhw as [Hh' Hw'].
  destruct (struct_unpack_pack _ _ Hh' Hw') as [Hpack Hunpack].
  set (header := be32 (Z.of_nat (nrows R)) ++ be32 (Z.of_nat (ncols R))) in *.
  assert (Hlen : length header = 8%nat) by reflexivity.
  assert (Hb64 : b64decode (b64encode (header ++ tobytes R))
                 = Ok (header ++ tobytes R)).
  { apply b64decode_b64encode, Forall_app.
    split; [apply Forall_app; split; apply be32_bytes | apply tobytes_bytes]. }
  exists (b64encode (header ++ tobytes R)). split; [|split].
  - unfold _encode_array, len_first_row.
    destruct (rows R) eqn:Hrows;
      [unfold nrows in Hne; rewrite Hrows in Hne; simpl in Hne; lia|].
    rewrite bind_Ok, Hpack. by rewrite bind_Ok.
  - rewrite Hb64. unfold header. by rewrite <- app_assoc.
  - unfold _decode_array. rewrite Hb64.
    rewrite bind_Ok. unfold np_frombuffer.
    rewrite bool_decide_eq_false_2 by (rewrite length_app, Hlen; lia).
    rewrite <- Hlen at 1. rewrite drop_app_length.
    unfold tobytes. rewrite words_le_tobytes by done. rewrite bind_Ok.
    rewrite <- Hlen. rewrite take_app_length. rewrite Hunpack, bind_Ok.
    unfold set_shape.
    rewrite length_concat_wf by done.
    replace (_ && _ && _) with true
      by (symmetry; rewrite !andb_true_iff, !Z.leb_le, Z.eqb_eq; lia).
    rewrite !Nat2Z.id. unfold ravel, nrows.
    rewrite chunks_concat by done. by destruct R.
Qed.

(** A raster with [2^32] rows or more cannot be encoded: the header
    has no room for its height. *)
Lemma encode_array_too_tall (R : ndarray Z) :
  2 ^ 32 ≤ Z.of_nat (nrows R) → _encode_array R = Raise StructError.
Proof.
  intros Hh. unfold _encode_array, len_first_row.
  destruct (rows R) eqn:Hrows.
  - unfold nrows in Hh. rewrite Hrows in Hh. simpl in Hh. lia.
  - rewrite bind_Ok. unfold struct_pack_II.
    destruct (Z.ltb_spec (Z.of_nat (nrows R)) (2 ^ 32)); [lia|].
    by rewrite andb_false_r.
Qed.

(** C1, as stated, fails on a raster of [2^32] rows: [struct.pack]
    raises a [struct.error] and nothing is encoded. *)
Lemma codec_fails_on_huge_raster :
  wf_ndarray huge_raster ∧ (0 < nrows huge_raster)%nat ∧
  _encode_array huge_raster = Raise StructError ∧
  ¬ ∃ s, _encode_array huge_raster = Ok s ∧ _decode_array s = Ok huge_raster.
Proof.
  assert (Hn : nrows huge_raster = Z.to_nat (2 ^ 32))
    by apply length_replicate.
  assert (Henc : _encode_array huge_raster = Raise StructError).
  { apply encode_array_too_tall. rewrite Hn, Z2Nat.id; lia. }
  split; [|split; [|split]].
  - unfold wf_ndarray, huge_raster, rows, ncols. apply Forall_replicate.
    reflexivity.
  - rewrite Hn. lia.
  - exact Henc.
  - intros (s & Hs & _). rewrite Henc in Hs. discriminate.
Qed.

Lemma codec_round_trip_witness :
  ∃ s, _encode_array sample_bits = Ok s ∧ _decode_array s = Ok sample_bits.
Proof.
  cut (∃ s, _encode_array sample_bits = Ok s ∧
         b64decode s = Ok (be32 (Z.of_nat (nrows sample_bits))
                           ++ be32 (Z.of_nat (ncols sample_bits))
                           ++ tobytes sample_bits) ∧
         _decode_array s = Ok sample_bits).
  { intros (s & Henc & _ & Hdec). by exists s. }
  apply codec_round_trip.
  - unfold wf_ndarray. simpl. repeat constructor.
  - unfold nrows. simpl. lia.
  - unfold is_word32. simpl. repeat constructor; lia.
  - unfold nrows. simpl. lia.
  - simpl. lia.
Defined.

End Codec.

(** * More on [trim] *)

(** When [trim] returns, the array has a nonzero element. *)
Lemma trim_Ok_nonzero (R W : ndarray float) (t : Z) :
  geometry.trim R t = Ok W → ∃ i j, nonzero_at R i j.
Proof.
  unfold geometry.trim, geometry.np_nonzero.
  destruct (geometry.nonzero_rows_from 0 (rows R)) as [|[i j] ix] eqn:Hix;
    [done|].
  intros _. exists i, j. apply elem_of_nonzero. rewrite Hix. by left.
Qed.

(** The slice of the whole of a well-formed array is the array. *)
Lemma slice2_full {A} (W : ndarray A) :
  wf_ndarray W →
  geometry.slice2 W 0 (Z.of_nat (nrows W)) 0 (Z.of_nat (ncols W)) = W.
Proof.
  intros Hwf. destruct W as [w rs]. unfold geometry.slice2, nrows. simpl in *.
  rewrite !slice_index_id by lia. f_equal; [lia|].
  rewrite py_slice_in_range by lia.
  replace (Z.to_nat (Z.of_nat (length rs) - 0)) with (length rs) by lia.
  simpl. rewrite firstn_all.
  rewrite <- (map_id rs) at 2. apply map_ext_in.
  intros r Hr%list_elem_of_In.
  pose proof (proj1 (Forall_forall _ _) Hwf r Hr) as Hlen. simpl in Hlen.
  rewrite py_slice_in_range by lia.
  replace (Z.to_nat (Z.of_nat w - 0)) with (length r) by lia.
  simpl. apply firstn_all.
Qed.

(** The window [trim] cuts, with its offsets: it holds the nonzero
    elements of the array and no other nonzero element. *)
Lemma trim_window (R : ndarray float) (t : Z) :
  wf_ndarray R → 0 ≤ t → (∃ i j, nonzero_at R i j) →
  ∃ r0 r1 c0 c1 lo_r hi_r lo_c hi_c W,
    bounding_box R r0 r1 c0 c1 ∧
    lo_r = Z.max (r0 - t) 0 ∧ hi_r = Z.min (r1 + t + 1) (Z.of_nat (nrows R)) ∧
    lo_c = Z.max (c0 - t) 0 ∧ hi_c = Z.min (c1 + t + 1) (Z.of_nat (ncols R)) ∧
    geometry.trim R t = Ok W ∧
    is_window R lo_r hi_r lo_c hi_c W.
Proof.
  intros Hwf Ht Hnz.
  destruct (trim_Ok R t Hnz) as (r0 & r1 & c0 & c1 & Hbox & Htrim).
  exists r0, r1, c0, c1. do 4 eexists. eexists.
  split; [exact Hbox|]. do 4 (split; [reflexivity|]). split; [exact Htrim|].
  destruct Hbox as (Hin & (i0 & j0 & H0 & <-) & (i1 & j1 & H1 & <-)
                    & (i2 & j2 & H2 & <-) & (i3 & j3 & H3 & <-)).
  pose proof (Hin _ _ H0) as [? _]. pose proof (Hin _ _ H2) as [_ ?].
  pose proof (nonzero_at_bounds _ _ _ Hwf H1) as [? _].
  pose proof (nonzero_at_bounds _ _ _ Hwf H3) as [_ ?].
  apply slice2_window; [done | lia..].
Qed.


(** X2: trimming what [trim] returned, with the same thickness, returns
    it unchanged. *)
Theorem trim_idempotent (R W : ndarray float) (t : Z) :
  wf_ndarray R →
  0 ≤ t →
  geometry.trim R t = Ok W →
  geometry.trim W t = Ok W.
Proof.
  intros Hwf Ht Htrim.
  pose proof (trim_Ok_nonzero _ _ _ Htrim) as Hnz.
  destruct (trim_window R t Hwf Ht Hnz)
    as (r0 & r1 & c0 & c1 & lo_r & hi_r & lo_c & hi_c & W' & Hbox
        & -> & -> & -> & -> & Htrim' & Hwin).
  rewrite Htrim in Htrim'. injection Htrim' as <-.
  destruct Hwin as (Hr & Hr' & Hc & Hc' & HwfW & Hshape & Hget).
  injection Hshape as Hsr Hsc.
  assert (Hto : ∀ i j, nonzero_at R i j →
            Z.max (r0 - t) 0 ≤ Z.of_nat i ∧ Z.max (c0 - t) 0 ≤ Z.of_nat j ∧
            nonzero_at W (i - Z.to_nat (Z.max (r0 - t) 0))
                         (j - Z.to_nat (Z.max (c0 - t) 0))).
  { intros i j Hij. destruct Hbox as (Hin & _).
    pose proof (Hin _ _ Hij) as [? ?].
    pose proof (nonzero_at_bounds _ _ _ Hwf Hij) as [? ?].
    split; [lia|]. split; [lia|].
    destruct Hij as (v & Hv & Hnzv). exists v. split; [|done].
    rewrite Hget by lia. rewrite <- Hv. f_equal; lia. }
  assert (HnzW : ∃ i j, nonzero_at W i j).
  { destruct Hnz as (i & j & Hij). destruct (Hto i j Hij) as (_ & _ & ?).
    eauto. }
  destruct (trim_Ok W t HnzW) as (r0' & r1' & c0' & c1' & Hbox' & ->).
  destruct Hbox as (Hin & (i0 & j0 & H0 & <-) & (i1 & j1 & H1 & <-)
                    & (i2 & j2 & H2 & <-) & (i3 & j3 & H3 & <-)).
  destruct Hbox' as (Hin' & (a0 & b0 & G0 & <-) & (a1 & b1 & G1 & <-)
                     & (a2 & b2 & G2 & <-) & (a3 & b3 & G3 & <-)).
  destruct (Hto _ _ H0) as (L0 & _ & K0). destruct (Hto _ _ H1) as (L1 & _ & K1).
  destruct (Hto _ _ H2) as (_ & L2 & K2). destruct (Hto _ _ H3) as (_ & L3 & K3).
  apply Hin' in K0 as [K0 _]. apply Hin' in K1 as [K1 _].
  apply Hin' in K2 as [_ K2]. apply Hin' in K3 as [_ K3].
  pose proof (nonzero_at_bounds _ _ _ HwfW G1) as [B1 _].
  pose proof (nonzero_at_bounds _ _ _ HwfW G3) as [_ B3].
  pose proof (nonzero_at_bounds _ _ _ Hwf H1) as [E1 _].
  pose proof (nonzero_at_bounds _ _ _ Hwf H3) as [_ E3].
  rewrite Hsr in B1. rewrite Hsc in B3. unfold nrows in E1.
  fold (nrows W). rewrite Hsr, Hsc.
  replace (Z.max (Z.of_nat a0 - t) 0) with 0 by (clear -K0 L0 Ht; lia).
  replace (Z.max (Z.of_nat b2 - t) 0) with 0 by (clear -K2 L2 Ht; lia).
  replace (Z.min (Z.of_nat a1 + t + 1) _) with
    (Z.of_nat (Z.to_nat (Z.min (Z.of_nat i1 + t + 1) (Z.of_nat (nrows R))
                         - Z.max (Z.of_nat i0 - t) 0)))
    by (clear -K1 L1 B1 E1 Ht; unfold nrows in *; lia).
  replace (Z.min (Z.of_nat b3 + t + 1) _) with
    (Z.of_nat (Z.to_nat (Z.min (Z.of_nat j3 + t + 1) (Z.of_nat (ncols R))
                         - Z.max (Z.of_nat j2 - t) 0)))
    by (clear -K3 L3 B3 E3 Ht; lia).
  rewrite <- Hsr, <- Hsc.
  f_equal. by apply slice2_full.
Qed.


Lemma trim_idempotent_witness :
  ∃ W, geometry.trim single_pixel 2 = Ok W ∧ geometry.trim W 2 = Ok W.
Proof.
  eexists. split; [reflexivity|].
  eapply (trim_idempotent single_pixel).
  - unfold wf_ndarray. simpl. repeat constructor.
  - lia.
  - reflexivity.
Defined.

(** * More on [normalize] and on the thresholds *)

Section Floats2.

Ltac float_cases x :=
  destruct x as [[] | [] | | [] ? ?]; simpl in *;
  rewrite ?compare_cont_Eq in *; try discriminate; try reflexivity.

Ltac compare_cases :=
  repeat match goal with
    | H : context [Z.compare ?a ?b] |- _ =>
        destruct (Z.compare_spec a b); simpl in H
    | H : context [Pos.compare ?a ?b] |- _ =>
        destruct (Pos.compare_spec a b); simpl in H
    | |- context [Z.compare ?a ?b] => destruct (Z.compare_spec a b); simpl
    | |- context [Pos.compare ?a ?b] => destruct (Pos.compare_spec a b); simpl
    end;
  try discriminate; try reflexivity; try lia.

(** Two floats that are not NaN are comparable. *)
Lemma SFltb_false_leb (a b : float) :
  is_nan a = false → is_nan b = false →
  SFltb a b = false → SFleb b a = true.
Proof.
  unfold SFltb, SFleb. intros Ha Hb Hlt.
  float_cases a; float_cases b; compare_cases.
Qed.

Lemma fold_fmin_nan_l (xs : list float) :
  fold_left geometry.fmin xs S754_nan = S754_nan.
Proof. induction xs as [|x xs IH]; simpl; [done | exact IH]. Qed.

Lemma fold_fmax_nan_l (xs : list float) :
  fold_left geometry.fmax xs S754_nan = S754_nan.
Proof. induction xs as [|x xs IH]; simpl; [done | exact IH]. Qed.

Lemma fold_fmin_nan (xs : list float) : ∀ m,
  S754_nan ∈ xs → fold_left geometry.fmin xs m = S754_nan.
Proof.
  induction xs as [|x xs IH]; intros m Hin; [by apply elem_of_nil in Hin|].
  simpl. apply elem_of_cons in Hin as [<- | Hin]; [|by apply IH].
  replace (geometry.fmin m S754_nan) with S754_nan
    by (unfold geometry.fmin; by destruct m).
  apply fold_fmin_nan_l.
Qed.

Lemma np_min_nan (R : ndarray float) :
  S754_nan ∈ ravel R → geometry.np_min R = Ok S754_nan.
Proof.
  unfold geometry.np_min. destruct (ravel R) as [|x xs]; intros Hin;
    [by apply elem_of_nil in Hin|].
  f_equal. apply elem_of_cons in Hin as [<- | Hin];
    [apply fold_fmin_nan_l | by apply fold_fmin_nan].
Qed.

Lemma np_max_Ok (R : ndarray float) :
  ravel R ≠ [] → ∃ m, geometry.np_max R = Ok m.
Proof.
  unfold geometry.np_max. destruct (ravel R); [done | eauto].
Qed.

Lemma wf_amap {A B} (f : A → B) (a : ndarray A) :
  wf_ndarray a → wf_ndarray (amap f a).
Proof.
  unfold wf_ndarray, amap. simpl. intros Hwf. apply Forall_forall.
  intros r' (r & -> & Hin)%list_elem_of_fmap. rewrite length_map.
  by apply (proj1 (Forall_forall _ _) Hwf).
Qed.

(** X3: [normalize] raises, a [ValueError], exactly on an array without
    elements; on every other array it returns an array of the same
    shape. *)
Theorem normalize_raises_iff_empty (t : dtype) (R : ndarray float) :
  (ravel R = [] → geometry.normalize t R = Raise ValueError) ∧
  (ravel R ≠ [] →
   ∃ W, geometry.normalize t R = Ok W ∧ shape W = shape R ∧
        (wf_ndarray R → wf_ndarray W)).
Proof.
  unfold geometry.normalize, geometry.np_min, geometry.np_max. split.
  - intros ->. reflexivity.
  - intros Hne. destruct (ravel R) as [|x xs]; [done|]. simpl.
    eexists. split; [reflexivity|]. split; [apply shape_amap | apply wf_amap].
Qed.

(** X4: one NaN in the array makes every element of the result a NaN. *)
Theorem normalize_nan_everywhere (t : dtype) (R : ndarray float) :
  S754_nan ∈ ravel R →
  geometry.normalize t R = Ok (amap (λ _, S754_nan) R).
Proof.
  intros Hnan. unfold geometry.normalize. rewrite (np_min_nan R Hnan).
  destruct (np_max_Ok R) as [hi ->].
  { intros Hnil. rewrite Hnil in Hnan. by apply elem_of_nil in Hnan. }
  simpl. f_equal. apply amap_ext. intros v.
  replace (SFsub (prec t) (emax t) v S754_nan) with S754_nan
    by (by destruct v as [[] | [] | | [] ? ?]).
  reflexivity.
Qed.

Lemma SFleb_trans (a b c : float) :
  SFleb a b = true → SFleb b c = true → SFleb a c = true.
Proof.
  unfold SFleb. intros Hab Hbc.
  float_cases a; float_cases b; float_cases c; compare_cases.
Qed.

(** X5: with the second threshold at or below the first, both as numpy
    takes them in the format [t] of the array (themselves on a
    [float64] array), and without a NaN among the elements,
    [ternarize] is [binarize_hard] with the first threshold: the level
    [0.5] is not used. *)
Theorem ternarize_crossed_thresholds (t : dtype) (R : ndarray float)
    (eta1 eta2 : float) :
  SFleb (python_float t eta2) (python_float t eta1) = true →
  Forall (λ v, is_nan v = false) (ravel R) →
  geometry.ternarize t R eta1 eta2 = geometry.binarize_hard t R eta1.
Proof.
  intros Heta Hall. unfold geometry.ternarize, geometry.binarize_hard.
  generalize dependent (python_float t eta1). intros e1.
  generalize dependent (python_float t eta2). intros e2 Heta.
  assert (Hnan : is_nan e1 = false).
  { unfold SFleb in Heta. by float_cases e2; float_cases e1. }
  apply amap_ext_ravel. eapply Forall_impl; [exact Hall|].
  intros v Hv. simpl in *. destruct (SFltb v e1) eqn:Hlt; [done|].
  by rewrite (SFleb_trans e2 e1 v Heta (SFltb_false_leb v e1 Hv Hnan Hlt)).
Qed.

End Floats2.

Lemma normalize_nan_everywhere_witness :
  geometry.normalize float32 (mk_ndarray 2 [[f_one; S754_nan]; [f_zero; f_half]])
    = Ok (mk_ndarray 2 [[S754_nan; S754_nan]; [S754_nan; S754_nan]]).
Proof.
  apply (normalize_nan_everywhere float32
           (mk_ndarray 2 [[f_one; S754_nan]; [f_zero; f_half]])).
  right. by left.
Defined.

Lemma ternarize_crossed_thresholds_witness :
  SFleb f_zero f_half = true ∧
  geometry.ternarize float64 single_pixel f_half f_zero
    = geometry.binarize_hard float64 single_pixel f_half.
Proof.
  split; [reflexivity|].
  apply ternarize_crossed_thresholds; [reflexivity|].
  unfold ravel. simpl. repeat constructor.
Defined.

(** * [is_binary] *)

Section IsBinary.

Ltac float_cases x :=
  destruct x as [[] | [] | | [] ? ?]; simpl in *;
  rewrite ?compare_cont_Eq in *; try discriminate; try reflexivity.

Ltac compare_cases :=
  repeat match goal with
    | H : context [Z.compare ?a ?b] |- _ =>
        destruct (Z.compare_spec a b); simpl in H
    | H : context [Pos.compare ?a ?b] |- _ =>
        destruct (Pos.compare_spec a b); simpl in H
    | |- context [Z.compare ?a ?b] => destruct (Z.compare_spec a b); simpl
    | |- context [Pos.compare ?a ?b] => destruct (Pos.compare_spec a b); simpl
    end;
  try discriminate; try reflexivity; try lia.

(** [==] on floats is symmetric and transitive. *)
Lemma SFeqb_sym (a b : float) : SFeqb a b = true → SFeqb b a = true.
Proof.
  unfold SFeqb. destruct (SFcompare a b) as [c|] eqn:Hc; [|done].
  rewrite (SFcompare_swap _ _ _ Hc). by destruct c.
Qed.

Lemma SFeqb_trans (a b c : float) :
  SFeqb a b = true → SFeqb b c = true → SFeqb a c = true.
Proof.
  unfold SFeqb. intros Hab Hbc.
  float_cases a; float_cases b; float_cases c; compare_cases.
Qed.

(** A float equals zero when it is one of the two zeros, and it equals
    a positive finite float only when it is that float. *)
Lemma SFeqb_zero (v : float) (s : bool) :
  SFeqb v (S754_zero s) = true ↔ ∃ s', v = S754_zero s'.
Proof.
  split.
  - unfold SFeqb. intros Hv. float_cases v; eauto.
  - intros [s' ->]. reflexivity.
Qed.

Lemma SFeqb_finite (v : float) (s : bool) (m : positive) (e : Z) :
  SFeqb v (S754_finite s m e) = true ↔ v = S754_finite s m e.
Proof.
  split.
  - unfold SFeqb. intros Hv. float_cases v; destruct s; simpl in *;
      try discriminate; compare_cases; subst; try discriminate;
      repeat match goal with
        | H : (_ ?= _)%positive = Eq |- _ => apply Pos.compare_eq in H
        end; by subst.
  - intros ->. unfold SFeqb. simpl. rewrite compare_cont_Eq.
    destruct s; by rewrite Z.compare_refl, Pos.compare_refl.
Qed.

Lemma SFeqb_refl (v : float) : is_nan v = false → SFeqb v v = true.
Proof.
  unfold SFeqb. intros Hv. float_cases v;
    by rewrite Z.compare_refl, Pos.compare_refl.
Qed.

#[local] Instance sort_le_total : Total sort_le.
Proof.
  intros x y. unfold sort_le.
  destruct (is_nan y) eqn:Hy; [by left|].
  destruct (is_nan x) eqn:Hx; [by right|]. simpl.
  destruct (SFltb y x) eqn:Hlt.
  - right. unfold SFltb, SFleb in *. by destruct (SFcompare y x) as [[]|].
  - left. by rewrite (SFltb_false_leb y x Hy Hx Hlt).
Qed.

#[local] Instance sort_le_trans : Transitive sort_le.
Proof.
  intros x y z. unfold sort_le, SFleb. intros Hxy Hyz.
  apply Is_true_true in Hxy, Hyz. apply Is_true_true.
  float_cases x; float_cases y; float_cases z; compare_cases.
Qed.

(** The elements of the array and those of [np.unique]: the sorted list
    is a permutation, and every element equals one that is kept. *)
Lemma same_value_refl (x : float) : same_value x x.
Proof.
  unfold same_value. destruct (is_nan x) eqn:Hx; [by left|].
  right. by apply SFeqb_refl.
Qed.

Lemma SFeqb_not_nan (x y : float) :
  SFeqb x y = true → is_nan x = false ∧ is_nan y = false.
Proof. unfold SFeqb. by float_cases x; float_cases y. Qed.

Lemma same_value_trans (x y z : float) :
  same_value x y → same_value y z → same_value x z.
Proof.
  intros [[Hx Hy] | Hxy] [[Hy' Hz] | Hyz].
  - by left.
  - apply SFeqb_not_nan in Hyz as [? _]. congruence.
  - apply SFeqb_not_nan in Hxy as [_ ?]. congruence.
  - right. by eapply SFeqb_trans.
Qed.

Lemma starts_run_false (prev y : float) :
  starts_run prev y = false → same_value y prev.
Proof.
  unfold starts_run, same_value. destruct (is_nan y) eqn:Hy.
  - intros Hp%negb_false_iff. by left.
  - intros Heq%negb_false_iff. by right.
Qed.

Lemma unique_from_covers (l : list float) : ∀ prev x,
  x ∈ l →
  same_value x prev ∨ ∃ y, y ∈ unique_from prev l ∧ same_value x y.
Proof.
  induction l as [|y l IH]; intros prev x Hx; [by apply elem_of_nil in Hx|].
  simpl. apply elem_of_cons in Hx as [-> | Hx].
  - destruct (starts_run prev y) eqn:Hrun.
    + right. exists y. split; [by left | apply same_value_refl].
    + left. by apply starts_run_false.
  - destruct (IH y x Hx) as [Hxy | (z & Hz & Hxz)].
    + destruct (starts_run prev y) eqn:Hrun.
      * right. exists y. split; [by left | done].
      * left. eapply same_value_trans; [exact Hxy|].
        by apply starts_run_false.
    + right. exists z. split; [|done].
      destruct (starts_run prev y); [by right | done].
Qed.

Lemma np_unique_covers (a : ndarray float) (x : float) :
  x ∈ ravel a → ∃ y, y ∈ np_unique a ∧ same_value x y.
Proof.
  intros Hx. unfold np_unique, np_sort.
  assert (Hin : x ∈ merge_sort sort_le (ravel a))
    by by rewrite merge_sort_Permutation.
  destruct (merge_sort sort_le (ravel a)) as [|x0 l];
    [by apply elem_of_nil in Hin|].
  apply elem_of_cons in Hin as [-> | Hin].
  - exists x0. split; [by left | apply same_value_refl].
  - destruct (unique_from_covers l x0 x Hin) as [Hx0 | (y & Hy & Hxy)].
    + exists x0. split; [by left | done].
    + exists y. split; [by right | done].
Qed.

Lemma values_equal_Forall2 (u v : list float) :
  values_equal u v = true ↔ Forall2 (λ x y, SFeqb x y = true) u v.
Proof.
  unfold values_equal. rewrite andb_true_iff, bool_decide_eq_true. split.
  - intros [Hlen Hall]. revert v Hlen Hall.
    induction u as [|x u IH]; intros [|y v] Hlen Hall; simpl in *;
      try discriminate; [constructor|].
    apply andb_true_iff in Hall as [Hxy Hall].
    constructor; [done|]. apply IH; [lia | done].
  - induction 1 as [|x y u v Hxy _ [Hlen Hall]]; [done|]. simpl.
    split; [by rewrite Hlen|]. by rewrite Hxy.
Qed.

(** A sorted run of zeros and ones: the zeros come first, and
    [np.unique] keeps one of each. *)
Section Sorted.
Variables (m : positive) (e : Z).
#[local] Abbreviation one := (S754_finite false m e).

Lemma unique_from_sorted (l : list float) : ∀ prev,
  StronglySorted sort_le (prev :: l) → Forall (zero_or one) (prev :: l) →
  (prev = one → unique_from prev l = []) ∧
  ((∃ s, prev = S754_zero s) →
   unique_from prev l = [] ∨ unique_from prev l = [one]).
Proof.
  induction l as [|y l IH]; intros prev Hs Hb; [by split; [|left]|].
  apply StronglySorted_inv in Hs as [Hs Hle].
  apply Forall_cons in Hb as [Hp Hb].
  apply Forall_cons in Hle as [Hpy _].
  destruct (IH y Hs Hb) as [IH1 IH2].
  pose proof Hb as [Hy _]%Forall_cons. simpl. split.
  - intros ->. destruct Hy as [[s ->] | ->].
    + by destruct s.
    + unfold starts_run, SFeqb. simpl.
      rewrite Z.compare_refl, Pos.compare_refl. simpl. by apply IH1.
  - intros [s ->]. destruct Hy as [[s' ->] | ->].
    + unfold starts_run, SFeqb. simpl. apply IH2. by exists s'.
    + unfold starts_run, SFeqb. simpl. right.
      exact (f_equal (cons one) (IH1 eq_refl)).
Qed.

Lemma np_unique_sorted (a : ndarray float) :
  ravel a ≠ [] → Forall (zero_or one) (ravel a) →
  ∃ s, np_unique a = [S754_zero s] ∨ np_unique a = [one]
       ∨ np_unique a = [S754_zero s; one].
Proof.
  intros Hne Hb. unfold np_unique, np_sort.
  pose proof (StronglySorted_merge_sort sort_le (ravel a)) as Hs.
  pose proof (merge_sort_Permutation sort_le (ravel a)) as Hp.
  rewrite <- Hp in Hb.
  destruct (merge_sort sort_le (ravel a)) as [|x l].
  { apply Permutation_nil_l in Hp. done. }
  destruct (unique_from_sorted l x Hs Hb) as [H1 H2].
  pose proof Hb as [[[s ->] | ->] _]%Forall_cons.
  - exists s. destruct H2 as [-> | ->]; [by exists s | by left | by right; right].
  - exists false. right; left. by rewrite H1.
Qed.

Lemma zero_or_one_iff (t : dtype) (v : float) :
  float_in t 0 = S754_zero false → float_in t 1 = one →
  zero_or_one t v ↔ zero_or one v.
Proof.
  intros H0 H1. unfold zero_or_one, zero_or.
  by rewrite H0, H1, SFeqb_zero, SFeqb_finite.
Qed.

Lemma array_is_binary_iff (t : dtype) (a : ndarray float) :
  float_in t 0 = S754_zero false → float_in t 1 = one →
  array_is_binary t a = true
  ↔ ravel a ≠ [] ∧ Forall (zero_or_one t) (ravel a).
Proof.
  intros H0 H1. split.
  - intros Hb.
    assert (Hu : np_unique a ≠ [] ∧ Forall (zero_or_one t) (np_unique a)).
    { unfold array_is_binary in Hb. cbv zeta in Hb.
      rewrite !orb_true_iff, !values_equal_Forall2 in Hb.
      unfold zero_or_one. generalize dependent (np_unique a). intros U Hb.
      destruct Hb as [[[Hb | Hb] | Hb] | Hb];
        repeat match goal with
          | H : Forall2 _ _ (_ :: _) |- _ =>
              apply Forall2_cons_inv_r in H as (? & ? & ? & ? & ?)
          | H : Forall2 _ _ [] |- _ => apply Forall2_nil_inv_r in H
          end; subst;
        (split; [done|]); repeat apply Forall_cons_2;
        try apply Forall_nil_2; auto. }
    destruct Hu as [Hne Hall]. split.
    + intros Hr. apply Hne. unfold np_unique, np_sort. by rewrite Hr.
    + apply Forall_forall. intros x Hx.
      destruct (np_unique_covers a x Hx) as (y & Hy & Hxy).
      rewrite Forall_forall in Hall. specialize (Hall y Hy).
      assert (Hxy' : SFeqb x y = true).
      { destruct Hxy as [[_ Hnan] | Hxy]; [|done].
        destruct Hall as [Hall | Hall];
          apply SFeqb_not_nan in Hall as [? _]; congruence. }
      destruct Hall as [Hall | Hall]; [left | right];
        by eapply SFeqb_trans.
  - intros [Hne Hall].
    assert (Hall' : Forall (zero_or one) (ravel a)).
    { eapply Forall_impl; [exact Hall|]. intros v. by apply zero_or_one_iff. }
    destruct (np_unique_sorted a Hne Hall') as (s & [Hu | [Hu | Hu]]);
      unfold array_is_binary; cbv zeta; rewrite Hu, H0, H1;
      unfold values_equal, SFeqb; simpl;
      rewrite ?Z.compare_refl, ?Pos.compare_refl; simpl;
      rewrite ?orb_true_r; reflexivity.
Qed.

End Sorted.

(** X6: on a [float32] or [float64] array, [is_binary] returns [True]
    exactly when the array has an element and holds nothing but zeros
    and ones. *)
Theorem is_binary_iff (t : dtype) (a : ndarray float) :
  t = float32 ∨ t = float64 →
  has_dtype t a →
  array_is_binary t a = true
  ↔ ravel a ≠ [] ∧ Forall (zero_or_one t) (ravel a).
Proof.
  intros [-> | ->] _; eapply array_is_binary_iff; reflexivity.
Qed.

End IsBinary.

(** * [is_binary] after a threshold *)

Section IsBinaryDevice.
Context `{Backend}.

#[local] Arguments amap : simpl never.
#[local] Arguments array_is_binary : simpl never.

Lemma ravel_amap {A B} (f : A → B) (a : ndarray A) :
  ravel (amap f a) = map f (ravel a).
Proof.
  unfold ravel, amap. cbn. induction (rows a) as [|r rs IH]; [done|].
  simpl. by rewrite map_app, IH.
Qed.

(** X7: a [Device] made by [binarize_hard] from one whose array has an
    element is binary: the call returns a new [Device], and [is_binary]
    on it returns [True]. *)
Theorem binarize_hard_is_binary (σ : store) (self : loc) (d : Device)
    (eta : float) :
  devices σ !! self = Some d →
  ravel (device_array d) ≠ [] →
  ∃ l σ', binarize_hard self eta σ = (Ok l, σ')
          ∧ is_binary l σ' = (Ok true, σ').
Proof.
  intros Hself Hne.
  unfold binarize_hard, model_copy. repeat (mstep; rewrite ?Hself; simpl).
  eexists _, _. split; [reflexivity|].
  unfold is_binary. repeat (mstep; simpl). do 2 f_equal.
  eapply (array_is_binary_iff 4503599627370496 (-52)); [reflexivity..|].
  unfold geometry.binarize_hard. rewrite ravel_amap. split.
  - destruct (ravel (device_array d)); done.
  - apply Forall_fmap, Forall_forall. intros v _. simpl.
    destruct (SFltb v _); [by left | by right].
Qed.

End IsBinaryDevice.

Lemma is_binary_iff_witness :
  has_dtype float64 checker ∧
  ravel checker ≠ [] ∧
  Forall (zero_or_one float64) (ravel checker) ∧
  array_is_binary float64 checker = true.
Proof.
  assert (Hd : has_dtype float64 checker).
  { unfold has_dtype, ravel. simpl. repeat constructor. }
  assert (Hne : ravel checker ≠ []) by done.
  assert (Hall : Forall (zero_or_one float64) (ravel checker)).
  { unfold ravel. simpl.
    repeat (apply Forall_cons_2; [(by left) || (by right)|]).
    apply Forall_nil_2. }
  split; [exact Hd|]. split; [exact Hne|]. split; [exact Hall|].
  apply (is_binary_iff float64 checker (or_intror eq_refl) Hd).
  split; [exact Hne | exact Hall].
Defined.

Lemma binarize_hard_is_binary_witness :
  ∃ l σ', binarize_hard 0%nat f_half zero_store = (Ok l, σ')
          ∧ is_binary l σ' = (Ok true, σ').
Proof.
  apply (binarize_hard_is_binary zero_store 0%nat
           (mk_Device (zeros 3 3) float32 0%nat) f_half);
    [reflexivity | by vm_compute].
Defined.

(** * The content of the buffer *)

Section BufferContent.
Context `{Backend}.

#[local] Arguments np_pad : simpl never.
#[local] Arguments geometry.slice2 : simpl never.
#[local] Arguments amap : simpl never.

Lemma mapM_result_map {A B} (f : A → result B) (g : A → B) (l : list A) :
  (∀ x, x ∈ l → f x = Ok (g x)) → mapM_result f l = Ok (map g l).
Proof.
  induction l as [|x l IH]; intros Hf; [done|]. simpl.
  rewrite (Hf x) by by left. simpl.
  rewrite IH; [done|]. intros y Hy. apply Hf. by right.
Qed.

Lemma map_replicate {A B} (f : A → B) (n : nat) (x : A) :
  map f (replicate n x) = replicate n (f x).
Proof. induction n as [|n IH]; [done|]. simpl. by rewrite IH. Qed.

Lemma pad_edge_list_eq {A} (d : A) (b a : nat) (l : list A) :
  l ≠ [] →
  pad_edge_list b a l
    = Ok (replicate b (default d (head l)) ++ l
          ++ replicate a (default d (last l))).
Proof.
  intros Hne. unfold pad_edge_list. destruct l as [|x l]; [done|].
  destruct (last (x :: l)) as [y|] eqn:Hlast; [done|].
  by apply last_None in Hlast.
Qed.

(** [np.pad] in closed form, for the two modes. *)
Lemma np_pad_rows (a : ndarray float) (b0 a0 b1 a1 : Z) (m : string) :
  wf_ndarray a →
  0 ≤ b0 → 0 ≤ a0 → 0 ≤ b1 → 0 ≤ a1 →
  m = "constant" ∨ (m = "edge" ∧ (0 < nrows a)%nat ∧ (0 < ncols a)%nat) →
  np_pad a ((b0, a0), (b1, a1)) m =
    Ok (mk_ndarray (Z.to_nat b1 + ncols a + Z.to_nat a1)
          (map (λ r, replicate (Z.to_nat b1) (fill_value m (head r)) ++ r
                     ++ replicate (Z.to_nat a1) (fill_value m (last r)))
               (replicate (Z.to_nat b0) (fill_row m (ncols a) (head (rows a)))
                ++ rows a
                ++ replicate (Z.to_nat a0)
                     (fill_row m (ncols a) (last (rows a)))))).
Proof.
  intros Hwf Hb0 Ha0 Hb1 Ha1 Hm. unfold np_pad.
  replace ((b0 <? 0) || (a0 <? 0) || (b1 <? 0) || (a1 <? 0)) with false
    by (symmetry; rewrite !orb_false_iff, !Z.ltb_ge; lia).
  destruct Hm as [-> | (-> & Hr & Hc)].
  - rewrite bool_decide_eq_true_2 by done. do 2 f_equal.
    unfold fill_value, fill_row. rewrite !bool_decide_eq_true_2 by done.
    rewrite !map_app, !map_replicate, !replicate_add.
    by rewrite <- !(assoc_L (++)).
  - rewrite bool_decide_eq_false_2 by done.
    rewrite bool_decide_eq_true_2 by done.
    rewrite bool_decide_eq_false_2 by lia.
    assert (Hne : rows a ≠ []).
    { unfold nrows in Hr. destruct (rows a); [simpl in Hr; lia | done]. }
    rewrite (pad_edge_list_eq [] _ _ _ Hne). rewrite bind_Ok.
    unfold fill_value, fill_row. rewrite !bool_decide_eq_false_2 by done.
    erewrite mapM_result_map; [reflexivity|].
    intros r Hin. apply pad_edge_list_eq.
    assert (Hlen : length r = ncols a).
    { unfold wf_ndarray in Hwf. rewrite !elem_of_app in Hin.
      destruct Hin as [Hin | [Hin | Hin]].
      - apply elem_of_replicate in Hin as [-> _].
        destruct (rows a) as [|r0 rs] eqn:E; [done|]. simpl.
        by apply Forall_cons in Hwf as [? _].
      - by apply (proj1 (Forall_forall _ _) Hwf).
      - apply elem_of_replicate in Hin as [-> _].
        destruct (last (rows a)) as [y|] eqn:Hlast;
          [|by apply last_None in Hlast].
        simpl. apply last_Some in Hlast as [l' Hl'].
        apply (proj1 (Forall_forall _ _) Hwf). rewrite Hl'.
        apply elem_of_app. right. by left. }
    intros ->. simpl in Hlen. lia.
Qed.

Lemma map_app_nil {A} (l : list (list A)) : map (λ r, r ++ []) l = l.
Proof.
  induction l as [|r l IH]; [done|]. simpl. by rewrite app_nil_r, IH.
Qed.

(** The four paddings of [_initial_processing], one side each. *)
Lemma np_pad_top (a : ndarray float) (t : Z) (m : string) :
  wf_ndarray a → 0 ≤ t →
  m = "constant" ∨ (m = "edge" ∧ (0 < nrows a)%nat ∧ (0 < ncols a)%nat) →
  ∃ a', np_pad a ((t, 0), (0, 0)) m = Ok a' ∧ wf_ndarray a' ∧
        ncols a' = ncols a ∧
        rows a' = replicate (Z.to_nat t) (fill_row m (ncols a) (head (rows a)))
                  ++ rows a.
Proof.
  intros Hwf Ht Hm.
  destruct (np_pad_shape a t 0 0 0 m) as (a' & Ha' & Hwf' & _ & Hc);
    [done | lia.. | done |].
  exists a'. split; [done|]. split; [done|]. split; [simpl in Hc; lia|].
  rewrite np_pad_rows in Ha' by (done || lia).
  injection Ha' as <-. simpl. by rewrite map_app_nil, app_nil_r.
Qed.

Lemma np_pad_bottom (a : ndarray float) (t : Z) (m : string) :
  wf_ndarray a → 0 ≤ t →
  m = "constant" ∨ (m = "edge" ∧ (0 < nrows a)%nat ∧ (0 < ncols a)%nat) →
  ∃ a', np_pad a ((0, t), (0, 0)) m = Ok a' ∧ wf_ndarray a' ∧
        ncols a' = ncols a ∧
        rows a' = rows a
                  ++ replicate (Z.to_nat t) (fill_row m (ncols a) (last (rows a))).
Proof.
  intros Hwf Ht Hm.
  destruct (np_pad_shape a 0 t 0 0 m) as (a' & Ha' & Hwf' & _ & Hc);
    [done | lia.. | done |].
  exists a'. split; [done|]. split; [done|]. split; [simpl in Hc; lia|].
  rewrite np_pad_rows in Ha' by (done || lia).
  injection Ha' as <-. simpl. by rewrite map_app_nil.
Qed.

Lemma np_pad_left (a : ndarray float) (t : Z) (m : string) :
  wf_ndarray a → 0 ≤ t →
  m = "constant" ∨ (m = "edge" ∧ (0 < nrows a)%nat ∧ (0 < ncols a)%nat) →
  ∃ a', np_pad a ((0, 0), (t, 0)) m = Ok a' ∧ wf_ndarray a' ∧
        ncols a' = (Z.to_nat t + ncols a)%nat ∧
        rows a' = map (λ r, replicate (Z.to_nat t) (fill_value m (head r)) ++ r)
                      (rows a).
Proof.
  intros Hwf Ht Hm.
  destruct (np_pad_shape a 0 0 t 0 m) as (a' & Ha' & Hwf' & _ & Hc);
    [done | lia.. | done |].
  exists a'. split; [done|]. split; [done|]. split; [simpl in Hc; lia|].
  rewrite np_pad_rows in Ha' by (done || lia).
  injection Ha' as <-. simpl. rewrite app_nil_r.
  apply map_ext. intros r. by rewrite app_nil_r.
Qed.

Lemma np_pad_right (a : ndarray float) (t : Z) (m : string) :
  wf_ndarray a → 0 ≤ t →
  m = "constant" ∨ (m = "edge" ∧ (0 < nrows a)%nat ∧ (0 < ncols a)%nat) →
  ∃ a', np_pad a ((0, 0), (0, t)) m = Ok a' ∧ wf_ndarray a' ∧
        ncols a' = (ncols a + Z.to_nat t)%nat ∧
        rows a' = map (λ r, r ++ replicate (Z.to_nat t) (fill_value m (last r)))
                      (rows a).
Proof.
  intros Hwf Ht Hm.
  destruct (np_pad_shape a 0 0 0 t m) as (a' & Ha' & Hwf' & _ & Hc);
    [done | lia.. | done |].
  exists a'. split; [done|]. split; [done|]. split; [simpl in Hc; lia|].
  rewrite np_pad_rows in Ha' by (done || lia).
  injection Ha' as <-. simpl. by rewrite app_nil_r.
Qed.

(** What [_initial_processing] leaves in the array, side by side. *)
Lemma initial_processing_rows (σ : store) (self l : loc) (R : ndarray float)
    (t : dtype) (bs : BufferSpec) (mt mb ml mr : string) :
  devices σ !! self = Some (mk_Device R t l) →
  specs σ !! l = Some bs →
  BufferSpec_validate bs = Ok bs →
  mode bs !! "top" = Some mt → mode bs !! "bottom" = Some mb →
  mode bs !! "left" = Some ml → mode bs !! "right" = Some mr →
  wf_ndarray R → (0 < nrows R)%nat → (0 < ncols R)%nat →
  let n := Z.to_nat (thickness bs) in
  ∃ A1 A2 A3 A4,
    _initial_processing self σ =
      (Ok tt, mk_store (specs σ)
                (<[self := mk_Device (amap astype_float32 A4) float32 l]>
                   (devices σ))
                (rng σ)) ∧
    rows A1 = replicate n (fill_row mt (ncols R) (head (rows R))) ++ rows R ∧
    rows A2 = rows A1 ++ replicate n (fill_row mb (ncols R) (last (rows A1))) ∧
    rows A3 = map (λ r, replicate n (fill_value ml (head r)) ++ r) (rows A2) ∧
    rows A4 = map (λ r, r ++ replicate n (fill_value mr (last r))) (rows A3) ∧
    ncols A4 = (n + ncols R + n)%nat ∧
    wf_ndarray A4.
Proof.
  intros Hself Hl Hvalid Ht Hb Hle Hri Hwf Hr Hc n.
  unfold BufferSpec_validate in Hvalid.
  destruct (check_mode (mode bs)) eqn:Hcheck; [|done].
  destruct (Z.ltb_spec 0 (thickness bs)) as [Hth|]; [clear Hvalid|done].
  pose proof (check_mode_lookup _ _ _ Hcheck Ht) as Hmt.
  pose proof (check_mode_lookup _ _ _ Hcheck Hb) as Hmb.
  pose proof (check_mode_lookup _ _ _ Hcheck Hle) as Hml.
  pose proof (check_mode_lookup _ _ _ Hcheck Hri) as Hmr.
  unfold _initial_processing.
  repeat (mstep; rewrite ?Hself, ?Hl, ?Ht, ?Hb, ?Hle, ?Hri; simpl).
  destruct (np_pad_top R (thickness bs) mt) as (A1 & -> & Hwf1 & Hc1 & Hr1);
    [done | lia | |].
  { destruct Hmt as [-> | ->]; [by left | right; done]. }
  assert (Hn1 : (0 < nrows A1)%nat).
  { unfold nrows in *. rewrite Hr1, length_app. lia. }
  repeat (mstep; rewrite ?Hself, ?Hl, ?Ht, ?Hb, ?Hle, ?Hri; simpl).
  destruct (np_pad_bottom A1 (thickness bs) mb) as (A2 & -> & Hwf2 & Hc2 & Hr2);
    [done | lia | |].
  { destruct Hmb as [-> | ->]; [by left | right; split; [done | lia]]. }
  assert (Hn2 : (0 < nrows A2)%nat).
  { unfold nrows in *. rewrite Hr2, length_app. lia. }
  repeat (mstep; rewrite ?Hself, ?Hl, ?Ht, ?Hb, ?Hle, ?Hri; simpl).
  destruct (np_pad_left A2 (thickness bs) ml) as (A3 & -> & Hwf3 & Hc3 & Hr3);
    [done | lia | |].
  { destruct Hml as [-> | ->]; [by left | right; split; [done | lia]]. }
  assert (Hn3 : (0 < nrows A3)%nat).
  { unfold nrows in *. rewrite Hr3, length_map. lia. }
  repeat (mstep; rewrite ?Hself, ?Hl, ?Ht, ?Hb, ?Hle, ?Hri; simpl).
  destruct (np_pad_right A3 (thickness bs) mr) as (A4 & -> & Hwf4 & Hc4 & Hr4);
    [done | lia | |].
  { destruct Hmr as [-> | ->]; [by left | right; split; [done | lia]]. }
  repeat (mstep; rewrite ?Hself, ?Hl, ?Ht, ?Hb, ?Hle, ?Hri; simpl).
  rewrite !insert_insert_eq.
  exists A1, A2, A3, A4. split; [done|].
  rewrite Hc1 in Hr2. do 4 (split; [done|]). split; [unfold n; lia | done].
Qed.

End BufferContent.

Section Crop.

Lemma py_slice_map {A B} (f : A → B) (l : list A) (lo hi : Z) :
  geometry.py_slice (map f l) lo hi = map f (geometry.py_slice l lo hi).
Proof.
  unfold geometry.py_slice. rewrite length_map.
  by rewrite <- firstn_map, <- skipn_map.
Qed.

(** A slice that drops a prefix, a suffix, both or none. *)
Lemma py_slice_crop {A} (X M Y : list A) (ka kb : bool) :
  geometry.py_slice (X ++ M ++ Y)
    (if ka then 0 else Z.of_nat (length X))
    (Z.of_nat (length X + length M + length Y)
     - (if kb then 0 else Z.of_nat (length Y)))
  = (if ka then X else []) ++ M ++ (if kb then Y else []).
Proof.
  rewrite py_slice_in_range
    by (rewrite ?length_app; destruct ka, kb; lia).
  destruct ka, kb; simpl.
  - rewrite drop_0, take_ge; [done|]. rewrite !length_app. lia.
  - rewrite drop_0. rewrite (assoc_L (++)), app_nil_r.
    rewrite take_app_length'; [done|]. rewrite length_app. lia.
  - rewrite Nat2Z.id, drop_app_length.
    rewrite take_ge; [done|]. rewrite length_app. lia.
  - rewrite Nat2Z.id, drop_app_length, app_nil_r.
    rewrite take_app_length'; [done|]. lia.
Qed.

(** The same with the bounds [to_ndarray] computes from the modes. *)
Lemma py_slice_modes {A} (m1 m2 : string) (t : Z) (X M Y : list A) (N : Z) :
  m1 = "constant" ∨ m1 = "edge" → m2 = "constant" ∨ m2 = "edge" →
  0 ≤ t → length X = Z.to_nat t → length Y = Z.to_nat t →
  N = Z.of_nat (length X + length M + length Y) →
  geometry.py_slice (X ++ M ++ Y)
    (if bool_decide (m1 = "edge") then t else 0)
    (N - (if bool_decide (m2 = "edge") then t else 0))
  = (if bool_decide (m1 = "constant") then X else [])
    ++ M ++ (if bool_decide (m2 = "constant") then Y else []).
Proof.
  intros H1 H2 Ht HX HY ->.
  pose proof (py_slice_crop X M Y (bool_decide (m1 = "constant"))
                (bool_decide (m2 = "constant"))) as Hcrop.
  rewrite <- Hcrop. f_equal.
  - destruct H1 as [-> | ->]; repeat case_bool_decide; try done; lia.
  - f_equal. destruct H2 as [-> | ->]; repeat case_bool_decide; try done; lia.
Qed.

End Crop.

Section BufferRoundTrip.
Context `{Backend}.

#[local] Arguments np_pad : simpl never.
#[local] Arguments geometry.slice2 : simpl never.
#[local] Arguments amap : simpl never.

Lemma kept_replicate {A} (bs : BufferSpec) (m : string) (x : A) :
  (if bool_decide (m = "constant")
   then replicate (Z.to_nat (thickness bs)) x else [])
  = replicate (kept_padding bs m) x.
Proof. unfold kept_padding. by case_bool_decide. Qed.

(** One row of the padded array, cast and cropped. *)
Lemma crop_row (bs : BufferSpec) (ml mr : string) (r : list float) (N : Z) :
  ml = "constant" ∨ ml = "edge" → mr = "constant" ∨ mr = "edge" →
  0 ≤ thickness bs →
  N = Z.of_nat (Z.to_nat (thickness bs) + length r + Z.to_nat (thickness bs)) →
  geometry.py_slice
    (map astype_float32
       ((replicate (Z.to_nat (thickness bs)) (fill_value ml (head r)) ++ r)
        ++ replicate (Z.to_nat (thickness bs))
             (fill_value mr
                (last (replicate (Z.to_nat (thickness bs))
                         (fill_value ml (head r)) ++ r)))))
    (if bool_decide (ml = "edge") then thickness bs else 0)
    (N - (if bool_decide (mr = "edge") then thickness bs else 0))
  = replicate (kept_padding bs ml) f_zero ++ map astype_float32 r
    ++ replicate (kept_padding bs mr) f_zero.
Proof.
  intros Hml Hmr Ht ->.
  rewrite <- (assoc_L (++)), !map_app, !map_replicate.
  rewrite py_slice_modes; try done.
  - rewrite <- !kept_replicate. unfold fill_value.
    by repeat case_bool_decide.
  - apply length_replicate.
  - apply length_replicate.
  - by rewrite !length_replicate, length_map.
Qed.

Lemma zero_row (kl w kr : nat) :
  replicate kl f_zero ++ map astype_float32 (replicate w f_zero)
  ++ replicate kr f_zero = replicate (kl + w + kr) f_zero.
Proof.
  rewrite map_replicate, !replicate_add. simpl.
  by rewrite <- (assoc_L (++)).
Qed.

Lemma zero_padded_0 (a : ndarray float) : zero_padded 0 0 0 0 a = a.
Proof.
  unfold zero_padded. destruct a as [w rs]. simpl.
  by rewrite Nat.add_0_r, app_nil_r, map_app_nil.
Qed.

(** The round trip through a [BufferSpec] object of the store. *)
Lemma round_trip_content_at (σ : store) (R : ndarray float) (t : dtype)
    (l : loc) (bs : BufferSpec) (mt mb ml mr : string) :
  specs σ !! l = Some bs →
  BufferSpec_validate bs = Ok bs →
  mode bs !! "top" = Some mt → mode bs !! "bottom" = Some mb →
  mode bs !! "left" = Some ml → mode bs !! "right" = Some mr →
  wf_ndarray R → (0 < nrows R)%nat → (0 < ncols R)%nat →
  ∃ d σ' out,
    Device_init R t (Some l) σ = (Ok d, σ') ∧
    to_ndarray d σ' = (Ok out, σ') ∧
    out = zero_padded (kept_padding bs mt) (kept_padding bs mb)
                      (kept_padding bs ml) (kept_padding bs mr)
                      (amap astype_float32 R) ∧
    (mt = "edge" → mb = "edge" → ml = "edge" → mr = "edge" →
     out = amap astype_float32 R).
Proof.
  intros Hl Hvalid Ht Hb Hle Hri Hwf Hr Hc.
  unfold Device_init. mstep.
  set (d := fresh (dom (devices σ))).
  set (σ1 := mk_store (specs σ) (<[d := mk_Device R t l]> (devices σ)) (rng σ)).
  destruct (initial_processing_rows σ1 d l R t bs mt mb ml mr)
    as (A1 & A2 & A3 & A4 & -> & Hr1 & Hr2 & Hr3 & Hr4 & Hc4 & _); try done.
  { apply lookup_insert_eq. }
  unfold BufferSpec_validate in Hvalid.
  destruct (check_mode (mode bs)) eqn:Hcheck; [|done].
  destruct (Z.ltb_spec 0 (thickness bs)) as [Hth|]; [clear Hvalid|done].
  pose proof (check_mode_lookup _ _ _ Hcheck Ht) as Hmt.
  pose proof (check_mode_lookup _ _ _ Hcheck Hb) as Hmb.
  pose proof (check_mode_lookup _ _ _ Hcheck Hle) as Hml.
  pose proof (check_mode_lookup _ _ _ Hcheck Hri) as Hmr.
  eexists d, _, _. split; [done|].
  unfold to_ndarray.
  repeat (mstep; rewrite ?Hl, ?Ht, ?Hb, ?Hle, ?Hri; simpl).
  split; [done|].
  match goal with
  | |- ?a = ?b ∧ _ => assert (Hout : a = b); [|split; [exact Hout|]]
  end; [|rewrite Hout; intros -> -> -> ->; apply zero_padded_0].
  set (n := Z.to_nat (thickness bs)) in *.
  assert (Hlen : length (rows A4) = (n + nrows R + n)%nat).
  { rewrite Hr4, Hr3, Hr2, Hr1, !length_map, !length_app, !length_replicate.
    done. }
  unfold geometry.slice2, zero_padded, nrows, amap. simpl. f_equal.
  - rewrite Hc4, !slice_index_id
      by (destruct Hml as [-> | ->], Hmr as [-> | ->];
          repeat case_bool_decide; try done; lia).
    unfold kept_padding.
    destruct Hml as [-> | ->], Hmr as [-> | ->];
      repeat case_bool_decide; try done; lia.
  - rewrite length_map, Hlen.
    rewrite py_slice_map, Hr4, py_slice_map, Hr3, py_slice_map.
    rewrite Hr2, Hr1, <- (assoc_L (++)).
    rewrite py_slice_modes; try done;
      [| lia | apply length_replicate.. |
       rewrite !length_replicate; unfold nrows; done].
    rewrite !map_map, !map_app.
    assert (Hrow : ∀ r, length r = ncols R →
      geometry.py_slice
        (map astype_float32
           ((replicate n (fill_value ml (head r)) ++ r)
            ++ replicate n
                 (fill_value mr
                    (last (replicate n (fill_value ml (head r)) ++ r)))))
        (if bool_decide (ml = "edge") then thickness bs else 0)
        (Z.of_nat (ncols A4)
         - (if bool_decide (mr = "edge") then thickness bs else 0))
      = replicate (kept_padding bs ml) f_zero ++ map astype_float32 r
        ++ replicate (kept_padding bs mr) f_zero).
    { intros r Hlr. apply crop_row; try done; [lia|].
      rewrite Hc4, Hlr. done. }
    f_equal; [|f_equal].
    + unfold kept_padding at 1, fill_row.
      destruct (decide (mt = "constant")) as [Hcase | Hcase];
        [rewrite !(bool_decide_eq_true_2 _ Hcase)
        | by rewrite !(bool_decide_eq_false_2 _ Hcase)].
      rewrite map_replicate. fold n. f_equal.
      rewrite Hrow by apply length_replicate. apply zero_row.
    + apply map_ext_in. intros r Hin. apply Hrow.
      apply (proj1 (Forall_forall _ _) Hwf). by apply list_elem_of_In.
    + unfold kept_padding at 1, fill_row.
      destruct (decide (mb = "constant")) as [Hcase | Hcase];
        [rewrite !(bool_decide_eq_true_2 _ Hcase)
        | by rewrite !(bool_decide_eq_false_2 _ Hcase)].
      rewrite map_replicate. fold n. f_equal.
      rewrite Hrow by apply length_replicate. apply zero_row.
Qed.

(** X8: for every raster with at least one row and one column and
    every valid [BufferSpec] with a mode on each of the four sides (the
    one given, or the default one of thickness 128 and mode
    ["constant"] made when none is given), constructing a [Device] and
    calling [to_ndarray] returns the raster cast to [float32], with
    rows and columns of zeros, as many as the thickness, on each side
    of mode ["constant"] and nothing on a side of mode ["edge"]; with
    ["edge"] on the four sides it returns the raster cast to
    [float32]. *)
Theorem buffer_round_trip_content (σ : store) (R : ndarray float) (t : dtype)
    (buffer_spec : option loc) (bs : BufferSpec) (mt mb ml mr : string) :
  match buffer_spec with
  | Some l => specs σ !! l = Some bs
  | None => bs = BufferSpec_default
  end →
  BufferSpec_validate bs = Ok bs →
  mode bs !! "top" = Some mt → mode bs !! "bottom" = Some mb →
  mode bs !! "left" = Some ml → mode bs !! "right" = Some mr →
  wf_ndarray R → (0 < nrows R)%nat → (0 < ncols R)%nat →
  ∃ d σ' out,
    Device_init R t buffer_spec σ = (Ok d, σ') ∧
    to_ndarray d σ' = (Ok out, σ') ∧
    out = zero_padded (kept_padding bs mt) (kept_padding bs mb)
                      (kept_padding bs ml) (kept_padding bs mr)
                      (amap astype_float32 R) ∧
    (mt = "edge" → mb = "edge" → ml = "edge" → mr = "edge" →
     out = amap astype_float32 R).
Proof.
  intros Hbs Hvalid Ht Hb Hle Hri Hwf Hr Hc.
  destruct buffer_spec as [l|].
  - exact (round_trip_content_at σ R t l bs mt mb ml mr
             Hbs Hvalid Ht Hb Hle Hri Hwf Hr Hc).
  - subst bs.
    set (l := fresh (dom (specs σ))).
    set (σ0 := mk_store (<[l := BufferSpec_default]> (specs σ)) (devices σ)
                        (rng σ)).
    assert (Hinit : Device_init R t None σ = Device_init R t (Some l) σ0)
      by reflexivity.
    rewrite Hinit.
    apply (round_trip_content_at σ0 R t l BufferSpec_default mt mb ml mr
             (lookup_insert_eq _ _ _) Hvalid Ht Hb Hle Hri Hwf Hr Hc).
Qed.

End BufferRoundTrip.

Lemma buffer_round_trip_content_witness :
  ∃ d σ' out,
    Device_init raster_two float64 None empty_store = (Ok d, σ') ∧
    to_ndarray d σ' = (Ok out, σ') ∧
    out = zero_padded 128 128 128 128 (amap astype_float32 raster_two).
Proof.
  assert (Hwf : wf_ndarray raster_two).
  { unfold wf_ndarray. simpl. repeat constructor. }
  destruct (buffer_round_trip_content empty_store raster_two float64 None
              BufferSpec_default
              "constant" "constant" "constant" "constant")
    as (d & σ' & out & Hinit & Hto & Hout & _);
    [reflexivity | vm_compute; reflexivity | reflexivity | reflexivity
    | reflexivity | reflexivity | exact Hwf | unfold nrows; simpl; lia
    | simpl; lia |].
  exists d, σ', out. split; [exact Hinit|]. split; [exact Hto|]. exact Hout.
Defined.

(** * A [BufferSpec] without one of the four sides *)

Section MissingSide.
Context `{Backend}.

#[local] Arguments np_pad : simpl never.
#[local] Arguments amap : simpl never.

(** X9: the validator of [BufferSpec] looks at the modes that are given
    and does not ask for the four sides; constructing a [Device] with a
    valid [BufferSpec] that lacks a side raises a [KeyError]. *)
Theorem Device_init_missing_side (σ : store) (R : ndarray float) (t : dtype)
    (l : loc) (bs : BufferSpec) (side : string) :
  specs σ !! l = Some bs →
  BufferSpec_validate bs = Ok bs →
  wf_ndarray R → (0 < nrows R)%nat → (0 < ncols R)%nat →
  side ∈ ["top"; "bottom"; "left"; "right"] →
  mode bs !! side = None →
  (Device_init R t (Some l) σ).1 = Raise KeyError.
Proof.
  intros Hl Hvalid Hwf Hr Hc Hside Hnone.
  unfold BufferSpec_validate in Hvalid.
  destruct (check_mode (mode bs)) eqn:Hcheck; [|done].
  destruct (Z.ltb_spec 0 (thickness bs)) as [Hth|]; [clear Hvalid|done].
  unfold Device_init, _initial_processing.
  repeat (mstep; rewrite ?Hl; simpl).
  destruct (mode bs !! "top") as [mt|] eqn:Ht; [simpl | done].
  pose proof (check_mode_lookup _ _ _ Hcheck Ht) as Hmt.
  destruct (np_pad_top R (thickness bs) mt) as (A1 & -> & Hwf1 & Hc1 & Hr1);
    [done | lia | |].
  { destruct Hmt as [-> | ->]; [by left | right; done]. }
  assert (Hn1 : (0 < nrows A1)%nat).
  { unfold nrows in *. rewrite Hr1, length_app. lia. }
  repeat (mstep; rewrite ?Hl; simpl).
  destruct (mode bs !! "bottom") as [mb|] eqn:Hb; [simpl | done].
  pose proof (check_mode_lookup _ _ _ Hcheck Hb) as Hmb.
  destruct (np_pad_bottom A1 (thickness bs) mb) as (A2 & -> & Hwf2 & Hc2 & Hr2);
    [done | lia | |].
  { destruct Hmb as [-> | ->]; [by left | right; split; [done | lia]]. }
  assert (Hn2 : (0 < nrows A2)%nat).
  { unfold nrows in *. rewrite Hr2, length_app. lia. }
  repeat (mstep; rewrite ?Hl; simpl).
  destruct (mode bs !! "left") as [ml|] eqn:Hle; [simpl | done].
  pose proof (check_mode_lookup _ _ _ Hcheck Hle) as Hml.
  destruct (np_pad_left A2 (thickness bs) ml) as (A3 & -> & Hwf3 & Hc3 & Hr3);
    [done | lia | |].
  { destruct Hml as [-> | ->]; [by left | right; split; [done | lia]]. }
  repeat (mstep; rewrite ?Hl; simpl).
  destruct (mode bs !! "right") as [mr|] eqn:Hri; [exfalso | done].
  repeat (apply elem_of_cons in Hside as [-> | Hside]; [congruence|]).
  by apply elem_of_nil in Hside.
Qed.

End MissingSide.

Lemma Device_init_missing_side_witness :
  BufferSpec_validate top_only_spec = Ok top_only_spec ∧
  (Device_init raster_two float64 (Some 0%nat) top_only_store).1
    = Raise KeyError.
Proof.
  assert (Hwf : wf_ndarray raster_two).
  { unfold wf_ndarray. simpl. repeat constructor. }
  split; [vm_compute; reflexivity|].
  apply (Device_init_missing_side top_only_store raster_two float64 0%nat
           top_only_spec "bottom");
    [reflexivity | vm_compute; reflexivity | exact Hwf
    | unfold nrows; simpl; lia | simpl; lia
    | apply elem_of_cons; right; apply elem_of_cons; by left
    | vm_compute; reflexivity].
Defined.

(** * What [_decode_array] returns *)

Section Decoder.

Lemma a2b_loop_bytes (s : string) : ∀ q lc p out b,
  Forall is_byte out → a2b_loop s q lc p out = Ok b → Forall is_byte b.
Proof.
  induction s as [|ch s IH]; intros q lc p out b Hout; simpl.
  - destruct (q =? 0); [|done]. by intros [= <-].
  - assert (Hsnoc : ∀ x, Forall is_byte (out ++ [Z.land x 255])).
    { intros x. apply Forall_app. split; [done|].
      constructor; [apply land_255_byte | constructor]. }
    repeat match goal with
      | |- context [if ?c then _ else _] => destruct c
      end;
      try (intros [= <-]; done); try (by apply IH).
Qed.

Lemma words_le_length (ws : list Z) : ∀ l,
  words_le l = Ok ws →
  length l = (4 * length ws)%nat ∧ (Forall is_byte l → Forall is_word32 ws).
Proof.
  induction ws as [|x ws IH]; intros l.
  - destruct l as [|b0 [|b1 [|b2 [|b3 l]]]]; simpl; try done.
    destruct (words_le l); done.
  - destruct l as [|b0 [|b1 [|b2 [|b3 l]]]]; simpl; try done.
    destruct (words_le l) as [ws'|] eqn:Hl; [|done]. simpl.
    intros [= <- <-]. destruct (IH l Hl) as [Hlen Hw].
    split; [lia|]. intros Hb.
    apply Forall_cons in Hb as [H0 Hb]. apply Forall_cons in Hb as [H1 Hb].
    apply Forall_cons in Hb as [H2 Hb]. apply Forall_cons in Hb as [H3 Hb].
    constructor; [|by apply Hw].
    unfold is_byte, is_word32 in *. rewrite !Z.shiftl_mul_pow2 by lia. lia.
Qed.

Lemma chunks_wf {A} (h w : nat) : ∀ l : list A,
  length l = (h * w)%nat →
  Forall (λ r, length r = w) (chunks h w l) ∧ length (chunks h w l) = h
  ∧ concat (chunks h w l) = l.
Proof.
  induction h as [|h IH]; intros l Hl; simpl in *.
  - split; [constructor|]. split; [done|].
    symmetry. by apply nil_length_inv.
  - destruct (IH (drop w l)) as (Hwf & Hlen & Hcat).
    { rewrite length_drop. lia. }
    split; [constructor; [rewrite length_take; lia | done]|].
    split; [by rewrite Hlen|].
    by rewrite Hcat, take_drop.
Qed.

Lemma struct_unpack_words (b : list Z) (h w : Z) :
  Forall is_byte b → struct_unpack_II b = Ok (h, w) →
  is_word32 h ∧ is_word32 w.
Proof.
  intros Hb. unfold struct_unpack_II.
  destruct b as [|h3 [|h2 [|h1 [|h0 [|w3 [|w2 [|w1 [|w0 [|]]]]]]]]]; try done.
  intros [= <- <-].
  repeat match goal with
    | H : Forall _ (_ :: _) |- _ => apply Forall_cons in H as [? H]
    end.
  unfold is_byte, is_word32 in *. rewrite !Z.shiftl_mul_pow2 by lia. lia.
Qed.

(** Every step of [_decode_array] that returned. *)
Lemma decode_array_steps (s : string) (a : ndarray Z) :
  _decode_array s = Ok a →
  ∃ b h w, b64decode s = Ok b ∧ Forall is_byte b ∧ (8 ≤ length b)%nat ∧
    words_le (drop 8 b) = Ok (ravel a) ∧
    struct_unpack_II (take 8 b) = Ok (h, w) ∧
    is_word32 h ∧ is_word32 w ∧
    h * w = Z.of_nat (length (ravel a)) ∧
    a = mk_ndarray (Z.to_nat w) (chunks (Z.to_nat h) (Z.to_nat w) (ravel a)) ∧
    wf_ndarray a ∧ nrows a = Z.to_nat h.
Proof.
  unfold _decode_array. intros Hdec.
  destruct (b64decode s) as [b|] eqn:Hb; [|done]. rewrite bind_Ok in Hdec.
  assert (Hbytes : Forall is_byte b).
  { unfold b64decode in Hb. by eapply a2b_loop_bytes; [|exact Hb]. }
  unfold np_frombuffer in Hdec. case_bool_decide as Hlen; [done|].
  destruct (words_le (drop 8 b)) as [ws|] eqn:Hws; [|done].
  rewrite bind_Ok in Hdec.
  destruct (struct_unpack_II (take 8 b)) as [[h w]|] eqn:Hhw; [|done].
  rewrite bind_Ok in Hdec. unfold set_shape in Hdec.
  destruct (struct_unpack_words (take 8 b) h w) as [Hh Hw];
    [by apply Forall_take | done |].
  destruct ((0 <=? h) && (0 <=? w) && (h * w =? Z.of_nat (length ws)))
    eqn:Hshape; [|done].
  apply andb_true_iff in Hshape as [_ Hmul%Z.eqb_eq].
  injection Hdec as <-.
  assert (Hl : length ws = (Z.to_nat h * Z.to_nat w)%nat).
  { unfold is_word32 in *. apply Nat2Z.inj.
    rewrite Nat2Z.inj_mul, !Z2Nat.id by lia. lia. }
  destruct (chunks_wf (Z.to_nat h) (Z.to_nat w) ws Hl) as (Hwf & Hn & Hcat).
  exists b, h, w. unfold ravel, nrows, wf_ndarray. simpl. rewrite Hcat.
  unfold is_word32 in *. repeat split; try done; lia.
Qed.

(** X10: whatever text it is given, [_decode_array] returns only
    well-formed arrays: the shape is the one the first eight bytes
    name, the bytes after them are four for every element, and every
    element is the 32 bits of a [float32]. *)
Theorem decode_array_wf (s : string) (a : ndarray Z) :
  _decode_array s = Ok a →
  ∃ b h w, b64decode s = Ok b ∧
    struct_unpack_II (take 8 b) = Ok (h, w) ∧
    shape a = (Z.to_nat h, Z.to_nat w) ∧
    wf_ndarray a ∧
    Z.of_nat (length b) = 8 + 4 * (h * w) ∧
    Forall is_word32 (ravel a).
Proof.
  intros Hdec.
  destruct (decode_array_steps s a Hdec)
    as (b & h & w & Hb & Hbytes & Hlen & Hws & Hhw & Hh & Hw & Hmul & Ha
        & Hwf & Hn).
  exists b, h, w. split; [done|]. split; [done|].
  destruct (words_le_length _ _ Hws) as [Hlen' Hwords].
  split; [|split; [done|split]].
  - unfold shape. rewrite Hn. f_equal. by rewrite Ha.
  - rewrite length_drop in Hlen'. lia.
  - by apply Hwords, Forall_drop.
Qed.

(** Encoding and decoding again, from the lemmas of the codec. *)
Lemma encode_then_decode (R : ndarray Z) :
  wf_ndarray R →
  (0 < nrows R)%nat →
  Forall is_word32 (ravel R) →
  Z.of_nat (nrows R) < 2 ^ 32 →
  Z.of_nat (ncols R) < 2 ^ 32 →
  ∃ s, _encode_array R = Ok s ∧ _decode_array s = Ok R.
Proof.
  intros Hwf Hne Hbits Hh Hw.
  assert (Hh' : is_word32 (Z.of_nat (nrows R))) by (unfold is_word32; lia).
  assert (Hw' : is_word32 (Z.of_nat (ncols R))) by (unfold is_word32; lia).
  destruct (struct_unpack_pack _ _ Hh' Hw') as [Hpack Hunpack].
  set (header := be32 (Z.of_nat (nrows R)) ++ be32 (Z.of_nat (ncols R))) in *.
  assert (Hlen : length header = 8%nat) by reflexivity.
  assert (Hb64 : b64decode (b64encode (header ++ tobytes R))
                 = Ok (header ++ tobytes R)).
  { apply b64decode_b64encode, Forall_app.
    split; [apply Forall_app; split; apply be32_bytes | apply tobytes_bytes]. }
  exists (b64encode (header ++ tobytes R)). split.
  - unfold _encode_array, len_first_row.
    destruct (rows R) eqn:Hrows;
      [unfold nrows in Hne; rewrite Hrows in Hne; simpl in Hne; lia|].
    rewrite bind_Ok, Hpack. by rewrite bind_Ok.
  - unfold _decode_array. rewrite Hb64.
    rewrite bind_Ok. unfold np_frombuffer.
    rewrite bool_decide_eq_false_2 by (rewrite length_app, Hlen; lia).
    rewrite <- Hlen at 1. rewrite drop_app_length.
    unfold tobytes. rewrite words_le_tobytes by done. rewrite bind_Ok.
    rewrite <- Hlen. rewrite take_app_length. rewrite Hunpack, bind_Ok.
    unfold set_shape.
    rewrite length_concat_wf by done.
    replace (_ && _ && _) with true
      by (symmetry; rewrite !andb_true_iff, !Z.leb_le, Z.eqb_eq; lia).
    rewrite !Nat2Z.id. unfold ravel, nrows.
    rewrite chunks_concat by done. by destruct R.
Qed.

(** X11: an array [_decode_array] returned can be encoded again when it
    has a row, and the new text decodes to the same array; one without
    rows, which the decoder returns for a header with the height 0,
    cannot: [_encode_array] raises an [IndexError]. *)
Theorem decode_encode_decode (s : string) (a : ndarray Z) :
  _decode_array s = Ok a →
  (rows a = [] → _encode_array a = Raise IndexError) ∧
  (rows a ≠ [] →
   ∃ s', _encode_array a = Ok s' ∧ _decode_array s' = Ok a).
Proof.
  intros Hdec. split.
  - intros Hrows. unfold _encode_array, len_first_row. by rewrite Hrows.
  - intros Hrows.
    destruct (decode_array_steps s a Hdec)
      as (b & h & w & Hb & Hbytes & Hlen & Hws & Hhw & Hh & Hw & Hmul & Ha
          & Hwf & Hn).
    destruct (words_le_length _ _ Hws) as [_ Hwords].
    apply encode_then_decode; try done.
    + unfold nrows. destruct (rows a); [done | simpl; lia].
    + by apply Hwords, Forall_drop.
    + rewrite Hn. unfold is_word32 in Hh. lia.
    + rewrite Ha. simpl. unfold is_word32 in Hw. lia.
Qed.

End Decoder.

Lemma decode_array_wf_witness :
  ∃ b h w, b64decode one_text = Ok b ∧
    struct_unpack_II (take 8 b) = Ok (h, w) ∧
    shape one_bits = (Z.to_nat h, Z.to_nat w) ∧
    wf_ndarray one_bits ∧
    Z.of_nat (length b) = 8 + 4 * (h * w) ∧
    Forall is_word32 (ravel one_bits).
Proof.
  apply (decode_array_wf one_text one_bits). vm_compute. reflexivity.
Defined.

Lemma decode_encode_decode_witness :
  (rows one_bits = [] → _encode_array one_bits = Raise IndexError) ∧
  (rows one_bits ≠ [] →
   ∃ s', _encode_array one_bits = Ok s' ∧ _decode_array s' = Ok one_bits).
Proof.
  apply (decode_encode_decode one_text one_bits). vm_compute. reflexivity.
Defined.

(** * The exports read the device and do not write *)

Section Exports.
Context `{Backend}.

#[local] Arguments geometry.slice2 : simpl never.
#[local] Arguments array_is_binary : simpl never.
#[local] Arguments polygons_of_contours : simpl never.

Lemma to_ndarray_store (self : loc) (σ : store) : (to_ndarray self σ).2 = σ.
Proof.
  unfold to_ndarray. mstep.
  destruct (devices σ !! self) as [d|]; simpl; [|done]. mstep.
  destruct (specs σ !! buffer_spec d) as [bs|]; simpl; [|done].
  repeat (mstep;
          match goal with
          | |- context [mode bs !! ?k] => destruct (mode bs !! k); simpl
          end; [|done]).
  done.
Qed.

(** X13: [to_ndarray], [is_binary] and [to_gdstk] leave every object as
    it was, whether they return or raise. *)
Theorem exports_read_only (self : loc) (σ : store) (name : string)
    (gds_layer : Z * Z) (contour_approx_mode : Z) :
  (to_ndarray self σ).2 = σ ∧
  (is_binary self σ).2 = σ ∧
  (to_gdstk self name gds_layer contour_approx_mode σ).2 = σ.
Proof.
  split; [apply to_ndarray_store|]. split.
  - unfold is_binary. mstep. by destruct (devices σ !! self).
  - unfold to_gdstk, _device_to_gdstk.
    unfold mbind at 1, M_mbind, M_bind.
    pose proof (to_ndarray_store self σ) as Hto.
    destruct (to_ndarray self σ) as [[a|e] σ']; simpl in Hto; subst σ';
      [|done].
    mstep. destruct (approx_mode_mapping !! contour_approx_mode); simpl; [|done].
    destruct (cv2_findContours _ _ _) as [[contours hierarchy]|]; simpl; [|done].
    by destruct (polygons_of_contours _ _ _).
Qed.

(** X14: a [contour_approx_mode] other than 1, 2, 3 and 4 makes
    [to_gdstk] raise a [KeyError], after [to_ndarray] has returned and
    before OpenCV is called. *)
Theorem to_gdstk_unknown_mode (self : loc) (σ : store) (name : string)
    (gds_layer : Z * Z) (contour_approx_mode : Z) (a : ndarray float) :
  to_ndarray self σ = (Ok a, σ) →
  ¬ (1 ≤ contour_approx_mode ≤ 4) →
  to_gdstk self name gds_layer contour_approx_mode σ = (Raise KeyError, σ).
Proof.
  intros Hto Hmode. unfold to_gdstk, _device_to_gdstk.
  unfold mbind at 1, M_mbind, M_bind. rewrite Hto. mstep.
  replace (approx_mode_mapping !! contour_approx_mode) with (@None Z);
    [done|].
  symmetry. unfold approx_mode_mapping.
  rewrite !lookup_insert_ne by lia. apply lookup_empty.
Qed.

End Exports.

Lemma to_gdstk_unknown_mode_witness :
  to_gdstk 0%nat "prefab_device" (1, 0) 5 zero_store
    = (Raise KeyError, zero_store).
Proof.
  apply (to_gdstk_unknown_mode 0%nat zero_store "prefab_device" (1, 0) 5
           (zeros 3 3));
    [vm_compute; reflexivity | lia].
Defined.

(** * A binary raster makes a binary device *)

Section KeepsBinary.
Context `{Backend}.

#[local] Arguments amap : simpl never.
#[local] Arguments array_is_binary : simpl never.

Lemma elem_of_ravel {A} (a : ndarray A) (v : A) :
  v ∈ ravel a ↔ ∃ r, v ∈ r ∧ r ∈ rows a.
Proof.
  unfold ravel. induction (rows a) as [|r0 rs IH]; simpl.
  - split; [by intros ?%elem_of_nil | by intros (r & _ & ?%elem_of_nil)].
  - rewrite elem_of_app, IH. split.
    + intros [Hv | (r & Hv & Hr)]; [exists r0 | exists r];
        (split; [done|]); [by left | by right].
    + intros (r & Hv & [-> | Hr]%elem_of_cons); [by left | right; by exists r].
Qed.

Lemma astype_zero_or_one (t : dtype) (v : float) :
  t = float32 ∨ t = float64 →
  zero_or_one t v → zero_or_one float32 (astype_float32 v).
Proof.
  intros [-> | ->] Hv.
  - apply (zero_or_one_iff 8388608 (-23)) in Hv; [|reflexivity..].
    destruct Hv as [[s ->] | ->]; [left; by destruct s | by right].
  - apply (zero_or_one_iff 4503599627370496 (-52)) in Hv; [|reflexivity..].
    destruct Hv as [[s ->] | ->]; [left; by destruct s | by right].
Qed.

Lemma fill_row_Forall (P : float → Prop) (m : string) (w : nat)
    (l : list (list float)) :
  P f_zero → Forall (Forall P) l →
  Forall P (fill_row m w (head l)) ∧ Forall P (fill_row m w (last l)).
Proof.
  intros H0 Hl. unfold fill_row. case_bool_decide.
  - split; by apply Forall_replicate.
  - rewrite Forall_forall in Hl. split.
    + destruct (head l) as [r|] eqn:Hr; simpl; [|constructor].
      apply Hl. by apply head_Some_elem_of.
    + destruct (last l) as [r|] eqn:Hr; simpl; [|constructor].
      apply Hl. by apply last_Some_elem_of.
Qed.

Lemma fill_value_Forall (P : float → Prop) (m : string) (r : list float) :
  P f_zero → Forall P r →
  P (fill_value m (head r)) ∧ P (fill_value m (last r)).
Proof.
  intros H0 Hr. unfold fill_value. case_bool_decide; [done|].
  rewrite Forall_forall in Hr. split.
  - destruct (head r) as [x|] eqn:Hx; simpl; [|done].
    apply Hr. by apply head_Some_elem_of.
  - destruct (last r) as [x|] eqn:Hx; simpl; [|done].
    apply Hr. by apply last_Some_elem_of.
Qed.

(** X15: for every [float32] or [float64] raster of zeros and ones
    with at least one row and one column, and every valid [BufferSpec]
    with a mode on each of the four sides, constructing a [Device]
    gives a device on which [is_binary] returns [True]: the padding
    adds zeros or copies of elements, and the cast to [float32] keeps 0
    and 1. *)
Theorem Device_init_is_binary (σ : store) (R : ndarray float) (t : dtype)
    (l : loc) (bs : BufferSpec) (mt mb ml mr : string) :
  specs σ !! l = Some bs →
  BufferSpec_validate bs = Ok bs →
  mode bs !! "top" = Some mt → mode bs !! "bottom" = Some mb →
  mode bs !! "left" = Some ml → mode bs !! "right" = Some mr →
  wf_ndarray R → (0 < nrows R)%nat → (0 < ncols R)%nat →
  t = float32 ∨ t = float64 →
  Forall (zero_or_one t) (ravel R) →
  ∃ d σ', Device_init R t (Some l) σ = (Ok d, σ')
          ∧ is_binary d σ' = (Ok true, σ').
Proof.
  intros Hl Hvalid Ht Hb Hle Hri Hwf Hr Hc Hty Hbin.
  unfold Device_init. mstep.
  set (d := fresh (dom (devices σ))).
  set (σ1 := mk_store (specs σ) (<[d := mk_Device R t l]> (devices σ)) (rng σ)).
  destruct (initial_processing_rows σ1 d l R t bs mt mb ml mr)
    as (A1 & A2 & A3 & A4 & -> & Hr1 & Hr2 & Hr3 & Hr4 & Hc4 & Hwf4);
    try done.
  { apply lookup_insert_eq. }
  eexists d, _. split; [done|].
  unfold is_binary. repeat (mstep; simpl). do 2 f_equal.
  apply (array_is_binary_iff 8388608 (-23)); [reflexivity..|].
  rewrite ravel_amap.
  set (P := zero_or_one t).
  assert (H0 : P f_zero) by (destruct Hty as [-> | ->]; by left).
  assert (HR : Forall (Forall P) (rows R)).
  { apply Forall_forall. intros r Hin. apply Forall_forall. intros v Hv.
    apply (proj1 (Forall_forall _ _) Hbin).
    apply elem_of_ravel. by exists r. }
  assert (H1 : Forall (Forall P) (rows A1)).
  { rewrite Hr1. apply Forall_app. split; [|done].
    apply Forall_replicate. by apply fill_row_Forall. }
  assert (H2 : Forall (Forall P) (rows A2)).
  { rewrite Hr2. apply Forall_app. split; [done|].
    apply Forall_replicate. by apply fill_row_Forall. }
  assert (H3 : Forall (Forall P) (rows A3)).
  { rewrite Hr3. apply Forall_forall.
    intros r' (r & -> & Hin)%list_elem_of_fmap.
    pose proof (proj1 (Forall_forall _ _) H2 r Hin) as Hrow.
    apply Forall_app. split; [|done].
    apply Forall_replicate. by apply fill_value_Forall. }
  assert (H4 : Forall (Forall P) (rows A4)).
  { rewrite Hr4. apply Forall_forall.
    intros r' (r & -> & Hin)%list_elem_of_fmap.
    pose proof (proj1 (Forall_forall _ _) H3 r Hin) as Hrow.
    apply Forall_app. split; [done|].
    apply Forall_replicate. by apply fill_value_Forall. }
  split.
  - intros Hnil. apply (f_equal length) in Hnil.
    rewrite length_map, length_concat_wf in Hnil by done.
    assert ((0 < nrows A4)%nat).
    { unfold nrows in *. rewrite Hr4, Hr3, Hr2, Hr1, !length_map, !length_app.
      lia. }
    simpl in Hnil. nia.
  - apply Forall_fmap, Forall_forall. intros v Hv. simpl.
    apply (astype_zero_or_one t); [done|].
    apply elem_of_ravel in Hv as (r & Hv & Hin).
    by apply (proj1 (Forall_forall _ _)
                (proj1 (Forall_forall _ _) H4 r Hin)).
Qed.

End KeepsBinary.

Lemma Device_init_is_binary_witness :
  ∃ d σ', Device_init checker float64 (Some 0%nat) edge_store = (Ok d, σ')
          ∧ is_binary d σ' = (Ok true, σ').
Proof.
  assert (Hwf : wf_ndarray checker).
  { unfold wf_ndarray. simpl. repeat constructor. }
  assert (Hbin : Forall (zero_or_one float64) (ravel checker)).
  { unfold ravel. simpl.
    repeat (apply Forall_cons_2; [(by left) || (by right)|]).
    apply Forall_nil_2. }
  apply (Device_init_is_binary edge_store checker float64 0%nat
           edge_spec "edge" "edge" "edge" "edge");
    [reflexivity | vm_compute; reflexivity | reflexivity | reflexivity
    | reflexivity | reflexivity | exact Hwf
    | unfold nrows; simpl; lia | simpl; lia | by right | exact Hbin].
Defined.

(** * The levels of [binarize_monte_carlo] *)

Section MonteCarlo.
Context `{Backend}.

Lemma Forall_zip_with {A B C} (P : C → Prop) (f : A → B → C)
    (l : list A) (k : list B) :
  (∀ x y, P (f x y)) → Forall P (zip_with f l k).
Proof.
  intros Hf. revert k. induction l as [|x l IH]; intros [|y k]; simpl;
    try constructor; [apply Hf | apply IH].
Qed.

Lemma Forall_ravel_azip {A B C} (P : C → Prop) (f : A → B → C)
    (a : ndarray A) (b : ndarray B) :
  (∀ x y, P (f x y)) → Forall P (ravel (geometry.azip f a b)).
Proof.
  intros Hf. unfold ravel, geometry.azip. simpl.
  apply Forall_concat, Forall_zip_with. intros r r'.
  by apply Forall_zip_with.
Qed.

(** X16: whatever the random draws and the blur of OpenCV give, an
    array [binarize_monte_carlo] returns holds only [0.0] and [1.0]. *)
Theorem binarize_monte_carlo_levels (t : dtype)
    (device_array W : ndarray float)
    (threshold_noise_std threshold_blur_std : float) (g g' : rng_state) :
  geometry.binarize_monte_carlo t device_array threshold_noise_std
    threshold_blur_std g = (Ok W, g') →
  Forall (λ v, v = f_zero ∨ v = f_one) (ravel W).
Proof.
  unfold geometry.binarize_monte_carlo.
  destruct (np_random_normal _ _ g) as [x g1].
  destruct (np_random_normal_array _ _ _ g1) as [noise g2].
  destruct (cv2_GaussianBlur noise threshold_blur_std) as [blurred|];
    simpl; [|done].
  intros [= <- <-]. apply Forall_ravel_azip. intros v th.
  destruct (SFltb _ th); [by left | by right].
Qed.

End MonteCarlo.

Lemma binarize_monte_carlo_levels_witness :
  geometry.binarize_monte_carlo (H := stub_backend) float64 flat_half
    f_zero f_one tt
    = (Ok (mk_ndarray 2 [[f_one; f_one]; [f_one; f_one]]), tt) ∧
  Forall (λ v, v = f_zero ∨ v = f_one)
    (ravel (mk_ndarray 2 [[f_one; f_one]; [f_one; f_one]])).
Proof.
  assert (Hrun : geometry.binarize_monte_carlo (H := stub_backend) float64
                   flat_half f_zero f_one tt
                 = (Ok (mk_ndarray 2 [[f_one; f_one]; [f_one; f_one]]), tt))
    by (vm_compute; reflexivity).
  split; [exact Hrun|].
  exact (binarize_monte_carlo_levels (H := stub_backend) float64 flat_half _
           f_zero f_one tt tt Hrun).
Defined.

(** * The shape of a new device, and what its construction leaves alone *)

Section Construction.
Context `{Backend}.

#[local] Arguments amap : simpl never.

(** X17: for every raster with at least one row and one column and
    every valid [BufferSpec] with a mode on each of the four sides, the
    array the new [Device] holds has the buffer on the four sides,
    whichever of the two modes each side has: [shape] is that of the
    raster plus twice the thickness on both axes.  The construction
    adds the device and changes no [Device] or [BufferSpec] that was
    there: not the [BufferSpec] it is given, not another device. *)
Theorem Device_shape_with_buffer (σ : store) (R : ndarray float) (t : dtype)
    (l : loc) (bs : BufferSpec) (mt mb ml mr : string) :
  specs σ !! l = Some bs →
  BufferSpec_validate bs = Ok bs →
  mode bs !! "top" = Some mt → mode bs !! "bottom" = Some mb →
  mode bs !! "left" = Some ml → mode bs !! "right" = Some mr →
  wf_ndarray R → (0 < nrows R)%nat → (0 < ncols R)%nat →
  let n := Z.to_nat (thickness bs) in
  ∃ d σ',
    Device_init R t (Some l) σ = (Ok d, σ') ∧
    Device_shape d σ' = (Ok ((n + nrows R + n)%nat, (n + ncols R + n)%nat), σ') ∧
    specs σ' = specs σ ∧
    devices σ !! d = None ∧
    ∀ l0 d0, devices σ !! l0 = Some d0 → devices σ' !! l0 = Some d0.
Proof.
  intros Hl Hvalid Ht Hb Hle Hri Hwf Hr Hc n.
  unfold Device_init. mstep.
  set (d := fresh (dom (devices σ))).
  set (σ1 := mk_store (specs σ) (<[d := mk_Device R t l]> (devices σ)) (rng σ)).
  destruct (initial_processing_Ok σ1 d l R t bs mt mb ml mr)
    as (A & -> & HwfA & HrA & HcA); try done.
  { apply lookup_insert_eq. }
  assert (Hfresh : devices σ !! d = None) by apply not_elem_of_dom, is_fresh.
  eexists d, _. split; [done|]. split; [|split; [done|split; [done|]]].
  - unfold Device_shape. repeat (mstep; simpl). unfold shape.
    by rewrite HrA, HcA.
  - intros l0 d0 Hl0. simpl. rewrite insert_insert_eq.
    rewrite lookup_insert_ne; [done | congruence].
Qed.

End Construction.

Lemma Device_shape_with_buffer_witness :
  ∃ d σ',
    Device_init (zeros 2 3) float64 (Some 0%nat) edge_store = (Ok d, σ') ∧
    Device_shape d σ' = (Ok (4%nat, 5%nat), σ').
Proof.
  assert (Hwf : wf_ndarray (zeros 2 3)).
  { unfold wf_ndarray. simpl. repeat constructor. }
  destruct (Device_shape_with_buffer edge_store (zeros 2 3) float64 0%nat
              edge_spec "edge" "edge" "edge" "edge")
    as (d & σ' & Hinit & Hshape & _);
    [reflexivity | vm_compute; reflexivity | reflexivity | reflexivity
    | reflexivity | reflexivity | exact Hwf | unfold nrows; simpl; lia
    | simpl; lia |].
  exists d, σ'. split; [exact Hinit | exact Hshape].
Defined.

(** * The arrays [_encode_array] accepts *)

(** X18: [_encode_array] returns a text exactly for an array with a
    first row whose height and width are below [2^32]; without a row it
    raises an [IndexError], and with a height or a width of [2^32] or
    more the [struct.error] of the header. *)
Theorem encode_array_domain (a : ndarray Z) :
  match _encode_array a with
  | Ok _ =>
      rows a ≠ [] ∧ Z.of_nat (nrows a) < 2 ^ 32 ∧ Z.of_nat (ncols a) < 2 ^ 32
  | Raise e =>
      (rows a = [] ∧ e = IndexError)
      ∨ (rows a ≠ [] ∧ e = StructError
         ∧ (2 ^ 32 ≤ Z.of_nat (nrows a) ∨ 2 ^ 32 ≤ Z.of_nat (ncols a)))
  end.
Proof.
  unfold _encode_array, len_first_row.
  destruct (rows a) as [|r rs] eqn:Hrows; [by left|].
  rewrite bind_Ok. unfold struct_pack_II.
  destruct (Z.ltb_spec (Z.of_nat (nrows a)) (2 ^ 32)) as [Hh | Hh];
    destruct (Z.ltb_spec (Z.of_nat (ncols a)) (2 ^ 32)) as [Hw | Hw];
    repeat match goal with
      | |- context [0 <=? Z.of_nat ?n] =>
          destruct (Z.leb_spec 0 (Z.of_nat n)); [|lia]
      end; simpl.
  - done.
  - right. split; [done|]. split; [done|]. by right.
  - right. split; [done|]. split; [done|]. by left.
  - right. split; [done|]. split; [done|]. by left.
Qed.
